(** * mod_manager: the MCMP receiver of mod_proxy_cluster

    A shallow embedding of the parts of [mod_manager.c] that parse an MCMP
    body and run the CONFIG and *-APP commands against the shared registry
    (node, host, context and balancer tables plus the version counter),
    followed by the properties of the natural-language specification that
    were checked against it.  Further parts of the file (the version
    notification, the server configuration, PING, STATUS and the status
    page) and further properties of the code come after them.

    Conventions.
    - A C string is a Rocq [string]: the characters before the terminating
      NUL.  [c_str] cuts a buffer at its first NUL where the code can write
      one in the middle of a buffer.
    - C [int], [apr_time_t] and friends are [Z]; the 64-bit version counter
      wraps explicitly.
    - A pointer into a shared table is the slot number of the row.
    - Logging ([ap_log_error]) and the response body are not part of the
      registry and are left out. *)

From stdpp Require Import gmap strings list sorting.
From Stdlib Require Import ZArith Ascii.

Local Open Scope Z_scope.

(** ** Characters and C strings *)

Module CStr.

Definition code (c : ascii) : Z := Z.of_N (N_of_ascii c).
Definition chr (z : Z) : ascii := ascii_of_N (Z.to_N (z mod 256)).

Definition apr_isdigit (c : ascii) : bool := (48 <=? code c) && (code c <=? 57).
Definition apr_isupper (c : ascii) : bool := (65 <=? code c) && (code c <=? 90).
Definition apr_isxdigit (c : ascii) : bool :=
  apr_isdigit c
  || ((65 <=? code c) && (code c <=? 70))
  || ((97 <=? code c) && (code c <=? 102)).
Definition apr_isspace (c : ascii) : bool :=
  (code c =? 32) || ((9 <=? code c) && (code c <=? 13)).
Definition apr_tolower (c : ascii) : ascii :=
  if apr_isupper c then chr (code c + 32) else c.

(** every character through [apr_tolower], as the lower-casing loops do *)
Fixpoint str_tolower (s : string) : string :=
  match s with
  | EmptyString => EmptyString
  | String c s' => String (apr_tolower c) (str_tolower s')
  end.

(** [strcmp(a, b) == 0] *)
Definition streq (a b : string) : bool := String.eqb a b.

(** [strcasecmp(a, b) == 0] *)
Definition strcaseeq (a b : string) : bool :=
  String.eqb (str_tolower a) (str_tolower b).

Definition strlen (s : string) : Z := Z.of_nat (String.length s).

(** the first [n] characters: what [strncpy(dst, src, n)] leaves in [dst] *)
Fixpoint strncpy (n : nat) (s : string) : string :=
  match n, s with
  | O, _ => EmptyString
  | S _, EmptyString => EmptyString
  | S n', String c s' => String c (strncpy n' s')
  end.

Definition NUL : ascii := chr 0.

(** the C string that starts a buffer: everything before the first NUL *)
Fixpoint c_str (s : string) : string :=
  match s with
  | EmptyString => EmptyString
  | String c s' => if Ascii.eqb c NUL then EmptyString else String c (c_str s')
  end.

(** the part of [s] before the first occurrence of [sep], and what follows it *)
Fixpoint cut_at (sep : ascii) (s : string) : string * option string :=
  match s with
  | EmptyString => (EmptyString, None)
  | String c s' =>
      if Ascii.eqb c sep then (EmptyString, Some s')
      else let '(h, t) := cut_at sep s' in (String c h, t)
  end.

(** the pieces of a comma list, in order; never empty *)
Fixpoint split_commas (s : string) : list string :=
  match s with
  | EmptyString => [EmptyString]
  | String c s' =>
      if Ascii.eqb c ","%char then EmptyString :: split_commas s'
      else match split_commas s' with
           | t :: ts => String c t :: ts
           | [] => [String c EmptyString]
           end
  end.

Definition digit_val (c : ascii) : Z := code c - 48.

Fixpoint atoi_digits (acc : Z) (s : string) : Z :=
  match s with
  | EmptyString => acc
  | String c s' => if apr_isdigit c then atoi_digits (10 * acc + digit_val c) s' else acc
  end.

Fixpoint skip_space (s : string) : string :=
  match s with
  | EmptyString => EmptyString
  | String c s' => if apr_isspace c then skip_space s' else s
  end.

(** [atoi] of the C library: leading blanks, an optional sign, then digits.
    The result is not reduced to 32 bits (the C function is undefined
    there). *)
Definition atoi (s : string) : Z :=
  match skip_space s with
  | String "-"%char s' => - atoi_digits 0 s'
  | String "+"%char s' => atoi_digits 0 s'
  | s' => atoi_digits 0 s'
  end.

(** [apr_time_from_sec] *)
Definition apr_time_from_sec (sec : Z) : Z := sec * 1000000.

End CStr.
Import CStr.

(** ** The MCMP parser: [process_buff] and [decodeenc] *)

Module Parser.

Definition is_separator (c : ascii) : bool :=
  Ascii.eqb c "&"%char || Ascii.eqb c "="%char.

(** the first loop of [process_buff]: the number of ['&'] and ['='] *)
Fixpoint count_separators (s : string) : nat :=
  match s with
  | EmptyString => O
  | String c s' => if is_separator c then S (count_separators s') else count_separators s'
  end.

(** the second loop of [process_buff]: every separator is overwritten by a
    NUL and the next pointer is set just after it *)
Fixpoint tokenize (s : string) : list string :=
  match s with
  | EmptyString => [EmptyString]
  | String c s' =>
      if is_separator c then EmptyString :: tokenize s'
      else match tokenize s' with
           | t :: ts => String c t :: ts
           | [] => [String c EmptyString]
           end
  end.

(** [mod_manager_hex2c], on two characters known to be hex digits *)
Definition hex2c_digit (ch : ascii) : Z :=
  if apr_isdigit ch then code ch - 48
  else if apr_isupper ch then code ch - (65 - 10)
  else code ch - (97 - 10).

Definition mod_manager_hex2c (x0 x1 : ascii) : Z :=
  Z.shiftl (hex2c_digit x0) 4 + hex2c_digit x1.

(** the characters [decodeenc] refuses: [<], [>], double quote, single
    quote, CR and LF *)
Definition forbidden (ch : ascii) : bool :=
  (code ch =? 60) || (code ch =? 62) || (code ch =? 34) || (code ch =? 39)
  || (code ch =? 13) || (code ch =? 10).

(** the inner [for] loop of [decodeenc] on one token: [None] is
    [TYPESYNTAX], [Some] the bytes written back into the token *)
Fixpoint decode_token (s : string) : option string :=
  match s with
  | EmptyString => Some EmptyString
  | String c rest =>
      let plain :=
        if forbidden c then None else String c <$> decode_token rest in
      if Ascii.eqb c "%"%char then
        match rest with
        | String h1 (String h2 rest2) =>
            if apr_isxdigit h1 && apr_isxdigit h2 then
              let ch := chr (mod_manager_hex2c h1 h2) in
              if forbidden ch then None else String ch <$> decode_token rest2
            else plain
        | _ => plain
        end
      else plain
  end.

(** [decodeenc]: tokens are decoded in place, in order.  An empty token ends
    the function with [APR_SUCCESS]; the tokens after it are left as they
    are. *)
Fixpoint decodeenc (ptr : list string) : option (list string) :=
  match ptr with
  | [] => Some []
  | tok :: rest =>
      match tok with
      | EmptyString => Some ptr
      | _ =>
          match decode_token tok with
          | None => None
          | Some d => cons (c_str d) <$> decodeenc rest
          end
      end
  end.

(** [process_buff]: [None] is the [NULL] result, which [manager_handler]
    turns into the SYNTAX error [SMESPAR] *)
Definition process_buff (buff : string) : option (list string) :=
  decodeenc (tokenize buff).

(** The decoding as the specification words it, to compare [decode_token]
    with: every [%HH] pair becomes one octet, then the token is looked
    through for a forbidden character. *)
Fixpoint percent_decode (s : string) : string :=
  match s with
  | EmptyString => EmptyString
  | String c rest =>
      if Ascii.eqb c "%"%char then
        match rest with
        | String h1 (String h2 rest2) =>
            if apr_isxdigit h1 && apr_isxdigit h2
            then String (chr (mod_manager_hex2c h1 h2)) (percent_decode rest2)
            else String c (percent_decode rest)
        | _ => String c (percent_decode rest)
        end
      else String c (percent_decode rest)
  end.

Fixpoint has_forbidden (s : string) : bool :=
  match s with
  | EmptyString => false
  | String c rest => forbidden c || has_forbidden rest
  end.

End Parser.
Import Parser.

(** ** The data model: rows of the shared tables *)

Module Model.

(** [struct nodemess] of [node.h], field by field *)
Record nodemess : Type := Build_nodemess {
  mess_id : Z;
  mess_balancer : string;
  mess_JVMRoute : string;
  mess_Domain : string;
  mess_Host : string;
  mess_Port : string;
  mess_Type : string;
  mess_Upgrade : string;
  mess_AJPSecret : string;
  mess_reversed : Z;
  mess_remove : Z;
  mess_ResponseFieldSize : Z;
  mess_flushpackets : Z;
  mess_flushwait : Z;
  mess_ping : Z;
  mess_smax : Z;
  mess_ttl : Z;
  mess_timeout : Z;
  mess_updatetimelb : Z;
  mess_num_failure_idle : Z;
  mess_oldelected : Z;
  mess_oldread : Z;
  mess_lastcleantry : Z;
  mess_num_remove_check : Z
}.

(** [struct nodeinfo] of [node.h].  [stat] is the blob that holds the proxy
    worker's shared statistics ([SIZEOFSCORE] bytes) *)
Record nodeinfo : Type := Build_nodeinfo {
  mess : nodemess;
  updatetime : Z;
  offset : Z;
  stat : list Z
}.

(** Modelled from the spec: [hostinfo_t] of [host.h], which is not among the
    sources.  The fields are the ones [mod_manager.c] reads and writes: the
    alias, the vhost group id, the owning node and the slot id *)
Record hostinfo : Type := Build_hostinfo {
  host_host : string;
  host_vhost : Z;
  host_node : Z;
  host_id : Z
}.

(** Modelled from the spec: [contextinfo_t] of [context.h], which is not
    among the sources: path, vhost id, owning node, status, request counter
    and slot id *)
Record contextinfo : Type := Build_contextinfo {
  ctx_context : string;
  ctx_vhost : Z;
  ctx_node : Z;
  ctx_status : Z;
  ctx_nbrequests : Z;
  ctx_id : Z
}.

(** Modelled from the spec: [balancerinfo_t] of [balancer.h], which is not
    among the sources: the sticky-session policy of a balancer *)
Record balancerinfo : Type := Build_balancerinfo {
  bal_balancer : string;
  bal_StickySession : Z;
  bal_StickySessionCookie : string;
  bal_StickySessionPath : string;
  bal_StickySessionRemove : Z;
  bal_StickySessionForce : Z;
  bal_Timeout : Z;
  bal_Maxattempts : Z;
  bal_id : Z
}.

(** Field updates ([x->f = v]). *)

Definition set_mess_id (v : Z) (x : nodemess) : nodemess :=
  {| mess_id := v;
     mess_balancer := mess_balancer x;
     mess_JVMRoute := mess_JVMRoute x;
     mess_Domain := mess_Domain x;
     mess_Host := mess_Host x;
     mess_Port := mess_Port x;
     mess_Type := mess_Type x;
     mess_Upgrade := mess_Upgrade x;
     mess_AJPSecret := mess_AJPSecret x;
     mess_reversed := mess_reversed x;
     mess_remove := mess_remove x;
     mess_ResponseFieldSize := mess_ResponseFieldSize x;
     mess_flushpackets := mess_flushpackets x;
     mess_flushwait := mess_flushwait x;
     mess_ping := mess_ping x;
     mess_smax := mess_smax x;
     mess_ttl := mess_ttl x;
     mess_timeout := mess_timeout x;
     mess_updatetimelb := mess_updatetimelb x;
     mess_num_failure_idle := mess_num_failure_idle x;
     mess_oldelected := mess_oldelected x;
     mess_oldread := mess_oldread x;
     mess_lastcleantry := mess_lastcleantry x;
     mess_num_remove_check := mess_num_remove_check x |}.
Definition set_mess_balancer (v : string) (x : nodemess) : nodemess :=
  {| mess_id := mess_id x;
     mess_balancer := v;
     mess_JVMRoute := mess_JVMRoute x;
     mess_Domain := mess_Domain x;
     mess_Host := mess_Host x;
     mess_Port := mess_Port x;
     mess_Type := mess_Type x;
     mess_Upgrade := mess_Upgrade x;
     mess_AJPSecret := mess_AJPSecret x;
     mess_reversed := mess_reversed x;
     mess_remove := mess_remove x;
     mess_ResponseFieldSize := mess_ResponseFieldSize x;
     mess_flushpackets := mess_flushpackets x;
     mess_flushwait := mess_flushwait x;
     mess_ping := mess_ping x;
     mess_smax := mess_smax x;
     mess_ttl := mess_ttl x;
     mess_timeout := mess_timeout x;
     mess_updatetimelb := mess_updatetimelb x;
     mess_num_failure_idle := mess_num_failure_idle x;
     mess_oldelected := mess_oldelected x;
     mess_oldread := mess_oldread x;
     mess_lastcleantry := mess_lastcleantry x;
     mess_num_remove_check := mess_num_remove_check x |}.
Definition set_mess_JVMRoute (v : string) (x : nodemess) : nodemess :=
  {| mess_id := mess_id x;
     mess_balancer := mess_balancer x;
     mess_JVMRoute := v;
     mess_Domain := mess_Domain x;
     mess_Host := mess_Host x;
     mess_Port := mess_Port x;
     mess_Type := mess_Type x;
     mess_Upgrade := mess_Upgrade x;
     mess_AJPSecret := mess_AJPSecret x;
     mess_reversed := mess_reversed x;
     mess_remove := mess_remove x;
     mess_ResponseFieldSize := mess_ResponseFieldSize x;
     mess_flushpackets := mess_flushpackets x;
     mess_flushwait := mess_flushwait x;
     mess_ping := mess_ping x;
     mess_smax := mess_smax x;
     mess_ttl := mess_ttl x;
     mess_timeout := mess_timeout x;
     mess_updatetimelb := mess_updatetimelb x;
     mess_num_failure_idle := mess_num_failure_idle x;
     mess_oldelected := mess_oldelected x;
     mess_oldread := mess_oldread x;
     mess_lastcleantry := mess_lastcleantry x;
     mess_num_remove_check := mess_num_remove_check x |}.
Definition set_mess_Domain (v : string) (x : nodemess) : nodemess :=
  {| mess_id := mess_id x;
     mess_balancer := mess_balancer x;
     mess_JVMRoute := mess_JVMRoute x;
     mess_Domain := v;
     mess_Host := mess_Host x;
     mess_Port := mess_Port x;
     mess_Type := mess_Type x;
     mess_Upgrade := mess_Upgrade x;
     mess_AJPSecret := mess_AJPSecret x;
     mess_reversed := mess_reversed x;
     mess_remove := mess_remove x;
     mess_ResponseFieldSize := mess_ResponseFieldSize x;
     mess_flushpackets := mess_flushpackets x;
     mess_flushwait := mess_flushwait x;
     mess_ping := mess_ping x;
     mess_smax := mess_smax x;
     mess_ttl := mess_ttl x;
     mess_timeout := mess_timeout x;
     mess_updatetimelb := mess_updatetimelb x;
     mess_num_failure_idle := mess_num_failure_idle x;
     mess_oldelected := mess_oldelected x;
     mess_oldread := mess_oldread x;
     mess_lastcleantry := mess_lastcleantry x;
     mess_num_remove_check := mess_num_remove_check x |}.
Definition set_mess_Host (v : string) (x : nodemess) : nodemess :=
  {| mess_id := mess_id x;
     mess_balancer := mess_balancer x;
     mess_JVMRoute := mess_JVMRoute x;
     mess_Domain := mess_Domain x;
     mess_Host := v;
     mess_Port := mess_Port x;
     mess_Type := mess_Type x;
     mess_Upgrade := mess_Upgrade x;
     mess_AJPSecret := mess_AJPSecret x;
     mess_reversed := mess_reversed x;
     mess_remove := mess_remove x;
     mess_ResponseFieldSize := mess_ResponseFieldSize x;
     mess_flushpackets := mess_flushpackets x;
     mess_flushwait := mess_flushwait x;
     mess_ping := mess_ping x;
     mess_smax := mess_smax x;
     mess_ttl := mess_ttl x;
     mess_timeout := mess_timeout x;
     mess_updatetimelb := mess_updatetimelb x;
     mess_num_failure_idle := mess_num_failure_idle x;
     mess_oldelected := mess_oldelected x;
     mess_oldread := mess_oldread x;
     mess_lastcleantry := mess_lastcleantry x;
     mess_num_remove_check := mess_num_remove_check x |}.
Definition set_mess_Port (v : string) (x : nodemess) : nodemess :=
  {| mess_id := mess_id x;
     mess_balancer := mess_balancer x;
     mess_JVMRoute := mess_JVMRoute x;
     mess_Domain := mess_Domain x;
     mess_Host := mess_Host x;
     mess_Port := v;
     mess_Type := mess_Type x;
     mess_Upgrade := mess_Upgrade x;
     mess_AJPSecret := mess_AJPSecret x;
     mess_reversed := mess_reversed x;
     mess_remove := mess_remove x;
     mess_ResponseFieldSize := mess_ResponseFieldSize x;
     mess_flushpackets := mess_flushpackets x;
     mess_flushwait := mess_flushwait x;
     mess_ping := mess_ping x;
     mess_smax := mess_smax x;
     mess_ttl := mess_ttl x;
     mess_timeout := mess_timeout x;
     mess_updatetimelb := mess_updatetimelb x;
     mess_num_failure_idle := mess_num_failure_idle x;
     mess_oldelected := mess_oldelected x;
     mess_oldread := mess_oldread x;
     mess_lastcleantry := mess_lastcleantry x;
     mess_num_remove_check := mess_num_remove_check x |}.
Definition set_mess_Type (v : string) (x : nodemess) : nodemess :=
  {| mess_id := mess_id x;
     mess_balancer := mess_balancer x;
     mess_JVMRoute := mess_JVMRoute x;
     mess_Domain := mess_Domain x;
     mess_Host := mess_Host x;
     mess_Port := mess_Port x;
     mess_Type := v;
     mess_Upgrade := mess_Upgrade x;
     mess_AJPSecret := mess_AJPSecret x;
     mess_reversed := mess_reversed x;
     mess_remove := mess_remove x;
     mess_ResponseFieldSize := mess_ResponseFieldSize x;
     mess_flushpackets := mess_flushpackets x;
     mess_flushwait := mess_flushwait x;
     mess_ping := mess_ping x;
     mess_smax := mess_smax x;
     mess_ttl := mess_ttl x;
     mess_timeout := mess_timeout x;
     mess_updatetimelb := mess_updatetimelb x;
     mess_num_failure_idle := mess_num_failure_idle x;
     mess_oldelected := mess_oldelected x;
     mess_oldread := mess_oldread x;
     mess_lastcleantry := mess_lastcleantry x;
     mess_num_remove_check := mess_num_remove_check x |}.
Definition set_mess_Upgrade (v : string) (x : nodemess) : nodemess :=
  {| mess_id := mess_id x;
     mess_balancer := mess_balancer x;
     mess_JVMRoute := mess_JVMRoute x;
     mess_Domain := mess_Domain x;
     mess_Host := mess_Host x;
     mess_Port := mess_Port x;
     mess_Type := mess_Type x;
     mess_Upgrade := v;
     mess_AJPSecret := mess_AJPSecret x;
     mess_reversed := mess_reversed x;
     mess_remove := mess_remove x;
     mess_ResponseFieldSize := mess_ResponseFieldSize x;
     mess_flushpackets := mess_flushpackets x;
     mess_flushwait := mess_flushwait x;
     mess_ping := mess_ping x;
     mess_smax := mess_smax x;
     mess_ttl := mess_ttl x;
     mess_timeout := mess_timeout x;
     mess_updatetimelb := mess_updatetimelb x;
     mess_num_failure_idle := mess_num_failure_idle x;
     mess_oldelected := mess_oldelected x;
     mess_oldread := mess_oldread x;
     mess_lastcleantry := mess_lastcleantry x;
     mess_num_remove_check := mess_num_remove_check x |}.
Definition set_mess_AJPSecret (v : string) (x : nodemess) : nodemess :=
  {| mess_id := mess_id x;
     mess_balancer := mess_balancer x;
     mess_JVMRoute := mess_JVMRoute x;
     mess_Domain := mess_Domain x;
     mess_Host := mess_Host x;
     mess_Port := mess_Port x;
     mess_Type := mess_Type x;
     mess_Upgrade := mess_Upgrade x;
     mess_AJPSecret := v;
     mess_reversed := mess_reversed x;
     mess_remove := mess_remove x;
     mess_ResponseFieldSize := mess_ResponseFieldSize x;
     mess_flushpackets := mess_flushpackets x;
     mess_flushwait := mess_flushwait x;
     mess_ping := mess_ping x;
     mess_smax := mess_smax x;
     mess_ttl := mess_ttl x;
     mess_timeout := mess_timeout x;
     mess_updatetimelb := mess_updatetimelb x;
     mess_num_failure_idle := mess_num_failure_idle x;
     mess_oldelected := mess_oldelected x;
     mess_oldread := mess_oldread x;
     mess_lastcleantry := mess_lastcleantry x;
     mess_num_remove_check := mess_num_remove_check x |}.
Definition set_mess_reversed (v : Z) (x : nodemess) : nodemess :=
  {| mess_id := mess_id x;
     mess_balancer := mess_balancer x;
     mess_JVMRoute := mess_JVMRoute x;
     mess_Domain := mess_Domain x;
     mess_Host := mess_Host x;
     mess_Port := mess_Port x;
     mess_Type := mess_Type x;
     mess_Upgrade := mess_Upgrade x;
     mess_AJPSecret := mess_AJPSecret x;
     mess_reversed := v;
     mess_remove := mess_remove x;
     mess_ResponseFieldSize := mess_ResponseFieldSize x;
     mess_flushpackets := mess_flushpackets x;
     mess_flushwait := mess_flushwait x;
     mess_ping := mess_ping x;
     mess_smax := mess_smax x;
     mess_ttl := mess_ttl x;
     mess_timeout := mess_timeout x;
     mess_updatetimelb := mess_updatetimelb x;
     mess_num_failure_idle := mess_num_failure_idle x;
     mess_oldelected := mess_oldelected x;
     mess_oldread := mess_oldread x;
     mess_lastcleantry := mess_lastcleantry x;
     mess_num_remove_check := mess_num_remove_check x |}.
Definition set_mess_remove (v : Z) (x : nodemess) : nodemess :=
  {| mess_id := mess_id x;
     mess_balancer := mess_balancer x;
     mess_JVMRoute := mess_JVMRoute x;
     mess_Domain := mess_Domain x;
     mess_Host := mess_Host x;
     mess_Port := mess_Port x;
     mess_Type := mess_Type x;
     mess_Upgrade := mess_Upgrade x;
     mess_AJPSecret := mess_AJPSecret x;
     mess_reversed := mess_reversed x;
     mess_remove := v;
     mess_ResponseFieldSize := mess_ResponseFieldSize x;
     mess_flushpackets := mess_flushpackets x;
     mess_flushwait := mess_flushwait x;
     mess_ping := mess_ping x;
     mess_smax := mess_smax x;
     mess_ttl := mess_ttl x;
     mess_timeout := mess_timeout x;
     mess_updatetimelb := mess_updatetimelb x;
     mess_num_failure_idle := mess_num_failure_idle x;
     mess_oldelected := mess_oldelected x;
     mess_oldread := mess_oldread x;
     mess_lastcleantry := mess_lastcleantry x;
     mess_num_remove_check := mess_num_remove_check x |}.
Definition set_mess_ResponseFieldSize (v : Z) (x : nodemess) : nodemess :=
  {| mess_id := mess_id x;
     mess_balancer := mess_balancer x;
     mess_JVMRoute := mess_JVMRoute x;
     mess_Domain := mess_Domain x;
     mess_Host := mess_Host x;
     mess_Port := mess_Port x;
     mess_Type := mess_Type x;
     mess_Upgrade := mess_Upgrade x;
     mess_AJPSecret := mess_AJPSecret x;
     mess_reversed := mess_reversed x;
     mess_remove := mess_remove x;
     mess_ResponseFieldSize := v;
     mess_flushpackets := mess_flushpackets x;
     mess_flushwait := mess_flushwait x;
     mess_ping := mess_ping x;
     mess_smax := mess_smax x;
     mess_ttl := mess_ttl x;
     mess_timeout := mess_timeout x;
     mess_updatetimelb := mess_updatetimelb x;
     mess_num_failure_idle := mess_num_failure_idle x;
     mess_oldelected := mess_oldelected x;
     mess_oldread := mess_oldread x;
     mess_lastcleantry := mess_lastcleantry x;
     mess_num_remove_check := mess_num_remove_check x |}.
Definition set_mess_flushpackets (v : Z) (x : nodemess) : nodemess :=
  {| mess_id := mess_id x;
     mess_balancer := mess_balancer x;
     mess_JVMRoute := mess_JVMRoute x;
     mess_Domain := mess_Domain x;
     mess_Host := mess_Host x;
     mess_Port := mess_Port x;
     mess_Type := mess_Type x;
     mess_Upgrade := mess_Upgrade x;
     mess_AJPSecret := mess_AJPSecret x;
     mess_reversed := mess_reversed x;
     mess_remove := mess_remove x;
     mess_ResponseFieldSize := mess_ResponseFieldSize x;
     mess_flushpackets := v;
     mess_flushwait := mess_flushwait x;
     mess_ping := mess_ping x;
     mess_smax := mess_smax x;
     mess_ttl := mess_ttl x;
     mess_timeout := mess_timeout x;
     mess_updatetimelb := mess_updatetimelb x;
     mess_num_failure_idle := mess_num_failure_idle x;
     mess_oldelected := mess_oldelected x;
     mess_oldread := mess_oldread x;
     mess_lastcleantry := mess_lastcleantry x;
     mess_num_remove_check := mess_num_remove_check x |}.
Definition set_mess_flushwait (v : Z) (x : nodemess) : nodemess :=
  {| mess_id := mess_id x;
     mess_balancer := mess_balancer x;
     mess_JVMRoute := mess_JVMRoute x;
     mess_Domain := mess_Domain x;
     mess_Host := mess_Host x;
     mess_Port := mess_Port x;
     mess_Type := mess_Type x;
     mess_Upgrade := mess_Upgrade x;
     mess_AJPSecret := mess_AJPSecret x;
     mess_reversed := mess_reversed x;
     mess_remove := mess_remove x;
     mess_ResponseFieldSize := mess_ResponseFieldSize x;
     mess_flushpackets := mess_flushpackets x;
     mess_flushwait := v;
     mess_ping := mess_ping x;
     mess_smax := mess_smax x;
     mess_ttl := mess_ttl x;
     mess_timeout := mess_timeout x;
     mess_updatetimelb := mess_updatetimelb x;
     mess_num_failure_idle := mess_num_failure_idle x;
     mess_oldelected := mess_oldelected x;
     mess_oldread := mess_oldread x;
     mess_lastcleantry := mess_lastcleantry x;
     mess_num_remove_check := mess_num_remove_check x |}.
Definition set_mess_ping (v : Z) (x : nodemess) : nodemess :=
  {| mess_id := mess_id x;
     mess_balancer := mess_balancer x;
     mess_JVMRoute := mess_JVMRoute x;
     mess_Domain := mess_Domain x;
     mess_Host := mess_Host x;
     mess_Port := mess_Port x;
     mess_Type := mess_Type x;
     mess_Upgrade := mess_Upgrade x;
     mess_AJPSecret := mess_AJPSecret x;
     mess_reversed := mess_reversed x;
     mess_remove := mess_remove x;
     mess_ResponseFieldSize := mess_ResponseFieldSize x;
     mess_flushpackets := mess_flushpackets x;
     mess_flushwait := mess_flushwait x;
     mess_ping := v;
     mess_smax := mess_smax x;
     mess_ttl := mess_ttl x;
     mess_timeout := mess_timeout x;
     mess_updatetimelb := mess_updatetimelb x;
     mess_num_failure_idle := mess_num_failure_idle x;
     mess_oldelected := mess_oldelected x;
     mess_oldread := mess_oldread x;
     mess_lastcleantry := mess_lastcleantry x;
     mess_num_remove_check := mess_num_remove_check x |}.
Definition set_mess_smax (v : Z) (x : nodemess) : nodemess :=
  {| mess_id := mess_id x;
     mess_balancer := mess_balancer x;
     mess_JVMRoute := mess_JVMRoute x;
     mess_Domain := mess_Domain x;
     mess_Host := mess_Host x;
     mess_Port := mess_Port x;
     mess_Type := mess_Type x;
     mess_Upgrade := mess_Upgrade x;
     mess_AJPSecret := mess_AJPSecret x;
     mess_reversed := mess_reversed x;
     mess_remove := mess_remove x;
     mess_ResponseFieldSize := mess_ResponseFieldSize x;
     mess_flushpackets := mess_flushpackets x;
     mess_flushwait := mess_flushwait x;
     mess_ping := mess_ping x;
     mess_smax := v;
     mess_ttl := mess_ttl x;
     mess_timeout := mess_timeout x;
     mess_updatetimelb := mess_updatetimelb x;
     mess_num_failure_idle := mess_num_failure_idle x;
     mess_oldelected := mess_oldelected x;
     mess_oldread := mess_oldread x;
     mess_lastcleantry := mess_lastcleantry x;
     mess_num_remove_check := mess_num_remove_check x |}.
Definition set_mess_ttl (v : Z) (x : nodemess) : nodemess :=
  {| mess_id := mess_id x;
     mess_balancer := mess_balancer x;
     mess_JVMRoute := mess_JVMRoute x;
     mess_Domain := mess_Domain x;
     mess_Host := mess_Host x;
     mess_Port := mess_Port x;
     mess_Type := mess_Type x;
     mess_Upgrade := mess_Upgrade x;
     mess_AJPSecret := mess_AJPSecret x;
     mess_reversed := mess_reversed x;
     mess_remove := mess_remove x;
     mess_ResponseFieldSize := mess_ResponseFieldSize x;
     mess_flushpackets := mess_flushpackets x;
     mess_flushwait := mess_flushwait x;
     mess_ping := mess_ping x;
     mess_smax := mess_smax x;
     mess_ttl := v;
     mess_timeout := mess_timeout x;
     mess_updatetimelb := mess_updatetimelb x;
     mess_num_failure_idle := mess_num_failure_idle x;
     mess_oldelected := mess_oldelected x;
     mess_oldread := mess_oldread x;
     mess_lastcleantry := mess_lastcleantry x;
     mess_num_remove_check := mess_num_remove_check x |}.
Definition set_mess_timeout (v : Z) (x : nodemess) : nodemess :=
  {| mess_id := mess_id x;
     mess_balancer := mess_balancer x;
     mess_JVMRoute := mess_JVMRoute x;
     mess_Domain := mess_Domain x;
     mess_Host := mess_Host x;
     mess_Port := mess_Port x;
     mess_Type := mess_Type x;
     mess_Upgrade := mess_Upgrade x;
     mess_AJPSecret := mess_AJPSecret x;
     mess_reversed := mess_reversed x;
     mess_remove := mess_remove x;
     mess_ResponseFieldSize := mess_ResponseFieldSize x;
     mess_flushpackets := mess_flushpackets x;
     mess_flushwait := mess_flushwait x;
     mess_ping := mess_ping x;
     mess_smax := mess_smax x;
     mess_ttl := mess_ttl x;
     mess_timeout := v;
     mess_updatetimelb := mess_updatetimelb x;
     mess_num_failure_idle := mess_num_failure_idle x;
     mess_oldelected := mess_oldelected x;
     mess_oldread := mess_oldread x;
     mess_lastcleantry := mess_lastcleantry x;
     mess_num_remove_check := mess_num_remove_check x |}.
Definition set_mess_updatetimelb (v : Z) (x : nodemess) : nodemess :=
  {| mess_id := mess_id x;
     mess_balancer := mess_balancer x;
     mess_JVMRoute := mess_JVMRoute x;
     mess_Domain := mess_Domain x;
     mess_Host := mess_Host x;
     mess_Port := mess_Port x;
     mess_Type := mess_Type x;
     mess_Upgrade := mess_Upgrade x;
     mess_AJPSecret := mess_AJPSecret x;
     mess_reversed := mess_reversed x;
     mess_remove := mess_remove x;
     mess_ResponseFieldSize := mess_ResponseFieldSize x;
     mess_flushpackets := mess_flushpackets x;
     mess_flushwait := mess_flushwait x;
     mess_ping := mess_ping x;
     mess_smax := mess_smax x;
     mess_ttl := mess_ttl x;
     mess_timeout := mess_timeout x;
     mess_updatetimelb := v;
     mess_num_failure_idle := mess_num_failure_idle x;
     mess_oldelected := mess_oldelected x;
     mess_oldread := mess_oldread x;
     mess_lastcleantry := mess_lastcleantry x;
     mess_num_remove_check := mess_num_remove_check x |}.
Definition set_mess_num_failure_idle (v : Z) (x : nodemess) : nodemess :=
  {| mess_id := mess_id x;
     mess_balancer := mess_balancer x;
     mess_JVMRoute := mess_JVMRoute x;
     mess_Domain := mess_Domain x;
     mess_Host := mess_Host x;
     mess_Port := mess_Port x;
     mess_Type := mess_Type x;
     mess_Upgrade := mess_Upgrade x;
     mess_AJPSecret := mess_AJPSecret x;
     mess_reversed := mess_reversed x;
     mess_remove := mess_remove x;
     mess_ResponseFieldSize := mess_ResponseFieldSize x;
     mess_flushpackets := mess_flushpackets x;
     mess_flushwait := mess_flushwait x;
     mess_ping := mess_ping x;
     mess_smax := mess_smax x;
     mess_ttl := mess_ttl x;
     mess_timeout := mess_timeout x;
     mess_updatetimelb := mess_updatetimelb x;
     mess_num_failure_idle := v;
     mess_oldelected := mess_oldelected x;
     mess_oldread := mess_oldread x;
     mess_lastcleantry := mess_lastcleantry x;
     mess_num_remove_check := mess_num_remove_check x |}.
Definition set_mess_oldelected (v : Z) (x : nodemess) : nodemess :=
  {| mess_id := mess_id x;
     mess_balancer := mess_balancer x;
     mess_JVMRoute := mess_JVMRoute x;
     mess_Domain := mess_Domain x;
     mess_Host := mess_Host x;
     mess_Port := mess_Port x;
     mess_Type := mess_Type x;
     mess_Upgrade := mess_Upgrade x;
     mess_AJPSecret := mess_AJPSecret x;
     mess_reversed := mess_reversed x;
     mess_remove := mess_remove x;
     mess_ResponseFieldSize := mess_ResponseFieldSize x;
     mess_flushpackets := mess_flushpackets x;
     mess_flushwait := mess_flushwait x;
     mess_ping := mess_ping x;
     mess_smax := mess_smax x;
     mess_ttl := mess_ttl x;
     mess_timeout := mess_timeout x;
     mess_updatetimelb := mess_updatetimelb x;
     mess_num_failure_idle := mess_num_failure_idle x;
     mess_oldelected := v;
     mess_oldread := mess_oldread x;
     mess_lastcleantry := mess_lastcleantry x;
     mess_num_remove_check := mess_num_remove_check x |}.
Definition set_mess_oldread (v : Z) (x : nodemess) : nodemess :=
  {| mess_id := mess_id x;
     mess_balancer := mess_balancer x;
     mess_JVMRoute := mess_JVMRoute x;
     mess_Domain := mess_Domain x;
     mess_Host := mess_Host x;
     mess_Port := mess_Port x;
     mess_Type := mess_Type x;
     mess_Upgrade := mess_Upgrade x;
     mess_AJPSecret := mess_AJPSecret x;
     mess_reversed := mess_reversed x;
     mess_remove := mess_remove x;
     mess_ResponseFieldSize := mess_ResponseFieldSize x;
     mess_flushpackets := mess_flushpackets x;
     mess_flushwait := mess_flushwait x;
     mess_ping := mess_ping x;
     mess_smax := mess_smax x;
     mess_ttl := mess_ttl x;
     mess_timeout := mess_timeout x;
     mess_updatetimelb := mess_updatetimelb x;
     mess_num_failure_idle := mess_num_failure_idle x;
     mess_oldelected := mess_oldelected x;
     mess_oldread := v;
     mess_lastcleantry := mess_lastcleantry x;
     mess_num_remove_check := mess_num_remove_check x |}.
Definition set_mess_lastcleantry (v : Z) (x : nodemess) : nodemess :=
  {| mess_id := mess_id x;
     mess_balancer := mess_balancer x;
     mess_JVMRoute := mess_JVMRoute x;
     mess_Domain := mess_Domain x;
     mess_Host := mess_Host x;
     mess_Port := mess_Port x;
     mess_Type := mess_Type x;
     mess_Upgrade := mess_Upgrade x;
     mess_AJPSecret := mess_AJPSecret x;
     mess_reversed := mess_reversed x;
     mess_remove := mess_remove x;
     mess_ResponseFieldSize := mess_ResponseFieldSize x;
     mess_flushpackets := mess_flushpackets x;
     mess_flushwait := mess_flushwait x;
     mess_ping := mess_ping x;
     mess_smax := mess_smax x;
     mess_ttl := mess_ttl x;
     mess_timeout := mess_timeout x;
     mess_updatetimelb := mess_updatetimelb x;
     mess_num_failure_idle := mess_num_failure_idle x;
     mess_oldelected := mess_oldelected x;
     mess_oldread := mess_oldread x;
     mess_lastcleantry := v;
     mess_num_remove_check := mess_num_remove_check x |}.
Definition set_mess_num_remove_check (v : Z) (x : nodemess) : nodemess :=
  {| mess_id := mess_id x;
     mess_balancer := mess_balancer x;
     mess_JVMRoute := mess_JVMRoute x;
     mess_Domain := mess_Domain x;
     mess_Host := mess_Host x;
     mess_Port := mess_Port x;
     mess_Type := mess_Type x;
     mess_Upgrade := mess_Upgrade x;
     mess_AJPSecret := mess_AJPSecret x;
     mess_reversed := mess_reversed x;
     mess_remove := mess_remove x;
     mess_ResponseFieldSize := mess_ResponseFieldSize x;
     mess_flushpackets := mess_flushpackets x;
     mess_flushwait := mess_flushwait x;
     mess_ping := mess_ping x;
     mess_smax := mess_smax x;
     mess_ttl := mess_ttl x;
     mess_timeout := mess_timeout x;
     mess_updatetimelb := mess_updatetimelb x;
     mess_num_failure_idle := mess_num_failure_idle x;
     mess_oldelected := mess_oldelected x;
     mess_oldread := mess_oldread x;
     mess_lastcleantry := mess_lastcleantry x;
     mess_num_remove_check := v |}.

Definition set_mess (v : nodemess) (x : nodeinfo) : nodeinfo :=
  {| mess := v;
     updatetime := updatetime x;
     offset := offset x;
     stat := stat x |}.
Definition set_updatetime (v : Z) (x : nodeinfo) : nodeinfo :=
  {| mess := mess x;
     updatetime := v;
     offset := offset x;
     stat := stat x |}.
Definition set_offset (v : Z) (x : nodeinfo) : nodeinfo :=
  {| mess := mess x;
     updatetime := updatetime x;
     offset := v;
     stat := stat x |}.
Definition set_stat (v : list Z) (x : nodeinfo) : nodeinfo :=
  {| mess := mess x;
     updatetime := updatetime x;
     offset := offset x;
     stat := v |}.

Definition set_host_host (v : string) (x : hostinfo) : hostinfo :=
  {| host_host := v;
     host_vhost := host_vhost x;
     host_node := host_node x;
     host_id := host_id x |}.
Definition set_host_vhost (v : Z) (x : hostinfo) : hostinfo :=
  {| host_host := host_host x;
     host_vhost := v;
     host_node := host_node x;
     host_id := host_id x |}.
Definition set_host_node (v : Z) (x : hostinfo) : hostinfo :=
  {| host_host := host_host x;
     host_vhost := host_vhost x;
     host_node := v;
     host_id := host_id x |}.
Definition set_host_id (v : Z) (x : hostinfo) : hostinfo :=
  {| host_host := host_host x;
     host_vhost := host_vhost x;
     host_node := host_node x;
     host_id := v |}.

Definition set_ctx_context (v : string) (x : contextinfo) : contextinfo :=
  {| ctx_context := v;
     ctx_vhost := ctx_vhost x;
     ctx_node := ctx_node x;
     ctx_status := ctx_status x;
     ctx_nbrequests := ctx_nbrequests x;
     ctx_id := ctx_id x |}.
Definition set_ctx_vhost (v : Z) (x : contextinfo) : contextinfo :=
  {| ctx_context := ctx_context x;
     ctx_vhost := v;
     ctx_node := ctx_node x;
     ctx_status := ctx_status x;
     ctx_nbrequests := ctx_nbrequests x;
     ctx_id := ctx_id x |}.
Definition set_ctx_node (v : Z) (x : contextinfo) : contextinfo :=
  {| ctx_context := ctx_context x;
     ctx_vhost := ctx_vhost x;
     ctx_node := v;
     ctx_status := ctx_status x;
     ctx_nbrequests := ctx_nbrequests x;
     ctx_id := ctx_id x |}.
Definition set_ctx_status (v : Z) (x : contextinfo) : contextinfo :=
  {| ctx_context := ctx_context x;
     ctx_vhost := ctx_vhost x;
     ctx_node := ctx_node x;
     ctx_status := v;
     ctx_nbrequests := ctx_nbrequests x;
     ctx_id := ctx_id x |}.
Definition set_ctx_nbrequests (v : Z) (x : contextinfo) : contextinfo :=
  {| ctx_context := ctx_context x;
     ctx_vhost := ctx_vhost x;
     ctx_node := ctx_node x;
     ctx_status := ctx_status x;
     ctx_nbrequests := v;
     ctx_id := ctx_id x |}.
Definition set_ctx_id (v : Z) (x : contextinfo) : contextinfo :=
  {| ctx_context := ctx_context x;
     ctx_vhost := ctx_vhost x;
     ctx_node := ctx_node x;
     ctx_status := ctx_status x;
     ctx_nbrequests := ctx_nbrequests x;
     ctx_id := v |}.

Definition set_bal_balancer (v : string) (x : balancerinfo) : balancerinfo :=
  {| bal_balancer := v;
     bal_StickySession := bal_StickySession x;
     bal_StickySessionCookie := bal_StickySessionCookie x;
     bal_StickySessionPath := bal_StickySessionPath x;
     bal_StickySessionRemove := bal_StickySessionRemove x;
     bal_StickySessionForce := bal_StickySessionForce x;
     bal_Timeout := bal_Timeout x;
     bal_Maxattempts := bal_Maxattempts x;
     bal_id := bal_id x |}.
Definition set_bal_StickySession (v : Z) (x : balancerinfo) : balancerinfo :=
  {| bal_balancer := bal_balancer x;
     bal_StickySession := v;
     bal_StickySessionCookie := bal_StickySessionCookie x;
     bal_StickySessionPath := bal_StickySessionPath x;
     bal_StickySessionRemove := bal_StickySessionRemove x;
     bal_StickySessionForce := bal_StickySessionForce x;
     bal_Timeout := bal_Timeout x;
     bal_Maxattempts := bal_Maxattempts x;
     bal_id := bal_id x |}.
Definition set_bal_StickySessionCookie (v : string) (x : balancerinfo) : balancerinfo :=
  {| bal_balancer := bal_balancer x;
     bal_StickySession := bal_StickySession x;
     bal_StickySessionCookie := v;
     bal_StickySessionPath := bal_StickySessionPath x;
     bal_StickySessionRemove := bal_StickySessionRemove x;
     bal_StickySessionForce := bal_StickySessionForce x;
     bal_Timeout := bal_Timeout x;
     bal_Maxattempts := bal_Maxattempts x;
     bal_id := bal_id x |}.
Definition set_bal_StickySessionPath (v : string) (x : balancerinfo) : balancerinfo :=
  {| bal_balancer := bal_balancer x;
     bal_StickySession := bal_StickySession x;
     bal_StickySessionCookie := bal_StickySessionCookie x;
     bal_StickySessionPath := v;
     bal_StickySessionRemove := bal_StickySessionRemove x;
     bal_StickySessionForce := bal_StickySessionForce x;
     bal_Timeout := bal_Timeout x;
     bal_Maxattempts := bal_Maxattempts x;
     bal_id := bal_id x |}.
Definition set_bal_StickySessionRemove (v : Z) (x : balancerinfo) : balancerinfo :=
  {| bal_balancer := bal_balancer x;
     bal_StickySession := bal_StickySession x;
     bal_StickySessionCookie := bal_StickySessionCookie x;
     bal_StickySessionPath := bal_StickySessionPath x;
     bal_StickySessionRemove := v;
     bal_StickySessionForce := bal_StickySessionForce x;
     bal_Timeout := bal_Timeout x;
     bal_Maxattempts := bal_Maxattempts x;
     bal_id := bal_id x |}.
Definition set_bal_StickySessionForce (v : Z) (x : balancerinfo) : balancerinfo :=
  {| bal_balancer := bal_balancer x;
     bal_StickySession := bal_StickySession x;
     bal_StickySessionCookie := bal_StickySessionCookie x;
     bal_StickySessionPath := bal_StickySessionPath x;
     bal_StickySessionRemove := bal_StickySessionRemove x;
     bal_StickySessionForce := v;
     bal_Timeout := bal_Timeout x;
     bal_Maxattempts := bal_Maxattempts x;
     bal_id := bal_id x |}.
Definition set_bal_Timeout (v : Z) (x : balancerinfo) : balancerinfo :=
  {| bal_balancer := bal_balancer x;
     bal_StickySession := bal_StickySession x;
     bal_StickySessionCookie := bal_StickySessionCookie x;
     bal_StickySessionPath := bal_StickySessionPath x;
     bal_StickySessionRemove := bal_StickySessionRemove x;
     bal_StickySessionForce := bal_StickySessionForce x;
     bal_Timeout := v;
     bal_Maxattempts := bal_Maxattempts x;
     bal_id := bal_id x |}.
Definition set_bal_Maxattempts (v : Z) (x : balancerinfo) : balancerinfo :=
  {| bal_balancer := bal_balancer x;
     bal_StickySession := bal_StickySession x;
     bal_StickySessionCookie := bal_StickySessionCookie x;
     bal_StickySessionPath := bal_StickySessionPath x;
     bal_StickySessionRemove := bal_StickySessionRemove x;
     bal_StickySessionForce := bal_StickySessionForce x;
     bal_Timeout := bal_Timeout x;
     bal_Maxattempts := v;
     bal_id := bal_id x |}.
Definition set_bal_id (v : Z) (x : balancerinfo) : balancerinfo :=
  {| bal_balancer := bal_balancer x;
     bal_StickySession := bal_StickySession x;
     bal_StickySessionCookie := bal_StickySessionCookie x;
     bal_StickySessionPath := bal_StickySessionPath x;
     bal_StickySessionRemove := bal_StickySessionRemove x;
     bal_StickySessionForce := bal_StickySessionForce x;
     bal_Timeout := bal_Timeout x;
     bal_Maxattempts := bal_Maxattempts x;
     bal_id := v |}.

(** [node->mess.f = v] *)
Definition on_mess (f : nodemess -> nodemess) (n : nodeinfo) : nodeinfo :=
  set_mess (f (mess n)) n.

(** the statuses of [context.h]; [context_status_to_string] documents the
    values 1 to 4 *)
Definition ENABLED : Z := 1.
Definition DISABLED : Z := 2.
Definition STOPPED : Z := 3.
Definition REMOVE : Z := 4.

(** [enum flush_packets] and [PROXY_FLUSH_WAIT] of [mod_proxy.h] *)
Definition flush_off : Z := 0.
Definition flush_on : Z := 1.
Definition flush_auto : Z := 2.
Definition PROXY_FLUSH_WAIT : Z := 10000.

Definition SIZEOFSCORE : nat := 1700.

Definition REMOVED : string := "REMOVED".

(** the field sizes of [mod_clustersize.h] and of the row types of [host.h]
    and [context.h], none of which is among the sources: they are
    parameters of the development *)
Record clustersize : Type := Build_clustersize {
  BALANCERSZ : Z;
  JVMROUTESZ : Z;
  DOMAINNDSZ : Z;
  HOSTNODESZ : Z;
  PORTNODESZ : Z;
  SCHEMENDSZ : Z;
  AJPSECRETSZ : Z;
  COOKNAMESZ : Z;
  PATHNAMESZ : Z;
  HOSTALIASZ : Z;
  CONTEXTSZ : Z;
  sizeof_host : Z;
  sizeof_context : Z
}.

(** the fields of [mod_manager_config] that the commands read *)
Record mod_manager_config : Type := Build_mod_manager_config {
  balancername : option string;
  enable_ws_tunnel : Z;
  ws_upgrade_header : option string;
  ajp_secret : option string;
  response_field_size : Z
}.

(** what the commands read of a [proxy_worker]: [worker->s->port], the
    shared block [worker->s] and whether [worker->context] is set *)
Record proxy_worker : Type := Build_proxy_worker {
  worker_port : Z;
  worker_shared : list Z;
  worker_context : bool
}.

(** The worker reconciler ([balancerhandler], a [balancer_method] of
    [mod_proxy_cluster.h]) is an external collaborator: its two lookups are
    parameters.  [proxy_node_getid balancer type host port] gives the worker
    (or [NULL]), the id it stores through [int *id] (-1 when it leaves the
    caller's -1 in place) and whether it set [the_conf].
    [reenable_proxy_worker] rewrites the proxy's own worker record and does
    not touch the registry. *)
Record balancer_method : Type := Build_balancer_method {
  bm_proxy_node_getid : string -> string -> string -> string -> option proxy_worker * Z * bool;
  bm_proxy_node_get_free_id : Z -> Z
}.

End Model.
Import Model.

(** ** The shared tables

    The table modules ([node.c], [host.c], [context.c], [balancer.c]) are not
    among the sources; [node.h] declares the node functions.  The operations
    below follow the specification: every table has a fixed capacity and
    supports allocate-slot, read-by-id, find-by-key, update-in-place,
    remove-by-id and enumerate-used-ids; insertion beyond the capacity is a
    memory-kind error and mutates nothing. *)

Module Tables.

(** a slot table: the rows in use by slot number, and the capacity *)
Record mem (A : Type) : Type := Build_mem {
  slots : gmap Z A;
  max_size : Z
}.
Arguments Build_mem {A} _ _.
Arguments slots {A} _.
Arguments max_size {A} _.

Section Slots.
Context {A : Type}.

Definition used (s : mem A) (k : Z) : bool :=
  match slots s !! k with Some _ => true | None => false end.

(** the slot numbers [0 .. max_size - 1] *)
Definition all_slots (s : mem A) : list Z := seqZ 0 (max_size s).

(** Modelled from the spec: enumerate-used-ids ([get_ids_used_node] and its
    siblings), in slot order. *)
Definition ids_used (s : mem A) : list Z := List.filter (used s) (all_slots s).

(** Modelled from the spec: allocate-slot, the first slot not in use;
    [None] when the table is full. *)
Definition grab (s : mem A) : option Z :=
  List.find (fun k => negb (used s k)) (all_slots s).

(** write a row into a slot *)
Definition put (k : Z) (x : A) (s : mem A) : mem A :=
  {| slots := <[k := x]> (slots s); max_size := max_size s |}.

(** Modelled from the spec: remove-by-id ([remove_host],
    [remove_context]). *)
Definition release (k : Z) (s : mem A) : mem A :=
  {| slots := delete k (slots s); max_size := max_size s |}.

(** [p->f = v] through a pointer [p] into the table *)
Definition modify (f : A -> A) (k : Z) (s : mem A) : mem A :=
  {| slots := alter f k (slots s); max_size := max_size s |}.

(** the first slot, among [ids], whose row satisfies [p] *)
Fixpoint first_match (p : A -> bool) (s : mem A) (ids : list Z) : option Z :=
  match ids with
  | [] => None
  | k :: ids' =>
      match slots s !! k with
      | Some x => if p x then Some k else first_match p s ids'
      | None => first_match p s ids'
      end
  end.

(** Modelled from the spec: find-by-key, a scan of the used slots in slot
    order. *)
Definition find_slot (p : A -> bool) (s : mem A) : option Z :=
  first_match p s (ids_used s).

(** a slot and the row in it *)
Definition row_at (s : mem A) (k : Z) : option (Z * A) :=
  x ← slots s !! k; Some (k, x).

(** the removal loops of [mod_manager.c]: for every id of a snapshot of
    the used ids, read the row (skipping an id that can no longer be read)
    and, if it matches, remove the slot named by the row's own id field *)
Fixpoint remove_matching (p : A -> bool) (idf : A -> Z) (ids : list Z) (s : mem A) : mem A :=
  match ids with
  | [] => s
  | i :: ids' =>
      match slots s !! i with
      | None => remove_matching p idf ids' s
      | Some ou => remove_matching p idf ids' (if p ou then release (idf ou) s else s)
      end
  end.
End Slots.

(** *** Nodes *)

(** Modelled from the spec: read-by-id, [get_node] of [node.h]. *)
Definition get_node (s : mem nodeinfo) (ids : Z) : option nodeinfo := slots s !! ids.

(** Modelled from the spec: [find_node] of [node.h], by JVMRoute. *)
Definition find_node (s : mem nodeinfo) (route : string) : option Z :=
  find_slot (fun ou => streq (mess_JVMRoute (mess ou)) route) s.

(** Modelled from the spec: [find_node_byhostport] of [node.h], by Host and
    Port. *)
Definition find_node_byhostport (s : mem nodeinfo) (host port : string) : option Z :=
  find_slot (fun ou => streq (mess_Host (mess ou)) host && streq (mess_Port (mess ou)) port) s.

(** Modelled from the spec: [read_node] of [node.h].  [process_config] and
    [process_appl_cmd] call it with [mess.id == -1] to look a node up by its
    JVMRoute; [read_node_by_id] calls it with the id set.  The result is the
    address of the row: its slot. *)
Definition read_node (s : mem nodeinfo) (node : nodeinfo) : option Z :=
  if mess_id (mess node) =? -1 then find_node s (mess_JVMRoute (mess node))
  else if used s (mess_id (mess node)) then Some (mess_id (mess node)) else None.

(** Modelled from the spec: [insert_update_node(node, &id, clean)].  If
    [id == -1] a free slot is allocated, otherwise slot [id] is updated in
    place; [clean] zeroes the worker statistics blob, otherwise the blob
    carried by [node] is kept.  [None] is the memory-kind error; on success
    the slot is stored through [id]. *)
Definition insert_update_node (now : Z) (s : mem nodeinfo) (node : nodeinfo) (id clean : Z)
  : option (mem nodeinfo * Z) :=
  let ident :=
    if id =? -1 then grab s
    else if (0 <=? id) && (id <? max_size s) then Some id else None in
  match ident with
  | None => None
  | Some k =>
      let ou := on_mess (set_mess_id k) node in
      let ou := set_updatetime now ou in
      let ou := if clean =? 0 then ou else set_stat (replicate SIZEOFSCORE 0) ou in
      Some (put k ou s, k)
  end.

(** *** Hosts *)

(** Modelled from the spec: read-by-id. *)
Definition get_host (s : mem hostinfo) (ids : Z) : option hostinfo := slots s !! ids.

(** Modelled from the spec: [read_host] with [id == 0], find-by-key.
    [process_appl_cmd] fills in the node and the alias only, so these two
    make the key of the lookup. *)
Definition read_host (s : mem hostinfo) (host : hostinfo) : option Z :=
  find_slot (fun ou => (host_node ou =? host_node host) && streq (host_host ou) (host_host host)) s.

(** the key of a host row in the specification: (node-id, vhost-id, alias) *)
Definition same_host_key (a b : hostinfo) : bool :=
  (host_node a =? host_node b) && (host_vhost a =? host_vhost b)
  && streq (host_host a) (host_host b).

(** Modelled from the spec: [insert_update_host], update-in-place of the row
    with the same key, else allocate-slot; [None] is the memory-kind error. *)
Definition insert_update_host (s : mem hostinfo) (host : hostinfo) : option (mem hostinfo) :=
  match find_slot (same_host_key host) s with
  | Some k => Some (put k (set_host_id k host) s)
  | None =>
      match grab s with
      | Some k => Some (put k (set_host_id k host) s)
      | None => None
      end
  end.

Definition remove_host (s : mem hostinfo) (ids : Z) : mem hostinfo := release ids s.

(** *** Contexts *)

(** Modelled from the spec: read-by-id. *)
Definition get_context (s : mem contextinfo) (ids : Z) : option contextinfo := slots s !! ids.

(** the key of a context row in the specification: (node-id, vhost-id, path) *)
Definition same_context_key (a b : contextinfo) : bool :=
  (ctx_node a =? ctx_node b) && (ctx_vhost a =? ctx_vhost b)
  && streq (ctx_context a) (ctx_context b).

(** Modelled from the spec: [read_context] with [id == 0], find-by-key. *)
Definition read_context (s : mem contextinfo) (context : contextinfo) : option Z :=
  find_slot (same_context_key context) s.

(** Modelled from the spec: [insert_update_context].  An existing row takes
    the new status and keeps its request counter; a new row starts with no
    requests.  [None] is the memory-kind error. *)
Definition insert_update_context (s : mem contextinfo) (context : contextinfo)
  : option (mem contextinfo) :=
  match read_context s context with
  | Some k => Some (modify (set_ctx_status (ctx_status context)) k s)
  | None =>
      match grab s with
      | Some k => Some (put k (set_ctx_id k (set_ctx_nbrequests 0 context)) s)
      | None => None
      end
  end.

Definition remove_context (s : mem contextinfo) (ids : Z) : mem contextinfo := release ids s.

(** *** Balancers *)

(** Modelled from the spec: [insert_update_balancer], keyed by the balancer
    name. *)
Definition insert_update_balancer (s : mem balancerinfo) (balancer : balancerinfo)
  : option (mem balancerinfo) :=
  match find_slot (fun ou => streq (bal_balancer ou) (bal_balancer balancer)) s with
  | Some k => Some (put k (set_bal_id k balancer) s)
  | None =>
      match grab s with
      | Some k => Some (put k (set_bal_id k balancer) s)
      | None => None
      end
  end.

(** *** The registry *)

Record registry : Type := Build_registry {
  nodestatsmem : mem nodeinfo;
  hoststatsmem : mem hostinfo;
  contextstatsmem : mem contextinfo;
  balancerstatsmem : mem balancerinfo;
  version : Z
}.

Definition set_nodestatsmem (v : mem nodeinfo) (st : registry) : registry :=
  {| nodestatsmem := v; hoststatsmem := hoststatsmem st;
     contextstatsmem := contextstatsmem st; balancerstatsmem := balancerstatsmem st;
     version := version st |}.
Definition set_hoststatsmem (v : mem hostinfo) (st : registry) : registry :=
  {| nodestatsmem := nodestatsmem st; hoststatsmem := v;
     contextstatsmem := contextstatsmem st; balancerstatsmem := balancerstatsmem st;
     version := version st |}.
Definition set_contextstatsmem (v : mem contextinfo) (st : registry) : registry :=
  {| nodestatsmem := nodestatsmem st; hoststatsmem := hoststatsmem st;
     contextstatsmem := v; balancerstatsmem := balancerstatsmem st;
     version := version st |}.
Definition set_balancerstatsmem (v : mem balancerinfo) (st : registry) : registry :=
  {| nodestatsmem := nodestatsmem st; hoststatsmem := hoststatsmem st;
     contextstatsmem := contextstatsmem st; balancerstatsmem := v;
     version := version st |}.
Definition set_version (v : Z) (st : registry) : registry :=
  {| nodestatsmem := nodestatsmem st; hoststatsmem := hoststatsmem st;
     contextstatsmem := contextstatsmem st; balancerstatsmem := balancerstatsmem st;
     version := v |}.

(** [inc_version_node]: [base->counter++] on an [apr_uint64_t] *)
Definition inc_version_node (st : registry) : registry :=
  set_version ((version st + 1) mod 2 ^ 64) st.

Definition get_version_node (st : registry) : Z := version st.

Definition loc_get_max_size_node (st : registry) : Z := max_size (nodestatsmem st).
Definition loc_get_max_size_host (st : registry) : Z := max_size (hoststatsmem st).
Definition loc_get_max_size_context (st : registry) : Z := max_size (contextstatsmem st).

End Tables.
Import Tables.

(** ** Results of a command *)

Module Result.

(** the catalogued error messages; those with a [%s] carry the JVMRoute *)
Inductive errmsg : Type :=
  | SMESPAR | SBALBIG | SBAFBIG | SROUBIG | SROUBAD | SDOMBIG | SHOSBIG
  | SPORBIG | STYPBIG | SALIBAD | SCONBAD | SCMDUNS | SMULALB | SMULCTB
  | MNODEUI (route : string) | MNODERM (route : string) | MBALAUI (route : string)
  | MNODERD (route : string) | MHOSTRD (route : string) | MHOSTUI (route : string)
  | MCONTUI (route : string) | MNODEET.

Definition TYPESYNTAX : Z := 1.
Definition TYPEMEM : Z := 2.

(** How a command ends.  [Returned errstring errtype]: the function returned;
    [errstring] is [None] for [NULL] (success) and [errtype] is what it left
    in [*errtype], which [manager_handler] initialises to 0.
    [Aborted]: an [ap_assert] failed.  [Undefined]: the code dereferenced
    [NULL] or read past the end of the token array. *)
Inductive outcome : Type :=
  | Returned (errstring : option errmsg) (errtype : Z)
  | Aborted
  | Undefined.

(** a step that either goes on with a value or ends the command *)
Inductive res (A : Type) : Type :=
  | Go (a : A)
  | Stop (o : outcome).
Arguments Go {A} _.
Arguments Stop {A} _.

Definition bind {A B : Type} (m : res A) (f : A -> res B) : res B :=
  match m with
  | Go a => f a
  | Stop o => Stop o
  end.

Definition error {A : Type} (e : errmsg) (t : Z) : res A := Stop (Returned (Some e) t).

(** [*p] for a pointer that may be [NULL] *)
Definition deref {A : Type} (p : option A) : res A :=
  match p with
  | Some a => Go a
  | None => Stop Undefined
  end.

(** [ap_assert(c)] *)
Definition ap_assert (c : bool) : res unit := if c then Go tt else Stop Aborted.

(** the HTTP side of [manager_handler] and [process_error] *)
Definition http_status (o : outcome) : option Z :=
  match o with
  | Returned None _ => Some 200
  | Returned (Some _) _ => Some 500
  | _ => None
  end.

(** the [Type] header that [process_error] sends *)
Definition error_type_header (errtype : Z) : string :=
  if errtype =? TYPESYNTAX then "SYNTAX"
  else if errtype =? TYPEMEM then "MEM"
  else "GENERAL".

End Result.
Import Result.

#[global] Instance res_bind : MBind res := fun A B f m => bind m f.
#[global] Instance res_ret : MRet res := fun A a => Go a.

(** ** The commands of [mod_manager.c] *)

Module Manager.

(** [struct cluster_host]: an Alias group and its Context group, either of
    which may still be [NULL] *)
Record cluster_host : Type := Build_cluster_host {
  ch_host : option string;
  ch_context : option string
}.

(** what the slot selection of [process_config] hands to the upsert *)
Record slot_choice : Type := Build_slot_choice {
  sc_nodeinfo : nodeinfo;
  sc_id : Z;
  sc_clean : Z;
  sc_removed : Z;
  sc_worker : option proxy_worker;
  sc_the_conf : bool
}.

(** go on with the next part of a command, or end it where a part ended *)
Definition andthen {A : Type} (x : registry * res A)
    (f : registry -> A -> registry * outcome) : registry * outcome :=
  match x with
  | (st, Go a) => f st a
  | (st, Stop o) => (st, o)
  end.

Definition step {A B : Type} (x : registry * res A)
    (f : registry -> A -> registry * res B) : registry * res B :=
  match x with
  | (st, Go a) => f st a
  | (st, Stop o) => (st, Stop o)
  end.

(** the recognised methods that write the registry; [UNSUPPORTED] stands
    for ERROR, ADDID, REMOVEID and QUERY.  STATUS, DUMP, INFO, PING and
    VERSION only read the tables and are not embedded. *)
Inductive mcmp_method : Type :=
  | CONFIG | ENABLE_APP | DISABLE_APP | STOP_APP | REMOVE_APP | UNSUPPORTED.

Definition NODE_COMMAND : string := "/NODE_COMMAND".

Fixpoint is_prefix (p s : string) : bool :=
  match p, s with
  | EmptyString, _ => true
  | String a p', String b s' => Ascii.eqb a b && is_prefix p' s'
  | String _ _, EmptyString => false
  end.

(** [strstr(s, needle) != NULL] *)
Fixpoint strstr (s needle : string) : bool :=
  is_prefix needle s
  || match s with
     | EmptyString => false
     | String _ s' => strstr s' needle
     end.

(** does the string end in [/] [*]? *)
Fixpoint ends_slash_star (s : string) : bool :=
  match s with
  | String "/"%char (String "*"%char EmptyString) => true
  | String _ s' => ends_slash_star s'
  | EmptyString => false
  end.

(** the file name [manager_trans] gives to a request of ours *)
Definition manager_trans_filename (uri : string) : string :=
  if streq uri "*" || ends_slash_star uri then NODE_COMMAND else uri.

Section Commands.
Variable sz : clustersize.
Variable mconf : mod_manager_config.
Variable balancerhandler : option balancer_method.
(** the value of [apr_time_now()] during the command *)
Variable now : Z.
(** the indeterminate value of the local [int id] that [process_node_cmd]
    passes to [insert_update_node] without initialising it *)
Variable uninit_id : Z.

(** *** [loc_remove_host_context] *)

Definition remove_hosts_of (node : Z) (ids : list Z) (s : mem hostinfo) : mem hostinfo :=
  remove_matching (fun ou => host_node ou =? node) host_id ids s.

Definition remove_contexts_of (node : Z) (ids : list Z) (s : mem contextinfo)
  : mem contextinfo :=
  remove_matching (fun context => ctx_node context =? node) ctx_id ids s.

Definition loc_remove_host_context (node : Z) (st : registry) : registry :=
  if loc_get_max_size_host st =? 0 then st
  else
    let hs := remove_hosts_of node (ids_used (hoststatsmem st)) (hoststatsmem st) in
    let cs := remove_contexts_of node (ids_used (contextstatsmem st)) (contextstatsmem st) in
    set_contextstatsmem cs (set_hoststatsmem hs st).

(** *** [insert_update_hosts] and [insert_update_contexts]

    Both walk a comma list.  The table is updated in place, so the rows
    inserted before a failure stay; the boolean is [APR_SUCCESS]. *)

Definition host_info (host : string) (node vhost : Z) : hostinfo :=
  {| host_host := host; host_vhost := vhost; host_node := node; host_id := 0 |}.

Fixpoint insert_hosts_loop (pieces : list string) (node vhost : Z) (s : mem hostinfo)
  : mem hostinfo * bool :=
  match pieces with
  | [] => (s, true)
  | [previous] =>
      match insert_update_host s
              (host_info (strncpy (Z.to_nat (sizeof_host sz)) previous) node vhost) with
      | Some s' => (s', true)
      | None => (s, false)
      end
  | previous :: rest =>
      match insert_update_host s
              (host_info (strncpy (Z.to_nat (HOSTALIASZ sz)) previous) node vhost) with
      | Some s' => insert_hosts_loop rest node vhost s'
      | None => (s, false)
      end
  end.

Definition insert_update_hosts (s : mem hostinfo) (str : option string) (node vhost : Z)
  : mem hostinfo * bool :=
  insert_hosts_loop (split_commas (default EmptyString str)) node vhost s.

Definition context_info (context : string) (node vhost status : Z) : contextinfo :=
  {| ctx_context := context; ctx_vhost := vhost; ctx_node := node;
     ctx_status := status; ctx_nbrequests := 0; ctx_id := 0 |}.

Definition read_remove_context (s : mem contextinfo) (context : contextinfo) : mem contextinfo :=
  match read_context s context with
  | Some k =>
      match slots s !! k with
      | Some info => remove_context s (ctx_id info)
      | None => s
      end
  | None => s
  end.

Fixpoint insert_contexts_loop (pieces : list string) (node vhost status : Z)
    (s : mem contextinfo) : mem contextinfo * bool :=
  match pieces with
  | [] => (s, true)
  | previous :: rest =>
      let info :=
        context_info (strncpy (Z.to_nat (sizeof_context sz)) previous) node vhost status in
      if status =? REMOVE then
        match rest with
        | [] => (read_remove_context s info, true)
        | _ => insert_contexts_loop rest node vhost status (read_remove_context s info)
        end
      else
        match insert_update_context s info with
        | Some s' =>
            match rest with
            | [] => (s', true)
            | _ => insert_contexts_loop rest node vhost status s'
            end
        | None => (s, false)
        end
  end.

Definition insert_update_contexts (s : mem contextinfo) (str : option string)
    (node vhost status : Z) : mem contextinfo * bool :=
  insert_contexts_loop (split_commas (default "/"%string str)) node vhost status s.

(** *** [is_same_node] and [is_same_worker_existing] *)

(** 0 when the two differ in balancer, Host, Port, Type, reversed, smax or
    ttl; -1 otherwise *)
Definition is_same_node (nodeinfo node : nodeinfo) : Z :=
  if negb (streq (mess_balancer (mess nodeinfo)) (mess_balancer (mess node))) then 0
  else if negb (streq (mess_Host (mess nodeinfo)) (mess_Host (mess node))) then 0
  else if negb (streq (mess_Port (mess nodeinfo)) (mess_Port (mess node))) then 0
  else if negb (streq (mess_Type (mess nodeinfo)) (mess_Type (mess node))) then 0
  else if negb (mess_reversed (mess nodeinfo) =? mess_reversed (mess node)) then 0
  else if negb (mess_smax (mess nodeinfo) =? mess_smax (mess node)) then 0
  else if negb (mess_ttl (mess nodeinfo) =? mess_ttl (mess node)) then 0
  else -1.

Fixpoint same_worker_scan (s : mem nodeinfo) (node : nodeinfo) (ids : list Z) : Z :=
  match ids with
  | [] => 0
  | i :: ids' =>
      match get_node s i with
      | None => same_worker_scan s node ids'
      | Some ou =>
          if negb (is_same_node ou node =? 0) then
            if streq (mess_JVMRoute (mess ou)) (mess_JVMRoute (mess node)) then 0
            else if negb (mess_remove (mess ou) =? 0)
                    && streq (mess_JVMRoute (mess ou)) REMOVED then 0
            else -1
          else same_worker_scan s node ids'
      end
  end.

Definition is_same_worker_existing (st : registry) (node : nodeinfo) : Z :=
  if loc_get_max_size_node st =? 0 then 0
  else same_worker_scan (nodestatsmem st) node (ids_used (nodestatsmem st)).

(** *** The reconciler, through [balancerhandler] *)

Definition proxy_node_getid (nodeinfo : nodeinfo) : option proxy_worker * Z * bool :=
  match balancerhandler with
  | Some h =>
      bm_proxy_node_getid h (mess_balancer (mess nodeinfo)) (mess_Type (mess nodeinfo))
        (mess_Host (mess nodeinfo)) (mess_Port (mess nodeinfo))
  | None => (None, -1, false)
  end.

Definition proxy_node_get_free_id (node_table_size : Z) : Z :=
  match balancerhandler with
  | Some h => bm_proxy_node_get_free_id h node_table_size
  | None => -1
  end.

(** *** Defaults *)

Definition default_balancer_name : string :=
  match balancername mconf with
  | Some name => strncpy (Z.to_nat (BALANCERSZ sz - 1)) (str_tolower name)
  | None => "mycluster"
  end.

Definition process_config_balancer_defaults : balancerinfo :=
  {| bal_balancer := default_balancer_name;
     bal_StickySession := 1;
     bal_StickySessionCookie := "JSESSIONID";
     bal_StickySessionPath := "jsessionid";
     bal_StickySessionRemove := 0;
     bal_StickySessionForce := 1;
     bal_Timeout := 0;
     bal_Maxattempts := 1;
     bal_id := 0 |}.

(** [memset(&nodeinfo->mess, 0, ...)] *)
Definition zero_mess : nodemess :=
  {| mess_id := 0; mess_balancer := EmptyString; mess_JVMRoute := EmptyString; mess_Domain := EmptyString;
     mess_Host := EmptyString; mess_Port := EmptyString; mess_Type := EmptyString; mess_Upgrade := EmptyString;
     mess_AJPSecret := EmptyString; mess_reversed := 0; mess_remove := 0;
     mess_ResponseFieldSize := 0; mess_flushpackets := 0; mess_flushwait := 0;
     mess_ping := 0; mess_smax := 0; mess_ttl := 0; mess_timeout := 0;
     mess_updatetimelb := 0; mess_num_failure_idle := 0; mess_oldelected := 0;
     mess_oldread := 0; mess_lastcleantry := 0; mess_num_remove_check := 0 |}.

(** a [nodeinfo_t] on the stack: only [mess] is initialised by the
    commands; the rest is taken as zero *)
Definition stack_nodeinfo (m : nodemess) : nodeinfo :=
  {| mess := m; updatetime := 0; offset := 0; stat := [] |}.

Definition process_config_node_defaults : nodeinfo :=
  stack_nodeinfo
    (set_mess_id (-1)
    (set_mess_ttl (apr_time_from_sec 60)
    (set_mess_smax (-1)
    (set_mess_ping (apr_time_from_sec 10)
    (set_mess_flushwait PROXY_FLUSH_WAIT
    (set_mess_flushpackets flush_off
    (set_mess_Type "ajp"
    (set_mess_Port "8009"
    (set_mess_Host "localhost"
    (set_mess_balancer default_balancer_name zero_mess)))))))))).

(** *** The field loop of [process_config] *)

(** [if (strcasecmp(key, name) == 0) { ... val ... }]: every such block
    reads [val] first *)
Definition on_key {S : Type} (key name : string) (val : option string)
    (f : string -> S -> res S) (s : S) : res S :=
  if strcaseeq key name then v ← deref val; f v s else Go s.

Definition too_big (v : string) (size : Z) : bool := size <=? strlen v.

Definition process_config_balancer (key : string) (val : option string)
    (bn : balancerinfo * nodeinfo) : res (balancerinfo * nodeinfo) :=
  bn ← on_key key "Balancer" val (fun v bn =>
    if too_big v (BALANCERSZ sz) then error SBALBIG TYPESYNTAX
    else
      let name := strncpy (Z.to_nat (BALANCERSZ sz - 1)) (str_tolower v) in
      Go (set_bal_balancer name bn.1, on_mess (set_mess_balancer name) bn.2)) bn;
  bn ← on_key key "StickySession" val (fun v bn =>
    Go (if strcaseeq v "no" then set_bal_StickySession 0 bn.1 else bn.1, bn.2)) bn;
  bn ← on_key key "StickySessionCookie" val (fun v bn =>
    if too_big v (COOKNAMESZ sz) then error SBAFBIG TYPESYNTAX
    else Go (set_bal_StickySessionCookie v bn.1, bn.2)) bn;
  bn ← on_key key "StickySessionPath" val (fun v bn =>
    if too_big v (PATHNAMESZ sz) then error SBAFBIG TYPESYNTAX
    else Go (set_bal_StickySessionPath v bn.1, bn.2)) bn;
  bn ← on_key key "StickySessionRemove" val (fun v bn =>
    Go (if strcaseeq v "yes" then set_bal_StickySessionRemove 1 bn.1 else bn.1, bn.2)) bn;
  bn ← on_key key "StickySessionForce" val (fun v bn =>
    Go (if strcaseeq v "no" then set_bal_StickySessionForce 0 bn.1 else bn.1, bn.2)) bn;
  bn ← on_key key "WaitWorker" val (fun v bn =>
    Go (set_bal_Timeout (apr_time_from_sec (atoi v)) bn.1, bn.2)) bn;
  on_key key "Maxattempts" val (fun v bn =>
    Go (set_bal_Maxattempts (atoi v) bn.1, bn.2)) bn.

(** the loop that removes [%zone] from a bracketed address *)
Fixpoint strip_zone (flag : bool) (s : string) : string :=
  match s with
  | EmptyString => EmptyString
  | String c s' =>
      if (Ascii.eqb c "%"%char || flag) && negb (Ascii.eqb c "]"%char)
      then strip_zone true s'
      else String c (strip_zone flag s')
  end.

Definition host_value (val : string) : string :=
  match val with
  | String "["%char _ => strip_zone false val
  | _ => val
  end.

Definition process_config_node (key : string) (val : option string) (n : nodeinfo)
  : res nodeinfo :=
  n ← on_key key "JVMRoute" val (fun v n =>
    if too_big v (JVMROUTESZ sz) then error SROUBIG TYPESYNTAX
    else Go (on_mess (set_mess_JVMRoute v) n)) n;
  n ← on_key key "Domain" val (fun v n =>
    if too_big v (DOMAINNDSZ sz) then error SDOMBIG TYPESYNTAX
    else Go (on_mess (set_mess_Domain v) n)) n;
  n ← on_key key "Host" val (fun v n =>
    if too_big v (HOSTNODESZ sz) then error SHOSBIG TYPESYNTAX
    else Go (on_mess (set_mess_Host (host_value v)) n)) n;
  n ← on_key key "Port" val (fun v n =>
    if too_big v (PORTNODESZ sz) then error SPORBIG TYPESYNTAX
    else Go (on_mess (set_mess_Port v) n)) n;
  n ← on_key key "Type" val (fun v n =>
    if too_big v (SCHEMENDSZ sz) then error STYPBIG TYPESYNTAX
    else Go (on_mess (set_mess_Type v) n)) n;
  n ← on_key key "Reversed" val (fun v n =>
    Go (if strcaseeq v "yes" then on_mess (set_mess_reversed 1) n else n)) n;
  n ← on_key key "flushpackets" val (fun v n =>
    Go (if strcaseeq v "on" then on_mess (set_mess_flushpackets flush_on) n
        else if strcaseeq v "auto" then on_mess (set_mess_flushpackets flush_auto) n
        else n)) n;
  n ← on_key key "flushwait" val (fun v n =>
    Go (on_mess (set_mess_flushwait (atoi v * 1000)) n)) n;
  n ← on_key key "ping" val (fun v n =>
    Go (on_mess (set_mess_ping (apr_time_from_sec (atoi v))) n)) n;
  n ← on_key key "smax" val (fun v n =>
    Go (on_mess (set_mess_smax (atoi v)) n)) n;
  n ← on_key key "ttl" val (fun v n =>
    Go (on_mess (set_mess_ttl (apr_time_from_sec (atoi v))) n)) n;
  on_key key "Timeout" val (fun v n =>
    Go (on_mess (set_mess_timeout (apr_time_from_sec (atoi v))) n)) n.

(** the Alias and Context blocks of the loop.  The list of completed
    groups and the group [phost] points at stand for the linked list;
    [phost->host = ptr[i + 1]] stores the token as it is. *)
Definition config_alias (key : string) (val : option string)
    (vh : list cluster_host * cluster_host) : res (list cluster_host * cluster_host) :=
  if strcaseeq key "Alias" then
    match ch_host vh.2, ch_context vh.2 with
    | Some _, None => error SALIBAD TYPESYNTAX
    | Some _, Some _ =>
        Go (vh.1 ++ [vh.2], {| ch_host := val; ch_context := None |})
    | None, _ => Go (vh.1, {| ch_host := val; ch_context := ch_context vh.2 |})
    end
  else Go vh.

Definition config_context (key : string) (val : option string)
    (vh : list cluster_host * cluster_host) : res (list cluster_host * cluster_host) :=
  if strcaseeq key "Context" then
    match ch_context vh.2 with
    | Some _ => error SCONBAD TYPESYNTAX
    | None => Go (vh.1, {| ch_host := ch_host vh.2; ch_context := val |})
    end
  else Go vh.

(** what the loop has gathered so far *)
Record config_fields : Type := Build_config_fields {
  cf_balancerinfo : balancerinfo;
  cf_nodeinfo : nodeinfo;
  cf_vhost : list cluster_host;
  cf_phost : cluster_host
}.

Definition config_defaults : config_fields :=
  {| cf_balancerinfo := process_config_balancer_defaults;
     cf_nodeinfo := process_config_node_defaults;
     cf_vhost := [];
     cf_phost := {| ch_host := None; ch_context := None |} |}.

Definition config_pair (key : string) (val : option string) (acc : config_fields)
  : res config_fields :=
  bn ← process_config_balancer key val (cf_balancerinfo acc, cf_nodeinfo acc);
  n ← process_config_node key val bn.2;
  vh ← config_alias key val (cf_vhost acc, cf_phost acc);
  vh ← config_context key val vh;
  Go {| cf_balancerinfo := bn.1; cf_nodeinfo := n; cf_vhost := vh.1; cf_phost := vh.2 |}.

(** [while (ptr[i]) { ... i++; i++; }].  A key that is the last token has
    [ptr[i + 1] == NULL], and the next test reads [ptr[i + 2]], one past
    the terminator. *)
Fixpoint config_loop (ptr : list string) (acc : config_fields) : res config_fields :=
  match ptr with
  | [] => Go acc
  | key :: rest =>
      acc ← config_pair key (head rest) acc;
      match rest with
      | [] => Stop Undefined
      | _ :: rest' => config_loop rest' acc
      end
  end.

(** *** The transactional body of [process_config] *)

Definition mark_node_removed (node : nodeinfo) : nodeinfo :=
  on_mess (set_mess_num_remove_check 0)
    (set_updatetime now
      (on_mess (set_mess_remove 1) (on_mess (set_mess_JVMRoute REMOVED) node))).

Definition read_node_by_id (s : mem nodeinfo) (id : Z) : option Z :=
  read_node s (stack_nodeinfo (set_mess_id id zero_mess)).

(** the rewrites between the field loop and the lock *)
Definition config_ws_tunnel (n : nodeinfo) : nodeinfo :=
  if negb (enable_ws_tunnel mconf =? 0) && negb (streq (mess_Type (mess n)) "ajp") then
    let n := if streq (mess_Type (mess n)) "http" then on_mess (set_mess_Type "ws") n else n in
    let n := if streq (mess_Type (mess n)) "https" then on_mess (set_mess_Type "wss") n else n in
    match ws_upgrade_header mconf with
    | Some h => on_mess (set_mess_Upgrade (strncpy (Z.to_nat (SCHEMENDSZ sz - 1)) h)) n
    | None => on_mess (set_mess_Upgrade "websocket") n
    end
  else n.

Definition config_ajp_secret (n : nodeinfo) : nodeinfo :=
  if streq (mess_Type (mess n)) "ajp" then
    match ajp_secret mconf with
    | Some secret =>
        on_mess (set_mess_AJPSecret (strncpy (Z.to_nat (AJPSECRETSZ sz - 1)) secret)) n
    | None => n
    end
  else n.

Definition config_response_field_size (n : nodeinfo) : nodeinfo :=
  if negb (response_field_size mconf =? 0) && negb (streq (mess_Type (mess n)) "ajp")
  then on_mess (set_mess_ResponseFieldSize (response_field_size mconf)) n
  else n.

Definition config_rewrites (n : nodeinfo) : nodeinfo :=
  config_response_field_size (config_ajp_secret (config_ws_tunnel n)).

(** "check for removed node": a node with this JVMRoute exists and is not
    the same node *)
Definition config_conflict (node : option (Z * nodeinfo)) (nodeinfo : nodeinfo)
    (st : registry) : registry * res unit :=
  match node with
  | Some (k, old) =>
      if is_same_node old nodeinfo =? 0 then
        let st := set_nodestatsmem (modify mark_node_removed k (nodestatsmem st)) st in
        let st := loc_remove_host_context (mess_id (mess old)) st in
        (inc_version_node st, error (MNODERM (mess_JVMRoute (mess old))) TYPEMEM)
      else (st, Go tt)
  | None => (st, Go tt)
  end.

(** [id != -1]: the proxy already has a worker for the node's address *)
Definition config_worker_exists (node : option (Z * nodeinfo)) (nodeinfo : nodeinfo)
    (id : Z) (worker : option proxy_worker) (the_conf : bool) (st : registry)
  : registry * res slot_choice :=
  if match node with Some (_, old) => mess_id (mess old) =? id | None => false end then
    (st, Go {| sc_nodeinfo := nodeinfo; sc_id := id; sc_clean := 1; sc_removed := 0;
               sc_worker := worker; sc_the_conf := the_conf |})
  else
    step
      match node with
      | None =>
          step
            match read_node_by_id (nodestatsmem st) id ≫= row_at (nodestatsmem st) with
            | Some (wk, workernode) =>
                if streq (mess_JVMRoute (mess workernode)) REMOVED then
                  (set_nodestatsmem
                     (modify (on_mess (set_mess_JVMRoute (mess_JVMRoute (mess nodeinfo))))
                        wk (nodestatsmem st)) st,
                   Go id)
                else if negb (streq (mess_JVMRoute (mess workernode)) EmptyString)
                        && negb (streq (mess_JVMRoute (mess workernode))
                                   (mess_JVMRoute (mess nodeinfo)))
                then (st, error MNODEET TYPEMEM)
                else (st, Go id)
            | None => (st, Go 0)
            end
            (fun st removed => (st, _ ← ap_assert the_conf; Go removed))
      | Some _ => (st, Go 0)
      end
      (fun st removed =>
         (st,
          w ← deref worker;
          _ ← ap_assert (negb (worker_port w =? 0));
          _ ← ap_assert the_conf;
          Go {| sc_nodeinfo := set_stat (worker_shared w) nodeinfo; sc_id := id;
                sc_clean := 0; sc_removed := removed;
                sc_worker := worker; sc_the_conf := the_conf |})).

(** [id == -1]: no worker; a row at the same Host and Port gives its slot,
    and a tombstoned one is taken over *)
Definition config_reuse_slot (nodeinfo : nodeinfo) (st : registry) : registry * Z :=
  match find_node_byhostport (nodestatsmem st) (mess_Host (mess nodeinfo))
          (mess_Port (mess nodeinfo)) ≫= row_at (nodestatsmem st) with
  | Some (wk, workernode) =>
      if streq (mess_JVMRoute (mess workernode)) REMOVED then
        (set_nodestatsmem
           (modify (fun n =>
                      on_mess (set_mess_num_remove_check 0)
                        (on_mess (set_mess_remove 0)
                           (on_mess (set_mess_JVMRoute (mess_JVMRoute (mess nodeinfo))) n)))
              wk (nodestatsmem st)) st,
         mess_id (mess workernode))
      else (st, mess_id (mess workernode))
  | None => (st, -1)
  end.

Definition config_choose_slot (node : option (Z * nodeinfo)) (nodeinfo : nodeinfo)
    (st : registry) : registry * res slot_choice :=
  let '(worker, id, the_conf) := proxy_node_getid nodeinfo in
  step
    (if negb (id =? -1) then config_worker_exists node nodeinfo id worker the_conf st
     else
       let '(st, id) := config_reuse_slot nodeinfo st in
       (st, Go {| sc_nodeinfo := nodeinfo; sc_id := id; sc_clean := 1; sc_removed := 0;
                  sc_worker := worker; sc_the_conf := the_conf |}))
    (fun st c =>
       (st,
        Go (if sc_id c =? -1 then
              {| sc_nodeinfo := sc_nodeinfo c;
                 sc_id := proxy_node_get_free_id (loc_get_max_size_node st);
                 sc_clean := sc_clean c; sc_removed := sc_removed c;
                 sc_worker := sc_worker c; sc_the_conf := sc_the_conf c |}
            else c))).

(** "Insert or update node description", the assertions that follow it
    when a worker is reused, and the version bump; the result is the slot
    of the node *)
Definition config_upsert_node (c : slot_choice) (st : registry) : registry * res Z :=
  match insert_update_node now (nodestatsmem st) (sc_nodeinfo c) (sc_id c) (sc_clean c) with
  | None =>
      let st :=
        if negb (sc_removed c =? 0) then
          match read_node_by_id (nodestatsmem st) (sc_removed c) with
          | Some wk => set_nodestatsmem (modify mark_node_removed wk (nodestatsmem st)) st
          | None => st
          end
        else st in
      (st, error (MNODEUI (mess_JVMRoute (mess (sc_nodeinfo c)))) TYPEMEM)
  | Some (s, id) =>
      let st := set_nodestatsmem s st in
      step
        (st,
         if sc_clean c =? 0 then
           match read_node_by_id s id ≫= row_at s with
           | None => Stop Aborted
           | Some (_, workernode) =>
               _ ← ap_assert (sc_the_conf c);
               w ← deref (sc_worker c);
               _ ← ap_assert (worker_context w);
               ap_assert (mess_id (mess workernode) =? id)
           end
         else Go tt)
        (fun st _ => (inc_version_node st, Go id))
  end.

(** "Insert the Alias and corresponding Context".  A failure returns its
    message without storing an error type. *)
Fixpoint config_insert_vhosts (vhost : list cluster_host) (route : string) (id vid : Z)
    (st : registry) : registry * outcome :=
  match vhost with
  | [] => (st, Returned None 0)
  | phost :: rest =>
      let '(hs, ok) := insert_update_hosts (hoststatsmem st) (ch_host phost) id vid in
      let st := set_hoststatsmem hs st in
      if negb ok then (st, Returned (Some (MHOSTUI route)) 0)
      else
        let '(cs, ok) :=
          insert_update_contexts (contextstatsmem st) (ch_context phost) id vid STOPPED in
        let st := set_contextstatsmem cs st in
        if negb ok then (st, Returned (Some (MCONTUI route)) 0)
        else config_insert_vhosts rest route id (vid + 1) st
  end.

Definition config_vhosts (vhost : list cluster_host) (route : string) (id : Z)
    (st : registry) : registry * outcome :=
  match vhost with
  | {| ch_host := None; ch_context := None |} :: _ => (st, Returned None 0)
  | _ => config_insert_vhosts vhost route id 1 st
  end.

Definition config_transaction (nodeinfo : nodeinfo) (balancerinfo : balancerinfo)
    (vhost : list cluster_host) (st : registry) : registry * outcome :=
  match insert_update_balancer (balancerstatsmem st) balancerinfo with
  | None => (st, Returned (Some (MBALAUI (mess_JVMRoute (mess nodeinfo)))) TYPEMEM)
  | Some bs =>
      let st := set_balancerstatsmem bs st in
      let node := read_node (nodestatsmem st) nodeinfo ≫= row_at (nodestatsmem st) in
      andthen (config_conflict node nodeinfo st) (fun st _ =>
      if negb (is_same_worker_existing st nodeinfo =? 0)
      then (st, Returned (Some MNODEET) TYPEMEM)
      else
        andthen (config_choose_slot node nodeinfo st) (fun st c =>
        andthen (config_upsert_node c st) (fun st id =>
        config_vhosts vhost (mess_JVMRoute (mess nodeinfo)) id st)))
  end.

(** what the part of [process_config] before the lock makes of the tokens:
    the node, the balancer and the Alias/Context groups *)
Record config_request : Type := Build_config_request {
  cr_nodeinfo : nodeinfo;
  cr_balancerinfo : balancerinfo;
  cr_vhost : list cluster_host
}.

(** the field loop, "Check for JVMRoute" and the rewrites *)
Definition config_parse (ptr : list string) : res config_request :=
  acc ← config_loop ptr config_defaults;
  if streq (mess_JVMRoute (mess (cf_nodeinfo acc))) EmptyString then error SROUBAD TYPESYNTAX
  else
    Go {| cr_nodeinfo := config_rewrites (cf_nodeinfo acc);
          cr_balancerinfo := cf_balancerinfo acc;
          cr_vhost := cf_vhost acc ++ [cf_phost acc] |}.

Definition process_config (ptr : list string) (st : registry) : registry * outcome :=
  match config_parse ptr with
  | Stop o => (st, o)
  | Go rq => config_transaction (cr_nodeinfo rq) (cr_balancerinfo rq) (cr_vhost rq) st
  end.

(** *** [process_node_cmd]: a *-APP command on the whole node *)

Fixpoint node_cmd_contexts (status : Z) (ou : hostinfo) (ids : list Z)
    (s : mem contextinfo) : mem contextinfo :=
  match ids with
  | [] => s
  | j :: ids' =>
      match get_context s j with
      | None => node_cmd_contexts status ou ids' s
      | Some context =>
          node_cmd_contexts status ou ids'
            (if (ctx_vhost context =? host_vhost ou) && (ctx_node context =? host_node ou)
             then
               if negb (status =? REMOVE) then
                 let s1 := modify (set_ctx_status status) j s in
                 match insert_update_context s1 (set_ctx_status status context) with
                 | Some s2 => s2
                 | None => s1
                 end
               else remove_context s (ctx_id context)
             else s)
      end
  end.

Fixpoint node_cmd_hosts (status node_id : Z) (ids : list Z) (st : registry) : registry :=
  match ids with
  | [] => st
  | i :: ids' =>
      match get_host (hoststatsmem st) i with
      | None => node_cmd_hosts status node_id ids' st
      | Some ou =>
          if negb (host_node ou =? node_id) then node_cmd_hosts status node_id ids' st
          else
            let cs :=
              node_cmd_contexts status ou (ids_used (contextstatsmem st))
                (contextstatsmem st) in
            let st := set_contextstatsmem cs st in
            let st :=
              if status =? REMOVE
              then set_hoststatsmem (remove_host (hoststatsmem st) (host_id ou)) st
              else st in
            node_cmd_hosts status node_id ids' st
      end
  end.

(** "The REMOVE-APP * removes the node (well mark it removed)": the flag is
    set through the pointer, then the row is upserted with the
    uninitialised [id]; the status of the upsert is ignored *)
Definition node_cmd_mark_removed (k : Z) (s : mem nodeinfo) : mem nodeinfo :=
  let s := modify (on_mess (set_mess_remove 1)) k s in
  match slots s !! k with
  | Some node =>
      match insert_update_node now s node uninit_id 0 with
      | Some (s', _) => s'
      | None => s
      end
  | None => s
  end.

(** [node] is the slot of the (locked) node *)
Definition process_node_cmd (status : Z) (node : Z) (st : registry) : registry :=
  if loc_get_max_size_host st =? 0 then st
  else
    match slots (nodestatsmem st) !! node with
    | None => st
    | Some n =>
        let st :=
          node_cmd_hosts status (mess_id (mess n)) (ids_used (hoststatsmem st)) st in
        if status =? REMOVE
        then set_nodestatsmem (node_cmd_mark_removed node (nodestatsmem st)) st
        else st
    end.

(** *** [process_appl_cmd] *)

Record appl_fields : Type := Build_appl_fields {
  af_nodeinfo : nodeinfo;
  af_vhost : cluster_host
}.

Definition appl_defaults : appl_fields :=
  {| af_nodeinfo := stack_nodeinfo zero_mess;
     af_vhost := {| ch_host := None; ch_context := None |} |}.

Definition appl_pair (key : string) (val : option string) (acc : appl_fields)
  : res appl_fields :=
  n ← on_key key "JVMRoute" val (fun v n =>
    if too_big v (JVMROUTESZ sz) then error SROUBIG TYPESYNTAX
    else Go (on_mess (set_mess_id (-1)) (on_mess (set_mess_JVMRoute v) n)))
    (af_nodeinfo acc);
  vh ← (if strcaseeq key "Alias" then
          match ch_host (af_vhost acc) with
          | Some _ => error SMULALB TYPESYNTAX
          | None =>
              v ← deref val;
              Go {| ch_host := Some (str_tolower v);
                    ch_context := ch_context (af_vhost acc) |}
          end
        else Go (af_vhost acc));
  vh ← (if strcaseeq key "Context" then
          match ch_context vh with
          | Some _ => error SMULCTB TYPESYNTAX
          | None => Go {| ch_host := ch_host vh; ch_context := val |}
          end
        else Go vh);
  Go {| af_nodeinfo := n; af_vhost := vh |}.

Fixpoint appl_loop (ptr : list string) (acc : appl_fields) : res appl_fields :=
  match ptr with
  | [] => Go acc
  | key :: rest =>
      acc ← appl_pair key (head rest) acc;
      match rest with
      | [] => Stop Undefined
      | _ :: rest' => appl_loop rest' acc
      end
  end.

(** "Check for JVMRoute, Alias and Context" *)
Definition appl_check (acc : appl_fields) : res appl_fields :=
  if streq (mess_JVMRoute (mess (af_nodeinfo acc))) EmptyString then error SROUBAD TYPESYNTAX
  else
    match ch_host (af_vhost acc), ch_context (af_vhost acc) with
    | Some _, None => error SALIBAD TYPESYNTAX
    | None, Some _ => error SCONBAD TYPESYNTAX
    | _, _ => Go acc
    end.

(** the first alias of the list, as the lookup key is built: copied with
    [strncpy(.., HOSTALIASZ)] and cut at the first comma or at the end of
    the buffer *)
Definition first_alias (host : option string) : string :=
  match host with
  | Some h =>
      strncpy (Z.to_nat (sizeof_host sz - 1))
        (cut_at ","%char (strncpy (Z.to_nat (HOSTALIASZ sz)) h)).1
  | None => EmptyString
  end.

(** "Find the first available vhost id" *)
Fixpoint max_vhost (node : Z) (s : mem hostinfo) (ids : list Z) (vid : Z) : Z :=
  match ids with
  | [] => vid
  | i :: ids' =>
      match get_host s i with
      | None => max_vhost node s ids' vid
      | Some ou =>
          max_vhost node s ids'
            (if (host_node ou =? node) && (vid <? host_vhost ou) then host_vhost ou else vid)
      end
  end.

(** the slot of the host row for the first alias, created when a verb other
    than REMOVE finds none; [Go None] is REMOVE finding none *)
Definition appl_find_host (status : Z) (route : string) (node : nodeinfo)
    (vhost : cluster_host) (st : registry) : registry * res (option Z) :=
  match read_host (hoststatsmem st)
          (host_info (first_alias (ch_host vhost)) (mess_id (mess node)) 0) with
  | Some hk => (st, Go (Some hk))
  | None =>
      if status =? REMOVE then (st, Go None)
      else
        let vid :=
          max_vhost (mess_id (mess node)) (hoststatsmem st) (ids_used (hoststatsmem st)) 0
          + 1 in
        let '(hs, ok) :=
          insert_update_hosts (hoststatsmem st) (ch_host vhost) (mess_id (mess node)) vid in
        let st := set_hoststatsmem hs st in
        if negb ok then (st, error (MHOSTUI route) TYPEMEM)
        else
          let first :=
            match ch_host vhost with
            | Some h => strncpy (Z.to_nat (sizeof_host sz - 1)) (cut_at ","%char h).1
            | None => EmptyString
            end in
          match read_host (hoststatsmem st) (host_info first (mess_id (mess node)) 0) with
          | Some hk => (st, Go (Some hk))
          | None => (st, error (MHOSTRD (mess_JVMRoute (mess node))) TYPEMEM)
          end
  end.

(** "There is no load balancing between balancers": the loop only logs, but
    it compares every context in use with [vhost->context] *)
Definition appl_enable_check (status : Z) (vhost : cluster_host) (st : registry)
  : res unit :=
  if status =? ENABLED then
    match ch_context vhost, ids_used (contextstatsmem st) with
    | None, _ :: _ => Stop Undefined
    | _, _ => Go tt
    end
  else Go tt.

Fixpoint context_remains (vhost node : Z) (s : mem contextinfo) (ids : list Z) : bool :=
  match ids with
  | [] => false
  | i :: ids' =>
      match get_context s i with
      | None => context_remains vhost node s ids'
      | Some ou =>
          if (ctx_vhost ou =? vhost) && (ctx_node ou =? node) then true
          else context_remains vhost node s ids'
      end
  end.

Definition remove_vhost_hosts (vhost node : Z) (ids : list Z) (s : mem hostinfo)
  : mem hostinfo :=
  remove_matching (fun ou => (host_vhost ou =? vhost) && (host_node ou =? node))
    host_id ids s.

(** "Remove the host if all the contextes have been removed" *)
Definition appl_remove_host (vhost node : Z) (st : registry) : registry :=
  if context_remains vhost node (contextstatsmem st) (ids_used (contextstatsmem st))
  then st
  else
    set_hoststatsmem
      (remove_vhost_hosts vhost node (ids_used (hoststatsmem st)) (hoststatsmem st)) st.

(** the context scope of a command, from "Read the ID of the virtual host"
    to the end *)
Definition appl_context_scope (status : Z) (route : string) (node : nodeinfo)
    (vhost : cluster_host) (st : registry) : registry * outcome :=
  andthen (appl_find_host status route node vhost st) (fun st host =>
  match host ≫= get_host (hoststatsmem st) with
  | None => (st, Returned None 0)
  | Some host =>
      andthen (st, appl_enable_check status vhost st) (fun st _ =>
      let '(cs, ok) :=
        insert_update_contexts (contextstatsmem st) (ch_context vhost)
          (mess_id (mess node)) (host_vhost host) status in
      let st := set_contextstatsmem cs st in
      if negb ok then (st, Returned (Some (MCONTUI (mess_JVMRoute (mess node)))) TYPEMEM)
      else if status =? REMOVE then
        (appl_remove_host (host_vhost host) (mess_id (mess node)) st, Returned None 0)
      else if status =? STOPPED then
        match ch_context vhost with
        | None => (st, Undefined)
        | Some _ => (st, Returned None 0)
        end
      else (st, Returned None 0))
  end).

(** the field loop and the checks that follow it *)
Definition appl_parse (ptr : list string) : res appl_fields :=
  acc ← appl_loop ptr appl_defaults; appl_check acc.

Definition process_appl_cmd (ptr : list string) (status global : Z) (st : registry)
  : registry * outcome :=
  match appl_parse ptr with
  | Stop o => (st, o)
  | Go acc =>
      let nodeinfo := af_nodeinfo acc in
      match read_node (nodestatsmem st) nodeinfo ≫= row_at (nodestatsmem st) with
      | None =>
          if status =? REMOVE then (st, Returned None 0)
          else (st, Returned (Some (MNODERD (mess_JVMRoute (mess nodeinfo)))) TYPEMEM)
      | Some (k, node) =>
          if negb (mess_remove (mess node) =? 0) then
            if status =? REMOVE then (st, Returned None 0)
            else (st, Returned (Some (MNODERD (mess_JVMRoute (mess node)))) TYPEMEM)
          else
            let st := inc_version_node st in
            if negb (global =? 0) then (process_node_cmd status k st, Returned None 0)
            else
              appl_context_scope status (mess_JVMRoute (mess nodeinfo)) node
                (af_vhost acc) st
      end
  end.

Definition process_enable (ptr : list string) (global : Z) :=
  process_appl_cmd ptr ENABLED global.
Definition process_disable (ptr : list string) (global : Z) :=
  process_appl_cmd ptr DISABLED global.
Definition process_stop (ptr : list string) (global : Z) :=
  process_appl_cmd ptr STOPPED global.
Definition process_remove (ptr : list string) (global : Z) :=
  process_appl_cmd ptr REMOVE global.

(** *** [manager_handler], from [process_buff] on

    [filename] is [r->filename]; [buff] is the body that was read. *)
Definition manager_handler (method : mcmp_method) (filename buff : string)
    (st : registry) : registry * outcome :=
  match process_buff buff with
  | None => (st, Returned (Some SMESPAR) TYPESYNTAX)
  | Some ptr =>
      let global := if strstr filename NODE_COMMAND then 1 else 0 in
      match method with
      | CONFIG => process_config ptr st
      | ENABLE_APP => process_enable ptr global st
      | DISABLE_APP => process_disable ptr global st
      | STOP_APP => process_stop ptr global st
      | REMOVE_APP => process_remove ptr global st
      | UNSUPPORTED => (st, Returned (Some SCMDUNS) TYPESYNTAX)
      end
  end.
End Commands.

End Manager.
Import Manager.

(** ** Well-formed registries and the notions the properties speak of *)

Module Invariants.

(** every row sits in a slot of the table and carries the number of that
    slot in its id field *)
Definition wf_mem {A : Type} (idf : A -> Z) (s : mem A) : Prop :=
  map_Forall (fun k r => idf r = k /\ 0 <= k < max_size s) (slots s).

(** the tables as [manager_init] sizes them: it raises Maxhost to Maxnode
    and Maxcontext to Maxhost *)
Definition wf_registry (st : registry) : Prop :=
  wf_mem (fun n => mess_id (mess n)) (nodestatsmem st)
  /\ wf_mem host_id (hoststatsmem st)
  /\ wf_mem ctx_id (contextstatsmem st)
  /\ max_size (nodestatsmem st) <= max_size (hoststatsmem st)
  /\ max_size (hoststatsmem st) <= max_size (contextstatsmem st).

Definition empty_mem {A : Type} (size : Z) : mem A := {| slots := ∅; max_size := size |}.

(** the registry [manager_init] creates: empty tables, the balancer table
    sized like the host table, version 0 *)
Definition manager_init (maxnode maxhost maxcontext : Z) : registry :=
  let maxhost := if maxhost <? maxnode then maxnode else maxhost in
  let maxcontext := if maxcontext <? maxhost then maxhost else maxcontext in
  {| nodestatsmem := empty_mem maxnode;
     hoststatsmem := empty_mem maxhost;
     contextstatsmem := empty_mem maxcontext;
     balancerstatsmem := empty_mem maxhost;
     version := 0 |}.

(** the node/host/context graph *)
Definition graph (st : registry)
  : gmap Z nodeinfo * gmap Z hostinfo * gmap Z contextinfo :=
  (slots (nodestatsmem st), slots (hoststatsmem st), slots (contextstatsmem st)).

(** the worker identity: balancer, host, port, type, reversed, smax, ttl *)
Definition identity_equivalent (a b : nodeinfo) : Prop :=
  mess_balancer (mess a) = mess_balancer (mess b)
  /\ mess_Host (mess a) = mess_Host (mess b)
  /\ mess_Port (mess a) = mess_Port (mess b)
  /\ mess_Type (mess a) = mess_Type (mess b)
  /\ mess_reversed (mess a) = mess_reversed (mess b)
  /\ mess_smax (mess a) = mess_smax (mess b)
  /\ mess_ttl (mess a) = mess_ttl (mess b).

(** a tombstone: removed flag set and the route overwritten *)
Definition tombstoned (n : nodeinfo) : Prop :=
  mess_remove (mess n) = 1 /\ mess_JVMRoute (mess n) = REMOVED.

(** each worker identity is held by at most one row of the node table *)
Definition worker_unique (s : mem nodeinfo) : Prop :=
  map_Forall
    (fun i a => map_Forall (fun j b => identity_equivalent a b -> i = j) (slots s))
    (slots s).

(** the row in slot [k] is the only one at this Host and Port *)
Definition alone_at_hostport (s : mem nodeinfo) (k : Z) (host port : string) : Prop :=
  map_Forall
    (fun j b => mess_Host (mess b) = host -> mess_Port (mess b) = port -> j = k)
    (slots s).

(** every context of the node hangs under one of the node's host rows *)
Definition contexts_have_hosts (st : registry) (node : Z) : Prop :=
  map_Forall
    (fun _ c =>
       ctx_node c = node ->
       map_Exists (fun _ h => host_node h = node /\ host_vhost h = ctx_vhost c)
         (slots (hoststatsmem st)))
    (slots (contextstatsmem st)).




(** the version counter after one bump *)
Definition bumped (st st' : registry) : Prop :=
  version st' = (version st + 1) mod 2 ^ 64.

(** nothing of the node/host/context graph changed, nor the version *)
Definition untouched (st st' : registry) : Prop :=
  graph st' = graph st /\ version st' = version st.

(** a host row of the node with this vhost id *)
Definition has_vhost (hs : mem hostinfo) (n v : Z) : Prop :=
  exists i h, slots hs !! i = Some h /\ host_node h = n /\ host_vhost h = v.

(** the (node, vhost) pair of every context row satisfies [P] *)
Definition keys_within (P : Z -> Z -> Prop) (cs : mem contextinfo) : Prop :=
  forall j c, slots cs !! j = Some c -> P (ctx_node c) (ctx_vhost c).

(** every context row hangs under a host row of its node and vhost *)
Definition hosts_cover_contexts (st : registry) : Prop :=
  map_Forall
    (fun _ c =>
       map_Exists (fun _ h => host_node h = ctx_node c /\ host_vhost h = ctx_vhost c)
         (slots (hoststatsmem st)))
    (slots (contextstatsmem st)).

(** what every command keeps *)
Definition registry_invariant (st : registry) : Prop :=
  wf_registry st /\ hosts_cover_contexts st.

(** at most one row of the node table per Host and Port *)
Definition hostport_unique (s : mem nodeinfo) : Prop :=
  map_Forall
    (fun i a =>
       map_Forall
         (fun j b =>
            mess_Host (mess a) = mess_Host (mess b) ->
            mess_Port (mess a) = mess_Port (mess b) -> i = j)
         (slots s))
    (slots s).

(** one MCMP request as [manager_handler] sees it, with the clock and the
    indeterminate [id] of [process_node_cmd] at the time *)
Record request : Type := Build_request {
  rq_now : Z;
  rq_uninit_id : Z;
  rq_method : mcmp_method;
  rq_filename : string;
  rq_buff : string
}.

(** the registry after a request, whatever the request returned *)
Definition serve (sz : clustersize) (mconf : mod_manager_config)
    (balancerhandler : option balancer_method) (st : registry) (r : request) : registry :=
  (manager_handler sz mconf balancerhandler (rq_now r) (rq_uninit_id r) (rq_method r)
     (rq_filename r) (rq_buff r) st).1.

(** the registry after a history of requests *)
Definition run (sz : clustersize) (mconf : mod_manager_config)
    (balancerhandler : option balancer_method) (init : registry) (history : list request)
  : registry :=
  foldl (serve sz mconf balancerhandler) init history.

(** the notions above can be decided on a given registry *)
#[global] Instance identity_equivalent_dec a b : Decision (identity_equivalent a b).
Proof. unfold identity_equivalent. apply _. Defined.

#[global] Instance tombstoned_dec n : Decision (tombstoned n).
Proof. unfold tombstoned. apply _. Defined.

#[global] Instance wf_registry_dec st : Decision (wf_registry st).
Proof. unfold wf_registry, wf_mem. apply _. Defined.

#[global] Instance worker_unique_dec s : Decision (worker_unique s).
Proof. unfold worker_unique. apply _. Defined.

#[global] Instance alone_at_hostport_dec s k host port :
  Decision (alone_at_hostport s k host port).
Proof. unfold alone_at_hostport. apply _. Defined.

#[global] Instance contexts_have_hosts_dec st node :
  Decision (contexts_have_hosts st node).
Proof. unfold contexts_have_hosts. apply _. Defined.

End Invariants.
Import Invariants.

(** ** A concrete installation

    The sizes are those of the module's defaults (Maxnode 20, Maxhost 20,
    Maxcontext 100) and of its usual field widths; no reconciler is
    registered.  The registries below are reached from the empty one by the
    scenarios of the specification. *)

Module Scenario.

Definition sizes : clustersize :=
  {| BALANCERSZ := 40; JVMROUTESZ := 64; DOMAINNDSZ := 20; HOSTNODESZ := 64;
     PORTNODESZ := 7; SCHEMENDSZ := 16; AJPSECRETSZ := 64; COOKNAMESZ := 30;
     PATHNAMESZ := 30; HOSTALIASZ := 255; CONTEXTSZ := 80;
     sizeof_host := 256; sizeof_context := 81 |}.

Definition conf : mod_manager_config :=
  {| balancername := None; enable_ws_tunnel := 0; ws_upgrade_header := None;
     ajp_secret := None; response_field_size := 0 |}.

(** a request at time 1000; the uninitialised [id] of [process_node_cmd]
    happens to hold 77 *)
Definition handle (method : mcmp_method) (uri buff : string) (st : registry)
  : registry * outcome :=
  manager_handler sizes conf None 1000 77 method (manager_trans_filename uri) buff st.

Definition tokens (buff : string) : list string := default [] (process_buff buff).

Definition row (st : registry) (k : Z) : nodeinfo :=
  default (stack_nodeinfo zero_mess) (slots (nodestatsmem st) !! k).

Definition fresh : registry := manager_init 20 20 100.

Definition config_node1 : string :=
  "JVMRoute=node1&Host=10.0.0.1&Port=8009&Type=ajp&Alias=example.com&Context=/app".
Definition config_node1_moved : string :=
  "JVMRoute=node1&Host=10.0.0.2&Port=8009&Type=ajp".
Definition app_node1 : string := "JVMRoute=node1&Alias=example.com&Context=/app".

(** scenario 1: node1 registered *)
Definition registered : registry := (handle CONFIG "/" config_node1 fresh).1.
(** scenario 4: the context of node1 enabled *)
Definition enabled : registry := (handle ENABLE_APP "/" app_node1 registered).1.

(** the requests of scenarios 1 and 4 *)
Definition history_enabled : list request :=
  [ {| rq_now := 1000; rq_uninit_id := 77; rq_method := CONFIG;
       rq_filename := manager_trans_filename "/"; rq_buff := config_node1 |};
    {| rq_now := 1000; rq_uninit_id := 77; rq_method := ENABLE_APP;
       rq_filename := manager_trans_filename "/"; rq_buff := app_node1 |} ].

Definition parsed_config (buff : string) : config_request :=
  match config_parse sizes conf (tokens buff) with
  | Go rq => rq
  | Stop _ =>
      {| cr_nodeinfo := process_config_node_defaults sizes conf;
         cr_balancerinfo := process_config_balancer_defaults sizes conf;
         cr_vhost := [] |}
  end.

Definition parsed_appl (buff : string) : appl_fields :=
  match appl_parse sizes (tokens buff) with
  | Go acc => acc
  | Stop _ => appl_defaults
  end.


Definition config_mixed_case_alias : string :=
  "JVMRoute=node1&Alias=Example.COM&Context=/app".
Definition app_mixed_case_alias : string :=
  "JVMRoute=node1&Alias=Example.COM&Context=/app".
Definition config_lt_after_empty : string := "JVMRoute=node1&Domain=&Host=<".
Definition config_encoded_lt_after_empty : string := "JVMRoute=node1&Domain=&Host=%3C".

End Scenario.

(** ** Further parts of [mod_manager.c]

    The version notification of the node table, the per-server
    configuration and its merge, the method check, PING, the sort of the
    status page and the commands of the status page. *)

Module Server.

(** *** The version notification of the node table *)

(** the conversion of an [apr_uint64_t] to an [unsigned] of 32 bits *)
Definition to_unsigned (v : Z) : Z := v mod 2 ^ 32.

(** [tableversion] is [mconf->tableversion], the version the calling
    process last stored; [unsigned last = get_version_node()] keeps the low
    32 bits of the counter *)
Definition loc_worker_nodes_need_update (tableversion : Z) (st : registry) : Z :=
  let size := loc_get_max_size_node st in
  if size =? 0 then 0
  else
    let last := to_unsigned (get_version_node st) in
    if negb (last =? tableversion) then last else 0.

(** [mconf->tableversion = last]: the [tableversion] it leaves *)
Definition loc_worker_nodes_are_updated (last : Z) : Z := last.

(** *** The per-server configuration *)

Definition DEFMAXCONTEXT : Z := 100.
Definition DEFMAXNODE : Z := 20.
Definition DEFMAXHOST : Z := 20.
Definition DEFMAXSESSIONID : Z := 0.

(** [struct mod_manager_config] with all its fields; a [char *] that may be
    [NULL] is an option *)
Record server_config : Type := Build_server_config {
  sc_basefilename : option string;
  sc_maxcontext : Z;
  sc_maxnode : Z;
  sc_maxhost : Z;
  sc_maxsessionid : Z;
  sc_tableversion : Z;
  sc_persistent : Z;
  sc_nonce : Z;
  sc_balancername : option string;
  sc_allow_display : Z;
  sc_allow_cmd : Z;
  sc_reduce_display : Z;
  sc_maxmesssize : Z;
  sc_enable_mcpm_receive : Z;
  sc_enable_ws_tunnel : Z;
  sc_ws_upgrade_header : option string;
  sc_ajp_secret : option string;
  sc_response_field_size : Z
}.

(** [apr_pcalloc] zeroes the structure: [maxmesssize] is not assigned *)
Definition create_manager_config : server_config :=
  {| sc_basefilename := None;
     sc_maxcontext := DEFMAXCONTEXT;
     sc_maxnode := DEFMAXNODE;
     sc_maxhost := DEFMAXHOST;
     sc_maxsessionid := DEFMAXSESSIONID;
     sc_tableversion := 0;
     sc_persistent := 0;
     sc_nonce := -1;
     sc_balancername := None;
     sc_allow_display := 0;
     sc_allow_cmd := -1;
     sc_reduce_display := 0;
     sc_maxmesssize := 0;
     sc_enable_mcpm_receive := 0;
     sc_enable_ws_tunnel := 0;
     sc_ws_upgrade_header := None;
     sc_ajp_secret := None;
     sc_response_field_size := 0 |}.

(** [if (m2->f != def) f = m2->f; else if (m1->f != def) f = m1->f;] over
    the value [created] of a fresh configuration *)
Definition merge_int (def created v1 v2 : Z) : Z :=
  if negb (v2 =? def) then v2 else if negb (v1 =? def) then v1 else created.

Definition merge_str (v1 v2 : option string) : option string :=
  match v2 with
  | Some s => Some s
  | None => match v1 with Some s => Some s | None => None end
  end.

Definition merge_manager_server_config (mconf1 mconf2 : server_config) : server_config :=
  let mconf := create_manager_config in
  {| sc_basefilename := merge_str (sc_basefilename mconf1) (sc_basefilename mconf2);
     sc_maxcontext :=
       merge_int DEFMAXCONTEXT (sc_maxcontext mconf) (sc_maxcontext mconf1) (sc_maxcontext mconf2);
     sc_maxnode := merge_int DEFMAXNODE (sc_maxnode mconf) (sc_maxnode mconf1) (sc_maxnode mconf2);
     sc_maxhost := merge_int DEFMAXHOST (sc_maxhost mconf) (sc_maxhost mconf1) (sc_maxhost mconf2);
     sc_maxsessionid :=
       merge_int DEFMAXSESSIONID (sc_maxsessionid mconf) (sc_maxsessionid mconf1)
         (sc_maxsessionid mconf2);
     sc_tableversion := sc_tableversion mconf;
     sc_persistent := merge_int 0 (sc_persistent mconf) (sc_persistent mconf1) (sc_persistent mconf2);
     sc_nonce := merge_int (-1) (sc_nonce mconf) (sc_nonce mconf1) (sc_nonce mconf2);
     sc_balancername := merge_str (sc_balancername mconf1) (sc_balancername mconf2);
     sc_allow_display :=
       merge_int 0 (sc_allow_display mconf) (sc_allow_display mconf1) (sc_allow_display mconf2);
     sc_allow_cmd := merge_int (-1) (sc_allow_cmd mconf) (sc_allow_cmd mconf1) (sc_allow_cmd mconf2);
     sc_reduce_display :=
       merge_int 0 (sc_reduce_display mconf) (sc_reduce_display mconf1) (sc_reduce_display mconf2);
     sc_maxmesssize := sc_maxmesssize mconf;
     sc_enable_mcpm_receive :=
       merge_int 0 (sc_enable_mcpm_receive mconf) (sc_enable_mcpm_receive mconf1)
         (sc_enable_mcpm_receive mconf2);
     sc_enable_ws_tunnel :=
       merge_int 0 (sc_enable_ws_tunnel mconf) (sc_enable_ws_tunnel mconf1)
         (sc_enable_ws_tunnel mconf2);
     sc_ws_upgrade_header := merge_str (sc_ws_upgrade_header mconf1) (sc_ws_upgrade_header mconf2);
     sc_ajp_secret := merge_str (sc_ajp_secret mconf1) (sc_ajp_secret mconf2);
     sc_response_field_size :=
       merge_int 0 (sc_response_field_size mconf) (sc_response_field_size mconf1)
         (sc_response_field_size mconf2) |}.

(** a configuration as a merge leaves the two fields it does not carry *)
Definition unmerged_cleared (c : server_config) : server_config :=
  {| sc_basefilename := sc_basefilename c;
     sc_maxcontext := sc_maxcontext c;
     sc_maxnode := sc_maxnode c;
     sc_maxhost := sc_maxhost c;
     sc_maxsessionid := sc_maxsessionid c;
     sc_tableversion := 0;
     sc_persistent := sc_persistent c;
     sc_nonce := sc_nonce c;
     sc_balancername := sc_balancername c;
     sc_allow_display := sc_allow_display c;
     sc_allow_cmd := sc_allow_cmd c;
     sc_reduce_display := sc_reduce_display c;
     sc_maxmesssize := 0;
     sc_enable_mcpm_receive := sc_enable_mcpm_receive c;
     sc_enable_ws_tunnel := sc_enable_ws_tunnel c;
     sc_ws_upgrade_header := sc_ws_upgrade_header c;
     sc_ajp_secret := sc_ajp_secret c;
     sc_response_field_size := sc_response_field_size c |}.

(** *** The methods *)

(** [check_method]: the chain of [strcasecmp] *)
Definition check_method (method : string) : bool :=
  if strcaseeq method "CONFIG" then true
  else if strcaseeq method "ENABLE-APP" then true
  else if strcaseeq method "DISABLE-APP" then true
  else if strcaseeq method "STOP-APP" then true
  else if strcaseeq method "REMOVE-APP" then true
  else if strcaseeq method "STATUS" then true
  else if strcaseeq method "DUMP" then true
  else if strcaseeq method "ERROR" then true
  else if strcaseeq method "INFO" then true
  else if strcaseeq method "PING" then true
  else if strcaseeq method "ADDID" then true
  else if strcaseeq method "REMOVEID" then true
  else if strcaseeq method "QUERY" then true
  else if strcaseeq method "VERSION" then true
  else false.

(** the branch of [manager_handler] a method takes *)
Inductive handler_branch : Type :=
  | Write (m : mcmp_method)
  | Status | Dump | Info | Ping | Version.

Definition manager_handler_branch (method : string) : handler_branch :=
  if strcaseeq method "CONFIG" then Write CONFIG
  else if strcaseeq method "ENABLE-APP" then Write ENABLE_APP
  else if strcaseeq method "DISABLE-APP" then Write DISABLE_APP
  else if strcaseeq method "STOP-APP" then Write STOP_APP
  else if strcaseeq method "REMOVE-APP" then Write REMOVE_APP
  else if strcaseeq method "STATUS" then Status
  else if strcaseeq method "DUMP" then Dump
  else if strcaseeq method "INFO" then Info
  else if strcaseeq method "PING" then Ping
  else if strcaseeq method "VERSION" then Version
  else Write UNSUPPORTED.

(** *** The on/off directives that a virtual host may carry *)

Definition set_sc_nonce (v : Z) (c : server_config) : server_config :=
  {| sc_basefilename := sc_basefilename c;
     sc_maxcontext := sc_maxcontext c;
     sc_maxnode := sc_maxnode c;
     sc_maxhost := sc_maxhost c;
     sc_maxsessionid := sc_maxsessionid c;
     sc_tableversion := sc_tableversion c;
     sc_persistent := sc_persistent c;
     sc_nonce := v;
     sc_balancername := sc_balancername c;
     sc_allow_display := sc_allow_display c;
     sc_allow_cmd := sc_allow_cmd c;
     sc_reduce_display := sc_reduce_display c;
     sc_maxmesssize := sc_maxmesssize c;
     sc_enable_mcpm_receive := sc_enable_mcpm_receive c;
     sc_enable_ws_tunnel := sc_enable_ws_tunnel c;
     sc_ws_upgrade_header := sc_ws_upgrade_header c;
     sc_ajp_secret := sc_ajp_secret c;
     sc_response_field_size := sc_response_field_size c |}.

Definition set_sc_allow_display (v : Z) (c : server_config) : server_config :=
  {| sc_basefilename := sc_basefilename c;
     sc_maxcontext := sc_maxcontext c;
     sc_maxnode := sc_maxnode c;
     sc_maxhost := sc_maxhost c;
     sc_maxsessionid := sc_maxsessionid c;
     sc_tableversion := sc_tableversion c;
     sc_persistent := sc_persistent c;
     sc_nonce := sc_nonce c;
     sc_balancername := sc_balancername c;
     sc_allow_display := v;
     sc_allow_cmd := sc_allow_cmd c;
     sc_reduce_display := sc_reduce_display c;
     sc_maxmesssize := sc_maxmesssize c;
     sc_enable_mcpm_receive := sc_enable_mcpm_receive c;
     sc_enable_ws_tunnel := sc_enable_ws_tunnel c;
     sc_ws_upgrade_header := sc_ws_upgrade_header c;
     sc_ajp_secret := sc_ajp_secret c;
     sc_response_field_size := sc_response_field_size c |}.

Definition set_sc_allow_cmd (v : Z) (c : server_config) : server_config :=
  {| sc_basefilename := sc_basefilename c;
     sc_maxcontext := sc_maxcontext c;
     sc_maxnode := sc_maxnode c;
     sc_maxhost := sc_maxhost c;
     sc_maxsessionid := sc_maxsessionid c;
     sc_tableversion := sc_tableversion c;
     sc_persistent := sc_persistent c;
     sc_nonce := sc_nonce c;
     sc_balancername := sc_balancername c;
     sc_allow_display := sc_allow_display c;
     sc_allow_cmd := v;
     sc_reduce_display := sc_reduce_display c;
     sc_maxmesssize := sc_maxmesssize c;
     sc_enable_mcpm_receive := sc_enable_mcpm_receive c;
     sc_enable_ws_tunnel := sc_enable_ws_tunnel c;
     sc_ws_upgrade_header := sc_ws_upgrade_header c;
     sc_ajp_secret := sc_ajp_secret c;
     sc_response_field_size := sc_response_field_size c |}.

Definition set_sc_reduce_display (v : Z) (c : server_config) : server_config :=
  {| sc_basefilename := sc_basefilename c;
     sc_maxcontext := sc_maxcontext c;
     sc_maxnode := sc_maxnode c;
     sc_maxhost := sc_maxhost c;
     sc_maxsessionid := sc_maxsessionid c;
     sc_tableversion := sc_tableversion c;
     sc_persistent := sc_persistent c;
     sc_nonce := sc_nonce c;
     sc_balancername := sc_balancername c;
     sc_allow_display := sc_allow_display c;
     sc_allow_cmd := sc_allow_cmd c;
     sc_reduce_display := v;
     sc_maxmesssize := sc_maxmesssize c;
     sc_enable_mcpm_receive := sc_enable_mcpm_receive c;
     sc_enable_ws_tunnel := sc_enable_ws_tunnel c;
     sc_ws_upgrade_header := sc_ws_upgrade_header c;
     sc_ajp_secret := sc_ajp_secret c;
     sc_response_field_size := sc_response_field_size c |}.

(** a directive returns [NULL] or an error message, and leaves the
    configuration it was given or a changed one *)
Definition directive (set : Z -> server_config -> server_config) (off on : Z)
    (err arg : string) (mconf : server_config) : server_config * option string :=
  if strcaseeq arg "Off" then (set off mconf, None)
  else if strcaseeq arg "On" then (set on mconf, None)
  else (mconf, Some err).

Definition cmd_manager_nonce : string -> server_config -> server_config * option string :=
  directive set_sc_nonce 0 (-1) "CheckNonce must be one of: off | on".

Definition cmd_manager_allow_display : string -> server_config -> server_config * option string :=
  directive set_sc_allow_display 0 (-1) "AllowDisplay must be one of: off | on".

Definition cmd_manager_allow_cmd : string -> server_config -> server_config * option string :=
  directive set_sc_allow_cmd 0 (-1) "AllowCmd must be one of: off | on".

Definition cmd_manager_reduce_display : string -> server_config -> server_config * option string :=
  directive set_sc_reduce_display 0 1 "ReduceDisplay must be one of: off | on".

(** *** STATUS *)



Section Status.
Variable sz : clustersize.
(** the indeterminate content of the local [nodeinfo_t nodeinfo] *)
Variable uninit_nodeinfo : nodeinfo.



End Status.

(** *** PING *)

(** the messages of [process_ping]; [SBADFLD] carries the field *)
Inductive ping_error : Type :=
  | PING_SROUBIG | PING_SBADFLD (field : string) | PING_SMISFLD | PING_MNODERD (route : string).

(** how [process_ping] ends: [Pong] is the return of [NULL] (the State it
    prints is part of the body), [PingUndefined] a read through [NULL] or
    past the token array *)
Inductive ping_reply : Type :=
  | Pong
  | PingError (errstring : ping_error) (errtype : Z)
  | PingUndefined.

Record ping_fields : Type := Build_ping_fields {
  pf_nodeinfo : nodeinfo;
  pf_scheme : option string;
  pf_host : option string;
  pf_port : option string
}.

Section Ping.
Variable sz : clustersize.
(** the indeterminate content of the local [nodeinfo_t nodeinfo] *)
Variable uninit_nodeinfo : nodeinfo.

(** one pass of the body of the loop; [apr_pstrdup] of [NULL] is [NULL] *)
Definition ping_pair (key : string) (val : option string) (acc : ping_fields)
  : ping_fields + ping_reply :=
  if strcaseeq key "JVMRoute" then
    match val with
    | None => inr PingUndefined
    | Some v =>
        if too_big v (JVMROUTESZ sz) then inr (PingError PING_SROUBIG TYPESYNTAX)
        else
          inl {| pf_nodeinfo :=
                   on_mess (set_mess_id 0) (on_mess (set_mess_JVMRoute v) (pf_nodeinfo acc));
                 pf_scheme := pf_scheme acc; pf_host := pf_host acc; pf_port := pf_port acc |}
    end
  else if strcaseeq key "Scheme" then
    inl {| pf_nodeinfo := pf_nodeinfo acc;
           pf_scheme := val; pf_host := pf_host acc; pf_port := pf_port acc |}
  else if strcaseeq key "Host" then
    inl {| pf_nodeinfo := pf_nodeinfo acc;
           pf_scheme := pf_scheme acc; pf_host := val; pf_port := pf_port acc |}
  else if strcaseeq key "Port" then
    inl {| pf_nodeinfo := pf_nodeinfo acc;
           pf_scheme := pf_scheme acc; pf_host := pf_host acc; pf_port := val |}
  else inr (PingError (PING_SBADFLD key) TYPESYNTAX).

(** [while (ptr[i] && ptr[i][0] != 0) { ... i++; i++; }] *)
Fixpoint ping_loop (ptr : list string) (acc : ping_fields) : ping_fields + ping_reply :=
  match ptr with
  | [] => inl acc
  | key :: rest =>
      if streq key EmptyString then inl acc
      else
        match ping_pair key (head rest) acc with
        | inr r => inr r
        | inl acc =>
            match rest with
            | [] => inr PingUndefined
            | _ :: rest' => ping_loop rest' acc
            end
        end
  end.

Definition process_ping (ptr : list string) (s : mem nodeinfo) : ping_reply :=
  let start :=
    {| pf_nodeinfo := on_mess (set_mess_id (-1)) uninit_nodeinfo;
       pf_scheme := None; pf_host := None; pf_port := None |} in
  match ping_loop ptr start with
  | inr r => r
  | inl acc =>
      if mess_id (mess (pf_nodeinfo acc)) =? -1 then
        match pf_scheme acc, pf_host acc, pf_port acc with
        | None, None, None => Pong
        | Some _, Some _, Some _ => Pong
        | _, _, _ => PingError PING_SMISFLD TYPESYNTAX
        end
      else
        match read_node s (pf_nodeinfo acc) with
        | None => PingError (PING_MNODERD (mess_JVMRoute (mess (pf_nodeinfo acc)))) TYPEMEM
        | Some _ => Pong
        end
  end.
End Ping.

(** the token array of a list of fields *)
Definition field_tokens (fields : list (string * string)) : list string :=
  fields ≫= (fun kv => [kv.1; kv.2]).

(** is the field [name] among [fields]? *)
Definition has_field (name : string) (fields : list (string * string)) : bool :=
  existsb (fun kv => strcaseeq kv.1 name) fields.

Definition address_field (key : string) : Prop :=
  strcaseeq key "Scheme" = true \/ strcaseeq key "Host" = true \/ strcaseeq key "Port" = true.

(** *** [sort_nodes] *)

(** [strcmp]: the difference of the first two characters that differ, as
    unsigned bytes; a NUL ends either string *)
Fixpoint strcmp (a b : string) : Z :=
  match a, b with
  | EmptyString, EmptyString => 0
  | EmptyString, String d _ => 0 - code d
  | String c _, EmptyString => code c - 0
  | String c a', String d b' =>
      if code c =? code d then (if code c =? 0 then 0 else strcmp a' b')
      else code c - code d
  end.

(** [strcmp(x.mess.Domain, y.mess.Domain) > 0] *)
Definition domain_after (x y : nodeinfo) : bool :=
  0 <? strcmp (mess_Domain (mess x)) (mess_Domain (mess y)).

(** the [for] loop from the position of [x]: [x] is [nodes[i]], [rest] the
    rows after it; the boolean is [changed] *)
Fixpoint sort_pass (x : nodeinfo) (rest : list nodeinfo) : list nodeinfo * bool :=
  match rest with
  | [] => ([x], false)
  | y :: rest' =>
      if domain_after x y then
        let '(r, _) := sort_pass x rest' in (y :: r, true)
      else
        let '(r, changed) := sort_pass y rest' in (x :: r, changed)
  end.

(** [while (changed)], for at most [passes] passes *)
Fixpoint sort_loop (passes : nat) (nodes : list nodeinfo) : option (list nodeinfo) :=
  match passes with
  | O => None
  | S passes' =>
      match nodes with
      | [] => Some nodes
      | x :: rest =>
          let '(r, changed) := sort_pass x rest in
          if changed then sort_loop passes' r else Some r
      end
  end.

Definition sort_nodes (passes : nat) (nodes : list nodeinfo) : option (list nodeinfo) :=
  if Z.of_nat (length nodes) <=? 1 then Some nodes else sort_loop passes nodes.

(** the pairs of rows that are out of order *)
Fixpoint after_count (x : nodeinfo) (l : list nodeinfo) : nat :=
  match l with
  | [] => O
  | y :: l' => ((if domain_after x y then 1 else 0) + after_count x l')%nat
  end.

Fixpoint inversions (l : list nodeinfo) : nat :=
  match l with
  | [] => O
  | x :: l' => (after_count x l' + inversions l')%nat
  end.

Definition domain_le (x y : nodeinfo) : Prop :=
  strcmp (mess_Domain (mess x)) (mess_Domain (mess y)) <= 0.

(** *** The commands of the status page: [manager_info] and [process_domain] *)

Definition RANGECONTEXT : Z := 0.
Definition RANGENODE : Z := 1.
Definition RANGEDOMAIN : Z := 2.

(** an [apr_table_t]: its entries in order *)
Definition apr_table : Type := list (string * string).

(** [apr_table_get]: the value of the first entry with that key, keys
    compared without case *)
Definition apr_table_get (t : apr_table) (key : string) : option string :=
  snd <$> List.find (fun kv => strcaseeq kv.1 key) t.

Section Info.
Variable sz : clustersize.
Variable conf : server_config.
(** the nonce of this server *)
Variable balancer_nonce : string.
Variable now : Z.
Variable uninit_id : Z.

(** what a call leaves in [errstring] and [*errtype]: a callee that
    returns a message without a type leaves the type as it was *)
Definition note_result (o : outcome) (errtype : Z) : option errmsg * Z :=
  match o with
  | Returned (Some e) t => (Some e, if t =? 0 then errtype else t)
  | _ => (None, errtype)
  end.

(** the token array [process_domain] hands to the command: the pairs of
    [ptr], then JVMRoute and the route of the node *)
Definition domain_ptr (ptr : list string) (route : string) : list string :=
  take (2 * (length ptr / 2)) ptr ++ ["JVMRoute"%string; route].

Definition domain_command (cmd : string) (ptr : list string) (st : registry)
  : option (registry * outcome) :=
  if strcaseeq cmd "ENABLE-APP" then Some (process_enable sz now uninit_id ptr RANGENODE st)
  else if strcaseeq cmd "DISABLE-APP" then Some (process_disable sz now uninit_id ptr RANGENODE st)
  else if strcaseeq cmd "STOP-APP" then Some (process_stop sz now uninit_id ptr RANGENODE st)
  else if strcaseeq cmd "REMOVE-APP" then Some (process_remove sz now uninit_id ptr RANGENODE st)
  else None.

(** the loop over the snapshot [ids] of the used node ids; [errstring] and
    [errtype] are the two variables the calls write *)
Fixpoint domain_loop (cmd : string) (domain : option string) (ptr : list string)
    (ids : list Z) (errstring : option errmsg) (errtype : Z) (st : registry)
  : registry * outcome :=
  match ids with
  | [] => (st, Returned errstring errtype)
  | i :: ids' =>
      match get_node (nodestatsmem st) i with
      | None => domain_loop cmd domain ptr ids' errstring errtype st
      | Some ou =>
          match domain with
          | None => (st, Undefined)
          | Some d =>
              if negb (streq (mess_Domain (mess ou)) d)
              then domain_loop cmd domain ptr ids' errstring errtype st
              else
                match domain_command cmd (domain_ptr ptr (mess_JVMRoute (mess ou))) st with
                | None => domain_loop cmd domain ptr ids' errstring errtype st
                | Some (st', Returned e t) =>
                    let '(errstring, errtype) := note_result (Returned e t) errtype in
                    domain_loop cmd domain ptr ids' errstring errtype st'
                | Some (st', o) => (st', o)
                end
          end
      end
  end.

Definition process_domain (ptr : list string) (cmd : string) (domain : option string)
    (st : registry) : registry * outcome :=
  if loc_get_max_size_node st =? 0 then (st, Returned None 0)
  else domain_loop cmd domain ptr (ids_used (nodestatsmem st)) None 0 st.

(** the parameters after the nonce check *)
Definition checked_params (params : apr_table) : apr_table :=
  if negb (sc_nonce conf =? 0)
     && match apr_table_get params "nonce" with
        | None => true
        | Some name => negb (streq balancer_nonce name)
        end
  then []
  else params.

(** [manager_info] from the nonce check to the end of "process the
    parameters", for a request with arguments whose parsed table is
    [params]: the registry it leaves and the error it reports, if any.  DUMP
    and INFO print and return. *)
Definition manager_info_command (params : apr_table) (st : registry) : registry * outcome :=
  let params := checked_params params in
  let cmd := apr_table_get params "Cmd" in
  let typ := apr_table_get params "Range" in
  let domain := apr_table_get params "Domain" in
  match cmd with
  | None => (st, Returned None 0)
  | Some cmd =>
      if strcaseeq cmd "DUMP" then (st, Returned None 0)
      else if strcaseeq cmd "INFO" then (st, Returned None 0)
      else
        match typ with
        | None => (st, Returned None 0)
        | Some typ =>
            if sc_allow_cmd conf =? 0 then (st, Returned None 0)
            else
              let global :=
                if strcaseeq typ "NODE" then RANGENODE
                else if strcaseeq typ "DOMAIN" then RANGEDOMAIN
                else RANGECONTEXT in
              let ptr := field_tokens params in
              if global =? RANGEDOMAIN then process_domain ptr cmd domain st
              else if strcaseeq cmd "ENABLE-APP" then process_enable sz now uninit_id ptr global st
              else if strcaseeq cmd "DISABLE-APP" then process_disable sz now uninit_id ptr global st
              else if strcaseeq cmd "STOP-APP" then process_stop sz now uninit_id ptr global st
              else if strcaseeq cmd "REMOVE-APP" then process_remove sz now uninit_id ptr global st
              else (st, Returned (Some SCMDUNS) TYPESYNTAX)
        end
  end.
End Info.

End Server.
Import Server.

(** ** Further notions the properties speak of *)

Module Notions.

(** a command that did not end by returning [NULL] *)
Definition failure (o : outcome) : Prop :=
  match o with
  | Returned None _ => False
  | _ => True
  end.



(** the aliases and contexts of every group are short enough to be stored
    whole *)
Definition groups_fit (sz : clustersize) (vhost : list cluster_host) : Prop :=
  Forall
    (fun phost =>
       Forall (fun a => strlen a <= HOSTALIASZ sz)
         (split_commas (default EmptyString (ch_host phost)))
       /\ Forall (fun p => strlen p <= sizeof_context sz)
            (split_commas (default "/"%string (ch_context phost))))
    vhost.


(** [s'] is [s] with the status of some rows that satisfy [P] set *)
Definition status_set_within (P : contextinfo -> Prop) (status : Z)
    (s s' : mem contextinfo) : Prop :=
  max_size s' = max_size s
  /\ forall j,
       slots s' !! j = slots s !! j
       \/ exists c,
            slots s !! j = Some c /\ P c
            /\ slots s' !! j = Some (set_ctx_status status c).

(** the context row hangs under the host row *)
Definition under_host (ou : hostinfo) (c : contextinfo) : Prop :=
  ctx_vhost c = host_vhost ou /\ ctx_node c = host_node ou.

(** every string of the node is shorter than the field of [nodemess_t] it
    goes to, so that the terminating NUL has room *)
Definition node_fields_fit (sz : clustersize) (n : nodeinfo) : Prop :=
  strlen (mess_balancer (mess n)) < BALANCERSZ sz
  /\ strlen (mess_JVMRoute (mess n)) < JVMROUTESZ sz
  /\ strlen (mess_Domain (mess n)) < DOMAINNDSZ sz
  /\ strlen (mess_Host (mess n)) < HOSTNODESZ sz
  /\ strlen (mess_Port (mess n)) < PORTNODESZ sz
  /\ strlen (mess_Type (mess n)) < SCHEMENDSZ sz
  /\ strlen (mess_Upgrade (mess n)) < SCHEMENDSZ sz
  /\ strlen (mess_AJPSecret (mess n)) < AJPSECRETSZ sz.

Definition balancer_fields_fit (sz : clustersize) (b : balancerinfo) : Prop :=
  strlen (bal_balancer b) < BALANCERSZ sz
  /\ strlen (bal_StickySessionCookie b) < COOKNAMESZ sz
  /\ strlen (bal_StickySessionPath b) < PATHNAMESZ sz.

(** the sizes leave room for the defaults that the code copies with
    [strcpy] *)
Definition defaults_fit (sz : clustersize) : Prop :=
  9 < BALANCERSZ sz /\ 0 < JVMROUTESZ sz /\ 0 < DOMAINNDSZ sz /\ 9 < HOSTNODESZ sz
  /\ 4 < PORTNODESZ sz /\ 9 < SCHEMENDSZ sz /\ 0 < AJPSECRETSZ sz
  /\ 10 < COOKNAMESZ sz /\ 10 < PATHNAMESZ sz.

(** the fields of the balancer and of the node gathered so far fit *)
Definition fields_fit (sz : clustersize) (b : balancerinfo) (n : nodeinfo) : Prop :=
  balancer_fields_fit sz b /\ node_fields_fit sz n.

Definition config_keys : list string :=
  [ "Balancer"; "StickySession"; "StickySessionCookie"; "StickySessionPath";
    "StickySessionRemove"; "StickySessionForce"; "WaitWorker"; "Maxattempts";
    "JVMRoute"; "Domain"; "Host"; "Port"; "Type"; "Reversed"; "flushpackets";
    "flushwait"; "ping"; "smax"; "ttl"; "Timeout"; "Alias"; "Context" ]%string.

Definition unknown_key (keys : list string) (key : string) : Prop :=
  Forall (fun name => strcaseeq key name = false) keys.

(** the body without its ['&'] and ['='] *)
Fixpoint without_separators (s : string) : string :=
  match s with
  | EmptyString => EmptyString
  | String c s' =>
      if is_separator c then without_separators s' else String c (without_separators s')
  end.

(** does the string hold the character? *)
Fixpoint holds (ch : ascii) (s : string) : bool :=
  match s with
  | EmptyString => false
  | String c s' => Ascii.eqb c ch || holds ch s'
  end.

(** the capacities of the four tables *)
Definition capacity (st : registry) : Z * Z * Z * Z :=
  (max_size (nodestatsmem st), max_size (hoststatsmem st),
   max_size (contextstatsmem st), max_size (balancerstatsmem st)).

(** the indeterminate [id] of [process_node_cmd] names no slot of a node
    table of [size] slots and is not -1 *)
Definition id_names_no_slot (size : Z) (r : request) : Prop :=
  rq_uninit_id r <> -1 /\ ~ 0 <= rq_uninit_id r < size.

(** these notions can be decided on given data *)
#[global] Instance hosts_cover_contexts_dec st : Decision (hosts_cover_contexts st).
Proof. unfold hosts_cover_contexts. apply _. Defined.

#[global] Instance registry_invariant_dec st : Decision (registry_invariant st).
Proof. unfold registry_invariant. apply _. Defined.

#[global] Instance groups_fit_dec sz vhost : Decision (groups_fit sz vhost).
Proof. unfold groups_fit. apply _. Defined.

#[global] Instance defaults_fit_dec sz : Decision (defaults_fit sz).
Proof. unfold defaults_fit. apply _. Defined.

#[global] Instance unknown_key_dec keys key : Decision (unknown_key keys key).
Proof. unfold unknown_key. apply _. Defined.

#[global] Instance id_names_no_slot_dec size r : Decision (id_names_no_slot size r).
Proof. unfold id_names_no_slot. apply _. Defined.

#[global] Instance address_field_dec key : Decision (address_field key).
Proof. unfold address_field. apply _. Defined.

End Notions.
Import Notions.

(** ** Further data of the concrete installation *)

Module Examples.

(** a server of the defaults but without the nonce check *)
Definition open_conf : server_config :=
  {| sc_basefilename := None;
     sc_maxcontext := DEFMAXCONTEXT;
     sc_maxnode := DEFMAXNODE;
     sc_maxhost := DEFMAXHOST;
     sc_maxsessionid := DEFMAXSESSIONID;
     sc_tableversion := 0;
     sc_persistent := 0;
     sc_nonce := 0;
     sc_balancername := None;
     sc_allow_display := 0;
     sc_allow_cmd := -1;
     sc_reduce_display := 0;
     sc_maxmesssize := 0;
     sc_enable_mcpm_receive := 1;
     sc_enable_ws_tunnel := 0;
     sc_ws_upgrade_header := None;
     sc_ajp_secret := None;
     sc_response_field_size := 0 |}.

Definition server_nonce : string := "f5e1a4b2-0c3d-4e6f-8a9b-1c2d3e4f5a6b".

(** the parameters of "Disable" on the node line of the status page *)
Definition page_disable_node1 : apr_table :=
  [ ("Cmd", "DISABLE-APP"); ("Range", "NODE"); ("JVMRoute", "node1") ]%string.


(** a CONFIG with a field of its own between two known ones *)
Definition config_before_color : list string := [ "JVMRoute"; "node1" ]%string.
Definition config_after_color : list string := [ "Host"; "10.0.0.1" ]%string.

(** a PING for an address without its Host and Port *)
Definition ping_scheme_only : list (string * string) := [ ("Scheme", "ajp") ]%string.

End Examples.

(** ** Facts about the slot tables *)

Section TableFacts.
Context {A : Type}.
Implicit Types (s : mem A) (k : Z).

Lemma used_true s k : used s k = true <-> is_Some (slots s !! k).
Proof.
  unfold used. destruct (slots s !! k) eqn:E.
  - split; [eauto | done].
  - split; [done | intros [? ?]; done].
Qed.

Lemma used_false s k : used s k = false <-> slots s !! k = None.
Proof. unfold used. destruct (slots s !! k); split; intros H; done. Qed.

Lemma elem_of_all_slots s k : k ∈ all_slots s <-> 0 <= k < max_size s.
Proof. unfold all_slots. rewrite elem_of_seqZ. lia. Qed.

Lemma elem_of_ids_used s k :
  k ∈ ids_used s <-> is_Some (slots s !! k) /\ 0 <= k < max_size s.
Proof.
  unfold ids_used. rewrite list_elem_of_In, filter_In, <- list_elem_of_In.
  rewrite elem_of_all_slots, used_true. tauto.
Qed.

Lemma wf_mem_lookup (idf : A -> Z) s k r :
  wf_mem idf s -> slots s !! k = Some r -> idf r = k /\ 0 <= k < max_size s.
Proof. intros Hwf Hk. exact (Hwf k r Hk). Qed.

Lemma wf_mem_ids_used (idf : A -> Z) s k r :
  wf_mem idf s -> slots s !! k = Some r -> k ∈ ids_used s.
Proof.
  intros Hwf Hk. apply elem_of_ids_used. split; [eauto |].
  by destruct (Hwf k r Hk).
Qed.

Lemma wf_mem_release (idf : A -> Z) s k : wf_mem idf s -> wf_mem idf (release k s).
Proof.
  intros Hwf j r Hj. simpl in Hj.
  apply lookup_delete_Some in Hj as [_ Hj]. exact (Hwf j r Hj).
Qed.

Lemma first_match_Some (p : A -> bool) s ids k :
  first_match p s ids = Some k ->
  k ∈ ids /\ exists x, slots s !! k = Some x /\ p x = true.
Proof.
  induction ids as [|i ids IH]; simpl; [done |].
  destruct (slots s !! i) as [x|] eqn:Hi.
  - destruct (p x) eqn:Hp.
    + intros [= <-]. split; [left | eauto].
    + intros H. destruct (IH H) as [? ?]. split; [by right | done].
  - intros H. destruct (IH H) as [? ?]. split; [by right | done].
Qed.

Lemma first_match_None (p : A -> bool) s ids k x :
  first_match p s ids = None -> k ∈ ids -> slots s !! k = Some x -> p x = false.
Proof.
  induction ids as [|i ids IH]; simpl; intros Hf Hin Hk.
  - by apply elem_of_nil in Hin.
  - apply elem_of_cons in Hin as [-> | Hin].
    + rewrite Hk in Hf. by destruct (p x).
    + destruct (slots s !! i) as [y|]; [destruct (p y); [done |] |]; eauto.
Qed.


Lemma find_slot_Some (p : A -> bool) s k :
  find_slot p s = Some k ->
  0 <= k < max_size s /\ exists x, slots s !! k = Some x /\ p x = true.
Proof.
  intros H. apply first_match_Some in H as [Hin ?].
  apply elem_of_ids_used in Hin as [_ ?]. done.
Qed.

Lemma find_slot_None (idf : A -> Z) (p : A -> bool) s k x :
  wf_mem idf s -> find_slot p s = None -> slots s !! k = Some x -> p x = false.
Proof.
  intros Hwf Hf Hk. eapply first_match_None; [done | | done].
  by eapply wf_mem_ids_used.
Qed.

Lemma grab_Some s k : grab s = Some k -> slots s !! k = None /\ 0 <= k < max_size s.
Proof.
  unfold grab. intros H. apply find_some in H as [Hin Hu].
  apply list_elem_of_In, elem_of_all_slots in Hin.
  apply negb_true_iff, used_false in Hu. done.
Qed.

(** the removal loops only remove *)
Lemma remove_matching_subseteq (p : A -> bool) (idf : A -> Z) ids s k x :
  slots (remove_matching p idf ids s) !! k = Some x -> slots s !! k = Some x.
Proof.
  revert s. induction ids as [|i ids IH]; intros s; simpl; [done |].
  destruct (slots s !! i) as [ou|]; [| by apply IH].
  intros H. apply IH in H. destruct (p ou); [| done].
  simpl in H. by apply lookup_delete_Some in H as [_ H].
Qed.

Lemma remove_matching_max_size (p : A -> bool) (idf : A -> Z) ids s :
  max_size (remove_matching p idf ids s) = max_size s.
Proof.
  revert s. induction ids as [|i ids IH]; intros s; simpl; [done |].
  destruct (slots s !! i) as [ou|]; [| by apply IH].
  rewrite IH. by destruct (p ou).
Qed.

(** what a removal loop leaves, among the ids it visits, does not match *)
Lemma remove_matching_visited (p : A -> bool) (idf : A -> Z) ids s k x :
  wf_mem idf s -> k ∈ ids ->
  slots (remove_matching p idf ids s) !! k = Some x -> p x = false.
Proof.
  revert s. induction ids as [|i ids IH]; intros s Hwf Hin; simpl.
  - by apply elem_of_nil in Hin.
  - destruct (slots s !! i) as [ou|] eqn:Hi.
    + destruct (decide (k = i)) as [-> | Hne].
      * intros H. apply remove_matching_subseteq in H.
        destruct (p ou) eqn:Hp.
        -- destruct (wf_mem_lookup idf s i ou Hwf Hi) as [Hid _].
           rewrite Hid in H. simpl in H. by rewrite lookup_delete_eq in H.
        -- congruence.
      * apply elem_of_cons in Hin as [? | Hin]; [done |].
        apply IH; [| done]. destruct (p ou); [by apply wf_mem_release | done].
    + apply elem_of_cons in Hin as [-> | Hin]; [| by apply IH].
      intros H. apply remove_matching_subseteq in H. congruence.
Qed.

(** a removal loop over all the used ids leaves no matching row *)
Lemma remove_matching_all (p : A -> bool) (idf : A -> Z) s k x :
  wf_mem idf s ->
  slots (remove_matching p idf (ids_used s) s) !! k = Some x -> p x = false.
Proof.
  intros Hwf H. eapply remove_matching_visited; [done | | done].
  eapply wf_mem_ids_used; [done |]. by eapply remove_matching_subseteq.
Qed.

Lemma wf_mem_remove_matching (p : A -> bool) (idf : A -> Z) ids s :
  wf_mem idf s -> wf_mem idf (remove_matching p idf ids s).
Proof.
  intros Hwf k x Hk. rewrite remove_matching_max_size.
  apply remove_matching_subseteq in Hk. exact (Hwf k x Hk).
Qed.
End TableFacts.

(** ** Room in a table *)

Section Room.
Context {A : Type}.
Implicit Types (s : mem A) (k : Z).





End Room.

(** ** Facts about the commands *)

Section CommandFacts.
Context (sz : clustersize) (mconf : mod_manager_config).
Context (balancerhandler : option balancer_method) (now uninit_id : Z).

Lemma streq_true a b : streq a b = true <-> a = b.
Proof. apply String.eqb_eq. Qed.

Lemma streq_false a b : streq a b = false <-> a <> b.
Proof. apply String.eqb_neq. Qed.

Lemma is_same_node_cases a b : is_same_node a b = 0 \/ is_same_node a b = -1.
Proof. unfold is_same_node. repeat case_match; auto. Qed.

(** [is_same_node] answers 0 exactly when the two nodes differ in one of
    the seven identity fields *)
Lemma is_same_node_0 a b : is_same_node a b = 0 <-> ~ identity_equivalent a b.
Proof.
  unfold is_same_node, identity_equivalent, streq.
  destruct (String.eqb_spec (mess_balancer (mess a)) (mess_balancer (mess b)));
    simpl; [| tauto].
  destruct (String.eqb_spec (mess_Host (mess a)) (mess_Host (mess b))); simpl; [| tauto].
  destruct (String.eqb_spec (mess_Port (mess a)) (mess_Port (mess b))); simpl; [| tauto].
  destruct (String.eqb_spec (mess_Type (mess a)) (mess_Type (mess b))); simpl; [| tauto].
  destruct (Z.eqb_spec (mess_reversed (mess a)) (mess_reversed (mess b))); simpl; [| tauto].
  destruct (Z.eqb_spec (mess_smax (mess a)) (mess_smax (mess b))); simpl; [| tauto].
  destruct (Z.eqb_spec (mess_ttl (mess a)) (mess_ttl (mess b))); simpl; [| tauto].
  split; [done | tauto].
Qed.

Lemma is_same_node_sym a b : is_same_node a b = is_same_node b a.
Proof.
  destruct (is_same_node_cases a b) as [H | H], (is_same_node_cases b a) as [H' | H'];
    rewrite H, H'; try done.
  - apply is_same_node_0 in H. exfalso. apply H.
    destruct (decide (is_same_node b a = 0)) as [E | E]; [congruence |].
    assert (~ ~ identity_equivalent b a) as Hnn by (intros Hn; by apply is_same_node_0 in Hn).
    unfold identity_equivalent in *.
    repeat split; apply dec_stable; intros Hne; apply Hnn; intros Hi; apply Hne; symmetry; tauto.
  - apply is_same_node_0 in H'. exfalso. apply H'.
    assert (~ ~ identity_equivalent a b) as Hnn
      by (intros Hn; apply is_same_node_0 in Hn; congruence).
    unfold identity_equivalent in *.
    repeat split; apply dec_stable; intros Hne; apply Hnn; intros Hi; apply Hne; symmetry; tauto.
Qed.

(** *** The cascade *)



Lemma wf_registry_host_room st k old :
  wf_registry st -> slots (nodestatsmem st) !! k = Some old ->
  max_size (hoststatsmem st) <> 0.
Proof.
  intros (Hn & _ & _ & Hnh & _) Hk.
  destruct (Hn k old Hk) as [_ ?]. lia.
Qed.



(** *** What the *-APP commands leave alone *)

Lemma node_cmd_hosts_frame status nid ids st :
  let st' := node_cmd_hosts status nid ids st in
  version st' = version st
  /\ nodestatsmem st' = nodestatsmem st
  /\ balancerstatsmem st' = balancerstatsmem st.
Proof.
  revert st. induction ids as [|i ids IH]; intros st; simpl; [done |].
  destruct (get_host (hoststatsmem st) i) as [ou|]; [| apply IH].
  destruct (negb (host_node ou =? nid)); [apply IH |].
  match goal with |- context [node_cmd_hosts _ _ _ ?x] => destruct (IH x) as (-> & -> & ->) end.
  by destruct (status =? REMOVE).
Qed.

Lemma process_node_cmd_version status k st :
  version (process_node_cmd now uninit_id status k st) = version st.
Proof.
  unfold process_node_cmd.
  destruct (loc_get_max_size_host st =? 0); [done |].
  destruct (slots (nodestatsmem st) !! k) as [n|]; [| done].
  destruct (node_cmd_hosts_frame status (mess_id (mess n)) (ids_used (hoststatsmem st)) st)
    as (Hv & _ & _).
  by destruct (status =? REMOVE).
Qed.

Lemma appl_find_host_version status route node vhost st :
  version (appl_find_host sz status route node vhost st).1 = version st.
Proof.
  unfold appl_find_host.
  repeat (case_match; simpl; try done).
Qed.

Lemma appl_context_scope_version status route node vhost st :
  version (appl_context_scope sz status route node vhost st).1 = version st.
Proof.
  unfold appl_context_scope, andthen.
  pose proof (appl_find_host_version status route node vhost st) as Hf.
  destruct (appl_find_host sz status route node vhost st) as [st1 [host|o]]; simpl in *;
    [| done].
  destruct (host ≫= get_host (hoststatsmem st1)) as [h|]; [| done].
  destruct (appl_enable_check status vhost st1); [| done].
  destruct (insert_update_contexts _ _ _ _ _ _) as [cs ok].
  unfold appl_remove_host.
  repeat (case_match; simpl; try done).
Qed.

(** C10. An ENABLE-APP, DISABLE-APP, STOP-APP or REMOVE-APP whose fields
    pass the checks and whose JVMRoute is that of a row not marked removed
    leaves the version counter exactly one higher (modulo 2^64), whatever
    the command then does and however it ends: no change at all, a MEM
    error, or the end of the process. *)
Theorem C10_appl_cmd_bumps_version_once ptr status global st acc k node :
  appl_parse sz ptr = Go acc ->
  read_node (nodestatsmem st) (af_nodeinfo acc) = Some k ->
  slots (nodestatsmem st) !! k = Some node ->
  mess_remove (mess node) = 0 ->
  version (process_appl_cmd sz now uninit_id ptr status global st).1
  = (version st + 1) mod 2 ^ 64.
Proof.
  intros Hparse Hread Hnode Hlive.
  unfold process_appl_cmd. rewrite Hparse, Hread. simpl.
  unfold row_at. rewrite Hnode. simpl. rewrite Hlive. simpl.
  destruct (negb (global =? 0)); simpl.
  - by rewrite process_node_cmd_version.
  - by rewrite appl_context_scope_version.
Qed.


(** *** REMOVE-APP on the whole node *)

Lemma node_cmd_contexts_remove ou ids s :
  node_cmd_contexts REMOVE ou ids s
  = remove_matching
      (fun c => (ctx_vhost c =? host_vhost ou) && (ctx_node c =? host_node ou))
      ctx_id ids s.
Proof.
  revert s. induction ids as [|j ids IH]; intros s; simpl; [done |].
  unfold get_context. destruct (slots s !! j) as [c|]; [| apply IH].
  rewrite IH. done.
Qed.

Lemma node_cmd_hosts_remove_subseteq nid ids st :
  let st' := node_cmd_hosts REMOVE nid ids st in
  (forall i h, slots (hoststatsmem st') !! i = Some h -> slots (hoststatsmem st) !! i = Some h)
  /\ (forall j c,
        slots (contextstatsmem st') !! j = Some c -> slots (contextstatsmem st) !! j = Some c).
Proof.
  revert st. induction ids as [|i ids IH]; intros st; simpl; [done |].
  destruct (get_host (hoststatsmem st) i) as [ou|]; [| apply IH].
  destruct (negb (host_node ou =? nid)); [apply IH |].
  match goal with |- context [node_cmd_hosts _ _ _ ?x] => destruct (IH x) as [Hh Hc] end.
  simpl in *. split.
  - intros k h Hk. apply Hh in Hk. by apply lookup_delete_Some in Hk as [_ Hk].
  - intros j c Hj. apply Hc in Hj. rewrite node_cmd_contexts_remove in Hj.
    by apply remove_matching_subseteq in Hj.
Qed.

Lemma node_cmd_hosts_remove_visited nid ids st :
  wf_mem host_id (hoststatsmem st) -> wf_mem ctx_id (contextstatsmem st) ->
  let st' := node_cmd_hosts REMOVE nid ids st in
  (forall i h, i ∈ ids -> slots (hoststatsmem st') !! i = Some h -> host_node h <> nid)
  /\ (forall i h j c,
        i ∈ ids -> slots (hoststatsmem st) !! i = Some h -> host_node h = nid ->
        slots (contextstatsmem st') !! j = Some c ->
        ~ (ctx_vhost c = host_vhost h /\ ctx_node c = nid)).
Proof.
  revert st. induction ids as [|i ids IH]; intros st Hwh Hwc; simpl.
  { split; [intros i h Hin | intros i h j c Hin]; by apply elem_of_nil in Hin. }
  pose proof (node_cmd_hosts_remove_subseteq nid ids) as Hsub.
  unfold get_host. destruct (slots (hoststatsmem st) !! i) as [ou|] eqn:Hi.
  - destruct (Z.eqb_spec (host_node ou) nid) as [Hnid | Hnid]; simpl.
    + destruct (wf_mem_lookup host_id _ i ou Hwh Hi) as [Hid _].
      match goal with |- context [node_cmd_hosts _ _ _ ?x] => set (st1 := x) end.
      assert (wf_mem host_id (hoststatsmem st1)) as Hwh1 by by apply wf_mem_release.
      assert (wf_mem ctx_id (contextstatsmem st1)) as Hwc1.
      { simpl. rewrite node_cmd_contexts_remove. by apply wf_mem_remove_matching. }
      destruct (IH st1 Hwh1 Hwc1) as [IHh IHc].
      destruct (Hsub st1) as [Hsh Hsc]. split.
      * intros k h Hin Hk. destruct (decide (k = i)) as [-> | Hne].
        -- apply Hsh in Hk. simpl in Hk. rewrite Hid, lookup_delete_eq in Hk. done.
        -- apply elem_of_cons in Hin as [? | Hin]; [done |]. by eapply IHh.
      * intros k h j c Hin Hk Hh Hj. destruct (decide (k = i)) as [-> | Hne].
        -- assert (h = ou) as -> by congruence.
           apply Hsc in Hj. simpl in Hj. rewrite node_cmd_contexts_remove in Hj.
           apply (remove_matching_all _ ctx_id) in Hj; [| done].
           rewrite Hnid in Hj. lia.
        -- apply elem_of_cons in Hin as [? | Hin]; [done |].
           eapply IHc; try done. simpl. rewrite Hid, lookup_delete_ne; done.
    + destruct (IH st Hwh Hwc) as [IHh IHc]. destruct (Hsub st) as [Hsh Hsc]. split.
      * intros k h Hin Hk. destruct (decide (k = i)) as [-> | Hne].
        -- apply Hsh in Hk. congruence.
        -- apply elem_of_cons in Hin as [? | Hin]; [done |]. by eapply IHh.
      * intros k h j c Hin Hk Hh Hj. destruct (decide (k = i)) as [-> | Hne].
        -- congruence.
        -- apply elem_of_cons in Hin as [? | Hin]; [done |]. by eapply IHc.
  - destruct (IH st Hwh Hwc) as [IHh IHc]. destruct (Hsub st) as [Hsh Hsc]. split.
    + intros k h Hin Hk. destruct (decide (k = i)) as [-> | Hne].
      * apply Hsh in Hk. congruence.
      * apply elem_of_cons in Hin as [? | Hin]; [done |]. by eapply IHh.
    + intros k h j c Hin Hk Hh Hj. destruct (decide (k = i)) as [-> | Hne].
      * congruence.
      * apply elem_of_cons in Hin as [? | Hin]; [done |]. by eapply IHc.
Qed.

Lemma node_cmd_mark_removed_spec k s node :
  slots s !! k = Some node ->
  exists row,
    slots (node_cmd_mark_removed now uninit_id k s) !! k = Some row
    /\ mess_remove (mess row) = 1.
Proof.
  intros Hk. unfold node_cmd_mark_removed. simpl.
  rewrite lookup_alter_eq, Hk. simpl.
  set (s1 := modify _ k s).
  assert (slots s1 !! k = Some (on_mess (set_mess_remove 1) node)) as Hk1.
  { simpl. by rewrite lookup_alter_eq, Hk. }
  unfold insert_update_node.
  destruct (if uninit_id =? -1 then grab s1 else _) as [j|]; [| eauto].
  simpl. destruct (decide (j = k)) as [-> | Hne].
  - rewrite lookup_insert_eq. eauto.
  - rewrite lookup_insert_ne by done. eauto.
Qed.

Lemma node_command_is_global uri :
  uri = "*"%string \/ ends_slash_star uri = true ->
  strstr (manager_trans_filename uri) NODE_COMMAND = true.
Proof.
  intros H. unfold manager_trans_filename.
  assert (streq uri "*" || ends_slash_star uri = true) as ->; [| done].
  destruct H as [-> | ->]; [done | apply orb_true_r].
Qed.

(** a REMOVE-APP whose path is [*] or ends in [/*], for a node that is
    found and is not marked removed, in a well-formed registry where every
    context of the node hangs under one of its host rows *)
Lemma remove_app_node_scope uri buff ptr st acc k node :
  uri = "*"%string \/ ends_slash_star uri = true ->
  process_buff buff = Some ptr ->
  appl_parse sz ptr = Go acc ->
  read_node (nodestatsmem st) (af_nodeinfo acc) = Some k ->
  slots (nodestatsmem st) !! k = Some node ->
  mess_remove (mess node) = 0 ->
  wf_registry st ->
  contexts_have_hosts st (mess_id (mess node)) ->
  exists st',
    manager_handler sz mconf balancerhandler now uninit_id REMOVE_APP
      (manager_trans_filename uri) buff st = (st', Returned None 0)
    /\ (forall i h,
          slots (hoststatsmem st') !! i = Some h -> host_node h <> mess_id (mess node))
    /\ (forall j c,
          slots (contextstatsmem st') !! j = Some c -> ctx_node c <> mess_id (mess node))
    /\ (exists row, slots (nodestatsmem st') !! k = Some row /\ mess_remove (mess row) = 1).
Proof.
  intros Huri Hbuff Hparse Hread Hnode Hlive Hwf Hcov.
  unfold manager_handler. rewrite Hbuff, (node_command_is_global uri Huri).
  unfold process_remove, process_appl_cmd. rewrite Hparse, Hread. simpl.
  unfold row_at. rewrite Hnode. simpl. rewrite Hlive. simpl.
  eexists. split; [reflexivity |].
  unfold process_node_cmd, loc_get_max_size_host. simpl.
  destruct (Z.eqb_spec (max_size (hoststatsmem st)) 0) as [Hz | _].
  { by apply (wf_registry_host_room st k node Hwf) in Hz. }
  rewrite Hnode. simpl.
  set (st0 := inc_version_node st).
  set (nid := mess_id (mess node)) in *.
  destruct Hwf as (Hwn & Hwh & Hwc & _).
  destruct (node_cmd_hosts_frame REMOVE nid (ids_used (hoststatsmem st)) st0)
    as (_ & Hn & _).
  destruct (node_cmd_hosts_remove_subseteq nid (ids_used (hoststatsmem st)) st0)
    as [Hsh Hsc].
  destruct (node_cmd_hosts_remove_visited nid (ids_used (hoststatsmem st)) st0 Hwh Hwc)
    as [Hvh Hvc].
  split_and!.
  - intros i h Hi. eapply Hvh; [| exact Hi].
    apply Hsh in Hi. by eapply wf_mem_ids_used.
  - intros j c Hj Hc. pose proof (Hsc j c Hj) as Hj0.
    destruct (Hcov j c Hj0 Hc) as (i & h & Hi & Hhn & Hhv).
    eapply (Hvc i h j c); try done.
    by eapply wf_mem_ids_used.
  - rewrite Hn. eapply node_cmd_mark_removed_spec. exact Hnode.
Qed.


(** *** The worker-identity check *)







(** *** What the field loops leave alone *)

Lemma bind_Go {A B : Type} (m : res A) (f : A -> res B) b :
  m ≫= f = Go b -> exists a, m = Go a /\ f a = Go b.
Proof. destruct m as [a|o]; [eauto | done]. Qed.

Lemma on_key_inv {S : Type} (P : S -> Prop) key name val f (s s' : S) :
  on_key key name val f s = Go s' ->
  (forall v x x', f v x = Go x' -> P x -> P x') ->
  P s -> P s'.
Proof.
  unfold on_key. destruct (strcaseeq key name); [| by intros [= <-]].
  destruct val as [v|]; simpl; [eauto | done].
Qed.









(** *** Inserting the aliases and contexts of a CONFIG *)





(** what the insertion of the Alias and Context groups leaves alone *)
Lemma config_insert_vhosts_frame vhost route id vid st :
  let st' := (config_insert_vhosts sz vhost route id vid st).1 in
  nodestatsmem st' = nodestatsmem st
  /\ balancerstatsmem st' = balancerstatsmem st
  /\ version st' = version st.
Proof.
  revert vid st. induction vhost as [|phost rest IH]; intros vid st; simpl; [done |].
  destruct (insert_update_hosts _ _ _ _ _) as [hs ok]. destruct ok; simpl; [| done].
  destruct (insert_update_contexts _ _ _ _ _ _) as [cs ok]. destruct ok; simpl; [| done].
  match goal with |- context [config_insert_vhosts _ _ _ _ _ ?x] =>
    destruct (IH (vid + 1) x) as (-> & -> & ->) end.
  done.
Qed.

Lemma config_vhosts_frame vhost route id st :
  let st' := (config_vhosts sz vhost route id st).1 in
  nodestatsmem st' = nodestatsmem st
  /\ balancerstatsmem st' = balancerstatsmem st
  /\ version st' = version st.
Proof.
  unfold config_vhosts.
  destruct vhost as [|[[h|] [c|]] rest]; try apply config_insert_vhosts_frame. done.
Qed.





(** *** Slot reuse *)



(** *** The stages of the CONFIG transaction *)

Lemma row_at_Some {A : Type} (s : mem A) (o : option Z) k x :
  o ≫= row_at s = Some (k, x) -> o = Some k /\ slots s !! k = Some x.
Proof.
  destruct o as [k'|]; simpl; [| done]. unfold row_at.
  destruct (slots s !! k') as [y|] eqn:Hk'; simpl; [| done].
  intros [= -> ->]. done.
Qed.

Lemma read_node_by_id_Some s id wk :
  id <> -1 -> read_node_by_id s id = Some wk -> wk = id.
Proof.
  intros Hid. unfold read_node_by_id, read_node. simpl.
  apply Z.eqb_neq in Hid. rewrite Hid.
  destruct (used s id); [by intros [= <-] | done].
Qed.

Lemma loc_remove_host_context_version node st :
  version (loc_remove_host_context node st) = version st.
Proof. unfold loc_remove_host_context. by destruct (_ =? 0). Qed.

(** the conflict check either lets the command go on, with the registry as
    it was, or ends it with a MEM error and the version bumped *)
Lemma config_conflict_cases node nodeinfo st st1 r :
  config_conflict now node nodeinfo st = (st1, r) ->
  (r = Go tt /\ st1 = st)
  \/ (exists e, r = Stop (Returned (Some e) TYPEMEM)
                /\ version st1 = (version st + 1) mod 2 ^ 64).
Proof.
  unfold config_conflict. destruct node as [[k old]|]; [| intros [= <- <-]; by left].
  destruct (is_same_node old nodeinfo =? 0); [| intros [= <- <-]; by left].
  intros [= <- <-]. right. eexists. split; [done |].
  simpl. by rewrite loc_remove_host_context_version.
Qed.

(** the choice of the slot: the registry changes only in the node table
    and only by taking over a row whose slot is then the chosen one; a
    returned error leaves the registry as it was *)
Lemma config_choose_slot_cases node nodeinfo st st1 r :
  wf_mem (fun n => mess_id (mess n)) (nodestatsmem st) ->
  config_choose_slot balancerhandler node nodeinfo st = (st1, r) ->
  version st1 = version st
  /\ hoststatsmem st1 = hoststatsmem st
  /\ contextstatsmem st1 = contextstatsmem st
  /\ balancerstatsmem st1 = balancerstatsmem st
  /\ max_size (nodestatsmem st1) = max_size (nodestatsmem st)
  /\ match r with
     | Go c =>
         (nodestatsmem st1 = nodestatsmem st /\ sc_removed c = 0)
         \/ 0 <= sc_id c < max_size (nodestatsmem st)
     | Stop (Returned e t) => t = TYPEMEM /\ st1 = st
     | Stop _ => True
     end.
Proof.
  intros Hwf. unfold config_choose_slot.
  destruct (proxy_node_getid balancerhandler nodeinfo) as [[worker id] the_conf].
  destruct (Z.eqb_spec id (-1)) as [-> | Hid]; simpl.
  - unfold config_reuse_slot.
    destruct (find_node_byhostport _ _ _ ≫= row_at _) as [[wk workernode]|] eqn:Hfind.
    + apply row_at_Some in Hfind as [_ Hwk].
      destruct (Hwf wk workernode Hwk) as [Hwid Hrange]. simpl in Hwid.
      destruct (streq _ REMOVED); simpl; intros [= <- <-]; simpl;
        assert ((mess_id (mess workernode) =? -1) = false) as -> by lia;
        split_and!; try done; right; simpl; lia.
    + simpl. intros [= <- <-]. simpl. split_and!; try done. by left.
  - unfold config_worker_exists.
    destruct (match node with Some (_, old) => mess_id (mess old) =? id | None => false end).
    { simpl. apply Z.eqb_neq in Hid. rewrite Hid. intros [= <- <-].
      split_and!; try done. by left. }
    destruct node as [[k old]|]; simpl.
    { destruct worker as [w|]; simpl; [| intros [= <- <-]; by split_and!].
      destruct (negb (worker_port w =? 0)); simpl; [| intros [= <- <-]; by split_and!].
      destruct the_conf; simpl; [| intros [= <- <-]; by split_and!].
      apply Z.eqb_neq in Hid. rewrite Hid. intros [= <- <-].
      split_and!; try done. by left. }
    pose proof (proj2 (Z.eqb_neq _ _) Hid) as Hidb.
    destruct (read_node_by_id (nodestatsmem st) id ≫= row_at (nodestatsmem st))
      as [[wk workernode]|] eqn:Hread.
    + apply row_at_Some in Hread as [Hrd Hwk].
      apply read_node_by_id_Some in Hrd as ->; [| done].
      destruct (Hwf id workernode Hwk) as [_ Hrange].
      destruct (streq (mess_JVMRoute (mess workernode)) REMOVED);
        [| destruct (negb (streq (mess_JVMRoute (mess workernode)) EmptyString)
                     && negb (streq (mess_JVMRoute (mess workernode))
                                (mess_JVMRoute (mess nodeinfo))));
           [simpl; intros [= <- <-]; by split_and! |]];
        simpl;
        (destruct the_conf; simpl; [| intros [= <- <-]; by split_and!]);
        (destruct worker as [w|]; simpl; [| intros [= <- <-]; by split_and!]);
        (destruct (negb (worker_port w =? 0)); simpl; [| intros [= <- <-]; by split_and!]);
        rewrite Hidb; intros [= <- <-]; split_and!; try done; right; simpl; lia.
    + simpl. destruct the_conf; simpl; [| intros [= <- <-]; by split_and!].
      destruct worker as [w|]; simpl; [| intros [= <- <-]; by split_and!].
      destruct (negb (worker_port w =? 0)); simpl; [| intros [= <- <-]; by split_and!].
      rewrite Hidb. intros [= <- <-].
      split_and!; try done. by left.
Qed.

(** the upsert either fails, with a MEM error and the registry as it was,
    which needs a slot number outside the table, or bumps the version *)
Lemma config_upsert_node_cases c st st2 r :
  sc_removed c = 0 \/ 0 <= sc_id c < max_size (nodestatsmem st) ->
  config_upsert_node now c st = (st2, r) ->
  hoststatsmem st2 = hoststatsmem st
  /\ contextstatsmem st2 = contextstatsmem st
  /\ match r with
     | Go id => version st2 = (version st + 1) mod 2 ^ 64
     | Stop (Returned e t) =>
         t = TYPEMEM /\ st2 = st /\ ~ 0 <= sc_id c < max_size (nodestatsmem st)
     | Stop _ => True
     end.
Proof.
  intros Hc. unfold config_upsert_node.
  destruct (insert_update_node now (nodestatsmem st) (sc_nodeinfo c) (sc_id c) (sc_clean c))
    as [[s id]|] eqn:Hins.
  - simpl. destruct (sc_clean c =? 0); simpl; [| intros [= <- <-]; by split_and!].
    destruct (read_node_by_id s id ≫= row_at s) as [[k workernode]|]; simpl;
      [| intros [= <- <-]; by split_and!].
    destruct (sc_the_conf c); simpl; [| intros [= <- <-]; by split_and!].
    destruct (sc_worker c) as [w|]; simpl; [| intros [= <- <-]; by split_and!].
    destruct (worker_context w); simpl; [| intros [= <- <-]; by split_and!].
    destruct (mess_id (mess workernode) =? id); simpl; intros [= <- <-]; by split_and!.
  - assert (~ 0 <= sc_id c < max_size (nodestatsmem st)) as Hout.
    { intros Hin. unfold insert_update_node in Hins.
      assert ((sc_id c =? -1) = false) as Heq by lia. rewrite Heq in Hins.
      assert ((0 <=? sc_id c) && (sc_id c <? max_size (nodestatsmem st)) = true) as Hr
        by lia.
      by rewrite Hr in Hins. }
    destruct Hc as [-> | ?]; [| done]. simpl. intros [= <- <-]. by split_and!.
Qed.

Lemma config_insert_vhosts_errtype vhost route id vid st e t :
  (config_insert_vhosts sz vhost route id vid st).2 = Returned e t -> t = 0.
Proof.
  revert vid st. induction vhost as [|phost rest IH]; intros vid st; simpl.
  { by intros [= _ <-]. }
  destruct (insert_update_hosts _ _ _ _ _) as [hs ok].
  destruct ok; simpl; [| by intros [= _ <-]].
  destruct (insert_update_contexts _ _ _ _ _ _) as [cs ok].
  destruct ok; simpl; [| by intros [= _ <-]].
  apply IH.
Qed.

Lemma config_vhosts_errtype vhost route id st e t :
  (config_vhosts sz vhost route id st).2 = Returned e t -> t = 0.
Proof.
  unfold config_vhosts.
  destruct vhost as [|[[h|] [c|]] rest]; try apply config_insert_vhosts_errtype.
  by intros [= _ <-].
Qed.

(** a transaction that returns has either bumped the version or left the
    graph and the version as they were; its error type is never SYNTAX *)
Lemma config_transaction_cases nodeinfo balancerinfo vhost st st' e t :
  wf_registry st ->
  config_transaction sz balancerhandler now nodeinfo balancerinfo vhost st
  = (st', Returned e t) ->
  t <> TYPESYNTAX /\ (bumped st st' \/ untouched st st').
Proof.
  intros Hwf. unfold config_transaction.
  destruct (insert_update_balancer _ _) as [bs|];
    [| intros [= <- <- <-]; split; [done | by right]].
  set (st0 := set_balancerstatsmem bs st).
  assert (wf_mem (fun n => mess_id (mess n)) (nodestatsmem st0)) as Hwn by apply Hwf.
  destruct (config_conflict now _ nodeinfo st0) as [st1 r1] eqn:H1.
  apply config_conflict_cases in H1 as [[-> ->] | (e1 & -> & Hv)]; simpl.
  2:{ intros [= <- <- <-]. split; [done | by left]. }
  destruct (negb (is_same_worker_existing st0 nodeinfo =? 0)).
  { intros [= <- <- <-]. split; [done | by right]. }
  destruct (config_choose_slot balancerhandler _ nodeinfo st0) as [st2 r2] eqn:H2.
  apply config_choose_slot_cases in H2 as (Hv2 & Hh2 & Hc2 & Hb2 & Hm2 & Hr2); [| done].
  destruct r2 as [c|o2]; simpl.
  2:{ intros [= <- ->]. destruct Hr2 as [-> ->]. split; [done | by right]. }
  destruct (config_upsert_node now c st2) as [st3 r3] eqn:H3.
  apply config_upsert_node_cases in H3 as (Hh3 & Hc3 & Hr3).
  2:{ destruct Hr2 as [[_ ?] | ?]; [by left | right; by rewrite Hm2]. }
  destruct r3 as [id|o3]; simpl.
  - intros H.
    pose proof (config_vhosts_frame vhost (mess_JVMRoute (mess nodeinfo)) id st3)
      as (_ & _ & Hv4).
    pose proof (config_vhosts_errtype vhost (mess_JVMRoute (mess nodeinfo)) id st3 e t)
      as Ht.
    rewrite H in Hv4, Ht. simpl in Hv4, Ht. rewrite (Ht eq_refl).
    split; [done | left]. unfold bumped. rewrite Hv4, Hr3, Hv2. done.
  - intros [= <- ->]. destruct Hr3 as (-> & -> & Hout).
    split; [done | right].
    destruct Hr2 as [[Hn2 _] | Hin]; [| by rewrite Hm2 in Hout].
    unfold untouched, graph. rewrite Hn2, Hh2, Hc2, Hv2. done.
Qed.

(** a CONFIG that returns: a SYNTAX error leaves the registry as it was,
    and the version is bumped unless graph and version are untouched *)
Lemma process_config_cases ptr st st' e t :
  wf_registry st ->
  process_config sz mconf balancerhandler now ptr st = (st', Returned e t) ->
  (t = TYPESYNTAX -> st' = st) /\ (bumped st st' \/ untouched st st').
Proof.
  intros Hwf. unfold process_config.
  destruct (config_parse sz mconf ptr) as [rq|o].
  - intros H. apply config_transaction_cases in H as [Ht H]; done.
  - intros [= <- ->]. split; [done | by right].
Qed.

(** *** The *-APP commands *)

Lemma appl_find_host_errtype status route node vhost st st1 e t :
  appl_find_host sz status route node vhost st = (st1, Stop (Returned e t)) ->
  t = TYPEMEM.
Proof.
  unfold appl_find_host.
  destruct (read_host _ _); [done |].
  destruct (status =? REMOVE); [done |].
  destruct (insert_update_hosts _ _ _ _ _) as [hs ok].
  destruct ok; simpl; [| by intros [= _ _ <-]].
  destruct (read_host _ _); [done | by intros [= _ _ <-]].
Qed.

Lemma appl_context_scope_errtype status route node vhost st st' e t :
  appl_context_scope sz status route node vhost st = (st', Returned e t) ->
  t <> TYPESYNTAX.
Proof.
  unfold appl_context_scope, andthen.
  destruct (appl_find_host sz status route node vhost st) as [st1 [host|o]] eqn:Hf.
  - destruct (host ≫= get_host (hoststatsmem st1)) as [h|]; [| by intros [= _ _ <-]].
    destruct (appl_enable_check status vhost st1) as [[]|o] eqn:Hen.
    + destruct (insert_update_contexts _ _ _ _ _ _) as [cs ok].
      destruct ok; simpl; [| by intros [= _ _ <-]].
      destruct (status =? REMOVE); [by intros [= _ _ <-] |].
      destruct (status =? STOPPED); [| by intros [= _ _ <-]].
      destruct (ch_context vhost); [by intros [= _ _ <-] | done].
    + unfold appl_enable_check in Hen. repeat case_match; simplify_eq. done.
  - intros [= <- ->]. by rewrite (appl_find_host_errtype _ _ _ _ _ _ _ _ Hf).
Qed.

Lemma process_appl_cmd_cases ptr status global st st' e t :
  process_appl_cmd sz now uninit_id ptr status global st = (st', Returned e t) ->
  (t = TYPESYNTAX -> st' = st) /\ (bumped st st' \/ untouched st st').
Proof.
  unfold process_appl_cmd.
  destruct (appl_parse sz ptr) as [acc|o]; [| intros [= <- ->]; split; [done | by right]].
  destruct (read_node _ _ ≫= row_at _) as [[k node]|].
  2:{ destruct (status =? REMOVE); intros [= <- <- <-]; split; done || by right. }
  destruct (negb (mess_remove (mess node) =? 0)).
  { destruct (status =? REMOVE); intros [= <- <- <-]; split; done || by right. }
  destruct (negb (global =? 0)).
  - intros [= <- <- <-]. split; [done | left].
    unfold bumped. by rewrite process_node_cmd_version.
  - intros H.
    pose proof (appl_context_scope_version status (mess_JVMRoute (mess (af_nodeinfo acc)))
                  node (af_vhost acc) (inc_version_node st)) as Hv.
    rewrite H in Hv. simpl in Hv.
    apply appl_context_scope_errtype in H.
    split; [done | by left].
Qed.

(** every command that returns: a SYNTAX error leaves the registry as it
    was, and the version is bumped unless graph and version are untouched *)
Lemma manager_handler_cases method filename buff st st' e t :
  wf_registry st ->
  manager_handler sz mconf balancerhandler now uninit_id method filename buff st
  = (st', Returned e t) ->
  (t = TYPESYNTAX -> st' = st) /\ (bumped st st' \/ untouched st st').
Proof.
  intros Hwf. unfold manager_handler.
  destruct (process_buff buff) as [ptr|]; [| intros [= <- <- <-]; split; [done | by right]].
  destruct method;
    try (unfold process_enable, process_disable, process_stop, process_remove;
         apply process_appl_cmd_cases).
  - by apply process_config_cases.
  - intros [= <- <- <-]. split; [done | by right].
Qed.

(** *** Error types *)

Lemma config_choose_slot_errtype node nodeinfo st st1 e t :
  config_choose_slot balancerhandler node nodeinfo st = (st1, Stop (Returned e t)) ->
  t = TYPEMEM.
Proof.
  unfold config_choose_slot.
  destruct (proxy_node_getid balancerhandler nodeinfo) as [[worker id] the_conf].
  destruct (negb (id =? -1)); simpl.
  - unfold config_worker_exists.
    destruct (match node with Some (_, old) => mess_id (mess old) =? id | None => false end);
      [done |].
    destruct node as [[k old]|]; simpl.
    { destruct worker as [w|]; simpl; [| done].
      destruct (negb (worker_port w =? 0)); simpl; [| done].
      by destruct the_conf. }
    destruct (read_node_by_id (nodestatsmem st) id ≫= row_at (nodestatsmem st))
      as [[wk workernode]|];
      [destruct (streq (mess_JVMRoute (mess workernode)) REMOVED);
         [| destruct (negb (streq (mess_JVMRoute (mess workernode)) EmptyString)
                      && negb (streq (mess_JVMRoute (mess workernode))
                                 (mess_JVMRoute (mess nodeinfo))));
            [simpl; by intros [= _ _ <-] |]] |];
      simpl;
      (destruct the_conf; simpl; [| done]);
      (destruct worker as [w|]; simpl; [| done]);
      by destruct (negb (worker_port w =? 0)).
  - by destruct (config_reuse_slot nodeinfo st).
Qed.

Lemma config_upsert_node_errtype c st st2 e t :
  config_upsert_node now c st = (st2, Stop (Returned e t)) -> t = TYPEMEM.
Proof.
  unfold config_upsert_node.
  destruct (insert_update_node now (nodestatsmem st) (sc_nodeinfo c) (sc_id c) (sc_clean c))
    as [[s id]|]; [| by intros [= _ _ <-]].
  simpl. destruct (sc_clean c =? 0); simpl; [| done].
  destruct (read_node_by_id s id ≫= row_at s) as [[k workernode]|]; simpl; [| done].
  destruct (sc_the_conf c); simpl; [| done].
  destruct (sc_worker c) as [w|]; simpl; [| done].
  destruct (worker_context w); simpl; [| done].
  by destruct (mess_id (mess workernode) =? id).
Qed.

Lemma config_transaction_errtype nodeinfo balancerinfo vhost st st' e t :
  config_transaction sz balancerhandler now nodeinfo balancerinfo vhost st
  = (st', Returned e t) ->
  t <> TYPESYNTAX.
Proof.
  unfold config_transaction.
  destruct (insert_update_balancer _ _) as [bs|]; [| by intros [= _ _ <-]].
  set (st0 := set_balancerstatsmem bs st).
  destruct (config_conflict now _ nodeinfo st0) as [st1 r1] eqn:H1.
  apply config_conflict_cases in H1 as [[-> ->] | (e1 & -> & Hv)]; simpl;
    [| by intros [= _ _ <-]].
  destruct (negb (is_same_worker_existing st0 nodeinfo =? 0)); [by intros [= _ _ <-] |].
  destruct (config_choose_slot balancerhandler _ nodeinfo st0) as [st2 [c|o2]] eqn:H2;
    simpl.
  2:{ intros [= <- ->]. by rewrite (config_choose_slot_errtype _ _ _ _ _ _ H2). }
  destruct (config_upsert_node now c st2) as [st3 [id|o3]] eqn:H3; simpl.
  2:{ intros [= <- ->]. by rewrite (config_upsert_node_errtype _ _ _ _ _ H3). }
  intros H.
  pose proof (config_vhosts_errtype vhost (mess_JVMRoute (mess nodeinfo)) id st3 e t) as Ht.
  rewrite H in Ht. by rewrite (Ht eq_refl).
Qed.

(** C5, as amended. A command that returns a SYNTAX error (a body that
    does not parse, an unsupported method, a field that fails a check of
    CONFIG or of a *-APP command) leaves the registry exactly as it was:
    balancer, node, host and context tables and the version counter. *)
Theorem C5_syntax_error_leaves_registry method filename buff st e :
  (manager_handler sz mconf balancerhandler now uninit_id method filename buff st).2
  = Returned e TYPESYNTAX ->
  (manager_handler sz mconf balancerhandler now uninit_id method filename buff st).1 = st.
Proof.
  destruct (manager_handler _ _ _ _ _ _ _ _ _) as [st' o] eqn:H. simpl. intros ->.
  revert H. unfold manager_handler.
  destruct (process_buff buff) as [ptr|]; [| by intros [= <-]].
  assert (forall status global,
            process_appl_cmd sz now uninit_id ptr status global st
            = (st', Returned e TYPESYNTAX) -> st' = st) as Happl.
  { intros status global H. by apply process_appl_cmd_cases in H as [H _]; auto. }
  destruct method; try apply Happl.
  - unfold process_config. destruct (config_parse sz mconf ptr) as [rq|o].
    + intros H. by apply config_transaction_errtype in H.
    + by intros [= <-].
  - by intros [= <-].
Qed.

(** C2. A command that returns, on a well-formed registry whose 64-bit
    version counter is not at its last value: if the node/host/context
    graph is not what it was, the counter is strictly greater than before;
    in any case the counter is not lower than before, so a reader that
    compares it with the value it saw last is never told to keep derived
    state that a command has outdated. *)
Theorem C2_mutation_bumps_version method filename buff st st' e t :
  wf_registry st ->
  0 <= version st < 2 ^ 64 - 1 ->
  manager_handler sz mconf balancerhandler now uninit_id method filename buff st
  = (st', Returned e t) ->
  (graph st' <> graph st -> version st < version st')
  /\ version st <= version st'.
Proof.
  intros Hwf Hver H.
  apply manager_handler_cases in H as [_ [Hb | [Hg Hv]]]; [| | done].
  - unfold bumped in Hb. rewrite Z.mod_small in Hb by lia. lia.
  - split; [done | lia].
Qed.

End CommandFacts.

(** ** Slots under the invariant *)

Section SlotInvariants.
Context {A : Type}.

Lemma wf_mem_put (idf : A -> Z) s k x :
  wf_mem idf s -> idf x = k -> 0 <= k < max_size s -> wf_mem idf (put k x s).
Proof.
  intros Hwf Hid Hk j y. unfold put. simpl.
  destruct (decide (j = k)) as [->|Hne].
  - rewrite lookup_insert_eq. by intros [= <-].
  - rewrite lookup_insert_ne by done. apply Hwf.
Qed.

Lemma wf_mem_modify (idf : A -> Z) (f : A -> A) s k :
  wf_mem idf s -> (forall x, idf (f x) = idf x) -> wf_mem idf (modify f k s).
Proof.
  intros Hwf Hf j y. unfold modify. simpl.
  destruct (decide (j = k)) as [->|Hne].
  - rewrite lookup_alter_eq. destruct (slots s !! k) as [x|] eqn:E; simpl; [|done].
    intros [= <-]. rewrite Hf. by apply (Hwf k x).
  - rewrite lookup_alter_ne by done. apply Hwf.
Qed.

Lemma remove_matching_kept (p : A -> bool) (idf : A -> Z) ids s k x :
  wf_mem idf s -> slots s !! k = Some x -> p x = false ->
  slots (remove_matching p idf ids s) !! k = Some x.
Proof.
  revert s. induction ids as [|i ids IH]; intros s Hwf Hk Hp; simpl; [done|].
  destruct (slots s !! i) as [ou|] eqn:Hi; [|by apply IH].
  destruct (p ou) eqn:Hou; [|by apply IH].
  apply IH; [by apply wf_mem_release | | done].
  destruct (wf_mem_lookup idf s i ou Hwf Hi) as [Hid _].
  unfold release. simpl. rewrite Hid.
  rewrite lookup_delete_ne; [done|]. intros ->. congruence.
Qed.
End SlotInvariants.

(** ** What every command keeps *)

Section CoverFacts.
Context (sz : clustersize) (mconf : mod_manager_config).
Context (balancerhandler : option balancer_method) (now uninit_id : Z).

Lemma hosts_cover_contexts_keys st :
  hosts_cover_contexts st
  <-> keys_within (has_vhost (hoststatsmem st)) (contextstatsmem st).
Proof.
  unfold hosts_cover_contexts, keys_within, has_vhost. split.
  - intros H j c Hc. apply (H j c) in Hc. by apply map_Exists_lookup in Hc.
  - intros H j c Hc. apply map_Exists_lookup. by apply (H j c).
Qed.

Lemma hosts_cover_contexts_node st node :
  hosts_cover_contexts st -> contexts_have_hosts st node.
Proof.
  intros H j c Hc Hn. apply (H j c) in Hc. apply map_Exists_lookup in Hc as (i & h & Hh & Hhn & Hv).
  apply map_Exists_lookup. exists i, h. split_and!; [done | congruence | done].
Qed.

Lemma keys_within_mono (P Q : Z -> Z -> Prop) cs :
  (forall n v, P n v -> Q n v) -> keys_within P cs -> keys_within Q cs.
Proof. intros HPQ H j c Hc. apply HPQ. by apply (H j c). Qed.

Lemma keys_within_release P k cs : keys_within P cs -> keys_within P (release k cs).
Proof.
  intros H j c. unfold release. simpl. intros Hc.
  apply lookup_delete_Some in Hc as [_ Hc]. by apply (H j c).
Qed.

Lemma keys_within_remove_matching P p ids cs :
  keys_within P cs -> keys_within P (remove_matching p ctx_id ids cs).
Proof. intros H j c Hc. apply remove_matching_subseteq in Hc. by apply (H j c). Qed.

Lemma keys_within_status P status k cs :
  keys_within P cs -> keys_within P (modify (set_ctx_status status) k cs).
Proof.
  intros H j c. unfold modify. simpl. destruct (decide (j = k)) as [->|Hne].
  - rewrite lookup_alter_eq. destruct (slots cs !! k) as [x|] eqn:E; simpl; [|done].
    intros [= <-]. by apply (H k x).
  - rewrite lookup_alter_ne by done. apply H.
Qed.

Lemma split_commas_cons s : exists p ps, split_commas s = p :: ps.
Proof. induction s as [|c s IH]; simpl; [by eauto|]. repeat case_match; eauto. Qed.

(** *** Host rows *)

Lemma insert_update_host_inv s host s' :
  wf_mem host_id s -> insert_update_host s host = Some s' ->
  wf_mem host_id s' /\ max_size s' = max_size s
  /\ (forall n v, has_vhost s n v -> has_vhost s' n v)
  /\ has_vhost s' (host_node host) (host_vhost host).
Proof.
  intros Hwf. unfold insert_update_host.
  destruct (find_slot (same_host_key host) s) as [k|] eqn:Hf.
  - intros [= <-]. apply find_slot_Some in Hf as (Hk & x & Hx & Hp).
    unfold same_host_key in Hp.
    apply andb_prop in Hp as [Hp _]. apply andb_prop in Hp as [Hn Hv].
    apply Z.eqb_eq in Hn, Hv.
    split_and!; [by apply wf_mem_put | done | |].
    + intros n v (i & h & Hh & <- & <-). unfold has_vhost, put. simpl.
      destruct (decide (i = k)) as [->|Hne].
      * exists k, (set_host_id k host). rewrite lookup_insert_eq.
        assert (h = x) as -> by congruence. simpl. by split_and!.
      * exists i, h. by rewrite lookup_insert_ne.
    + exists k, (set_host_id k host). unfold put. simpl. by rewrite lookup_insert_eq.
  - destruct (grab s) as [k|] eqn:Hg; [|done]. intros [= <-].
    apply grab_Some in Hg as [Hnone Hk].
    split_and!; [by apply wf_mem_put | done | |].
    + intros n v (i & h & Hh & <- & <-). exists i, h. unfold put. simpl.
      rewrite lookup_insert_ne; [done|]. intros ->. congruence.
    + exists k, (set_host_id k host). unfold put. simpl. by rewrite lookup_insert_eq.
Qed.

Lemma insert_hosts_loop_inv pieces node vhost s s' ok :
  wf_mem host_id s -> insert_hosts_loop sz pieces node vhost s = (s', ok) ->
  wf_mem host_id s' /\ max_size s' = max_size s
  /\ (forall n v, has_vhost s n v -> has_vhost s' n v)
  /\ (ok = true -> pieces <> [] -> has_vhost s' node vhost).
Proof.
  revert s. induction pieces as [|p rest IH]; intros s Hwf; simpl.
  - intros [= <- <-]. by split_and!.
  - destruct rest as [|q rest].
    + destruct (insert_update_host _ _) as [s1|] eqn:Hi; intros [= <- <-].
      * apply insert_update_host_inv in Hi as (? & ? & ? & ?); [|done]. by split_and!.
      * by split_and!.
    + destruct (insert_update_host _ _) as [s1|] eqn:Hi.
      * apply insert_update_host_inv in Hi as (Hwf1 & Hm1 & Hmono1 & Hnew); [|done].
        intros H. apply IH in H as (? & Hm & Hmono & _); [|done].
        split_and!; [done | congruence | by eauto |]. intros _ _. by apply Hmono.
      * intros [= <- <-]. by split_and!.
Qed.

Lemma insert_update_hosts_inv str node vhost s s' ok :
  wf_mem host_id s -> insert_update_hosts sz s str node vhost = (s', ok) ->
  wf_mem host_id s' /\ max_size s' = max_size s
  /\ (forall n v, has_vhost s n v -> has_vhost s' n v)
  /\ (ok = true -> has_vhost s' node vhost).
Proof.
  intros Hwf H. unfold insert_update_hosts in H.
  destruct (split_commas_cons (default EmptyString str)) as (p & ps & Hsp).
  rewrite Hsp in H. apply insert_hosts_loop_inv in H as (? & ? & ? & Hnew); [|done].
  split_and!; try done. intros ->. by apply Hnew.
Qed.

(** *** Context rows *)

Lemma insert_update_context_inv P s context s' :
  wf_mem ctx_id s -> keys_within P s -> P (ctx_node context) (ctx_vhost context) ->
  insert_update_context s context = Some s' ->
  wf_mem ctx_id s' /\ max_size s' = max_size s /\ keys_within P s'.
Proof.
  intros Hwf Hkeys HP. unfold insert_update_context.
  destruct (read_context s context) as [k|] eqn:Hr.
  - intros [= <-]. split_and!; [by apply wf_mem_modify | done | by apply keys_within_status].
  - destruct (grab s) as [k|] eqn:Hg; [|done]. intros [= <-].
    apply grab_Some in Hg as [Hnone Hk].
    split_and!; [by apply wf_mem_put | done |].
    intros j c. unfold put. simpl. destruct (decide (j = k)) as [->|Hne].
    + rewrite lookup_insert_eq. by intros [= <-].
    + rewrite lookup_insert_ne by done. apply Hkeys.
Qed.

Lemma read_remove_context_inv P s context :
  wf_mem ctx_id s -> keys_within P s ->
  wf_mem ctx_id (read_remove_context s context)
  /\ max_size (read_remove_context s context) = max_size s
  /\ keys_within P (read_remove_context s context).
Proof.
  intros Hwf Hkeys. unfold read_remove_context, remove_context.
  repeat case_match; split_and!; try done;
    first [by apply wf_mem_release | by apply keys_within_release].
Qed.

Lemma insert_contexts_loop_inv P pieces node vhost status s s' ok :
  wf_mem ctx_id s -> keys_within P s -> P node vhost ->
  insert_contexts_loop sz pieces node vhost status s = (s', ok) ->
  wf_mem ctx_id s' /\ max_size s' = max_size s /\ keys_within P s'.
Proof.
  revert s. induction pieces as [|p rest IH]; intros s Hwf Hkeys HP; simpl.
  - intros [= <- <-]. by split_and!.
  - destruct (status =? REMOVE).
    + destruct (read_remove_context_inv P s
                  (context_info (strncpy (Z.to_nat (sizeof_context sz)) p) node vhost status)
                  Hwf Hkeys) as (Hwf1 & Hm1 & Hk1).
      destruct rest as [|q rest].
      * intros [= <- <-]. by split_and!.
      * intros H. apply IH in H as (? & ? & ?); [|done..]. split_and!; [done|congruence|done].
    + destruct (insert_update_context _ _) as [s1|] eqn:Hi.
      * apply (insert_update_context_inv P) in Hi as (Hwf1 & Hm1 & Hk1); [|done..].
        destruct rest as [|q rest].
        -- intros [= <- <-]. by split_and!.
        -- intros H. apply IH in H as (? & ? & ?); [|done..].
           split_and!; [done|congruence|done].
      * intros [= <- <-]. by split_and!.
Qed.

Lemma insert_update_contexts_inv P str node vhost status s s' ok :
  wf_mem ctx_id s -> keys_within P s -> P node vhost ->
  insert_update_contexts sz s str node vhost status = (s', ok) ->
  wf_mem ctx_id s' /\ max_size s' = max_size s /\ keys_within P s'.
Proof. intros ? ? ?. unfold insert_update_contexts. by apply insert_contexts_loop_inv. Qed.

(** *** The registry *)

Lemma registry_invariant_nodes st s :
  wf_mem (fun n => mess_id (mess n)) s -> max_size s = max_size (nodestatsmem st) ->
  registry_invariant st -> registry_invariant (set_nodestatsmem s st).
Proof.
  intros Hwf Hm [(Hn & Hh & Hc & Hnh & Hhc) Hcov].
  split; [| done]. split_and!; try done. simpl. by rewrite Hm.
Qed.

Lemma registry_invariant_modify f k st :
  (forall x, mess_id (mess (f x)) = mess_id (mess x)) ->
  registry_invariant st ->
  registry_invariant (set_nodestatsmem (modify f k (nodestatsmem st)) st).
Proof.
  intros Hf Hinv. apply registry_invariant_nodes; [| done..].
  apply wf_mem_modify; [apply Hinv | done].
Qed.

Lemma registry_invariant_balancer st bs :
  registry_invariant st -> registry_invariant (set_balancerstatsmem bs st).
Proof. by intros [(Hn & Hh & Hc & Hnh & Hhc) Hcov]. Qed.

Lemma registry_invariant_version st :
  registry_invariant st -> registry_invariant (inc_version_node st).
Proof. by intros [(Hn & Hh & Hc & Hnh & Hhc) Hcov]. Qed.

Lemma registry_invariant_tables st hs cs :
  wf_mem host_id hs -> max_size hs = max_size (hoststatsmem st) ->
  wf_mem ctx_id cs -> max_size cs = max_size (contextstatsmem st) ->
  keys_within (has_vhost hs) cs ->
  registry_invariant st ->
  registry_invariant (set_contextstatsmem cs (set_hoststatsmem hs st)).
Proof.
  intros Hwh Hmh Hwc Hmc Hk [(Hn & Hh & Hc & Hnh & Hhc) Hcov].
  split; [| by apply hosts_cover_contexts_keys].
  split_and!; try done; simpl; congruence.
Qed.

Lemma insert_update_node_wf s node id clean s' k :
  wf_mem (fun n => mess_id (mess n)) s ->
  insert_update_node now s node id clean = Some (s', k) ->
  wf_mem (fun n => mess_id (mess n)) s' /\ max_size s' = max_size s.
Proof.
  intros Hwf. unfold insert_update_node.
  destruct (id =? -1).
  - destruct (grab s) as [g|] eqn:Hg; [|done]. apply grab_Some in Hg as [_ Hg].
    intros [= <- <-]. split; [| done]. apply wf_mem_put; [done | | done].
    by destruct (clean =? 0).
  - destruct ((0 <=? id) && (id <? max_size s)) eqn:Hr; [|done].
    intros [= <- <-]. split; [| done]. apply wf_mem_put; [done | | lia].
    by destruct (clean =? 0).
Qed.

Lemma loc_remove_host_context_invariant node st :
  registry_invariant st -> registry_invariant (loc_remove_host_context node st).
Proof.
  intros Hinv. unfold loc_remove_host_context.
  destruct (loc_get_max_size_host st =? 0); [done|].
  pose proof Hinv as [(Hn & Hh & Hc & Hnh & Hhc) Hcov].
  apply hosts_cover_contexts_keys in Hcov.
  apply registry_invariant_tables; try done.
  - by apply wf_mem_remove_matching.
  - apply remove_matching_max_size.
  - by apply wf_mem_remove_matching.
  - apply remove_matching_max_size.
  - intros j c Hc'. unfold remove_contexts_of in Hc'.
    pose proof (remove_matching_all _ _ _ _ _ Hc Hc') as Hp. simpl in Hp.
    apply remove_matching_subseteq in Hc'.
    destruct (Hcov j c Hc') as (i & h & Hi & Hhn & Hhv).
    exists i, h. split_and!; try done.
    apply remove_matching_kept; [done..|]. simpl. lia.
Qed.

Lemma config_insert_vhosts_invariant vhost route id vid st :
  registry_invariant st ->
  registry_invariant (config_insert_vhosts sz vhost route id vid st).1.
Proof.
  revert vid st. induction vhost as [|phost rest IH]; intros vid st Hinv; simpl; [done|].
  pose proof Hinv as [(Hn & Hh & Hc & Hnh & Hhc) Hcov].
  apply hosts_cover_contexts_keys in Hcov.
  destruct (insert_update_hosts sz (hoststatsmem st) (ch_host phost) id vid)
    as [hs ok] eqn:Hhs.
  apply insert_update_hosts_inv in Hhs as (Hwh & Hmh & Hmono & Hnew); [|done].
  assert (registry_invariant (set_hoststatsmem hs st)) as Hinv1.
  { split; [split_and!; try done; simpl; congruence |].
    apply hosts_cover_contexts_keys. simpl.
    by apply (keys_within_mono (has_vhost (hoststatsmem st))). }
  destruct ok; simpl; [|done].
  destruct (insert_update_contexts sz (contextstatsmem st) (ch_context phost) id vid STOPPED)
    as [cs ok] eqn:Hcs.
  apply (insert_update_contexts_inv (has_vhost hs)) in Hcs as (Hwc & Hmc & Hkeys);
    [| done | by apply (keys_within_mono (has_vhost (hoststatsmem st))) | by apply Hnew].
  assert (registry_invariant (set_contextstatsmem cs (set_hoststatsmem hs st))) as Hinv2
    by by apply registry_invariant_tables.
  destruct ok; simpl; [|done]. by apply IH.
Qed.

Lemma config_vhosts_invariant vhost route id st :
  registry_invariant st -> registry_invariant (config_vhosts sz vhost route id st).1.
Proof.
  intros Hinv. unfold config_vhosts.
  repeat case_match; try done; by apply config_insert_vhosts_invariant.
Qed.

Lemma mark_node_removed_id n : mess_id (mess (mark_node_removed now n)) = mess_id (mess n).
Proof. done. Qed.

Lemma config_conflict_invariant node nodeinfo st :
  registry_invariant st -> registry_invariant (config_conflict now node nodeinfo st).1.
Proof.
  intros Hinv. unfold config_conflict. repeat case_match; try done. simpl.
  apply registry_invariant_version, loc_remove_host_context_invariant.
  by apply registry_invariant_modify.
Qed.

Lemma config_choose_slot_invariant node nodeinfo st :
  registry_invariant st ->
  registry_invariant (config_choose_slot balancerhandler node nodeinfo st).1.
Proof.
  intros Hinv.
  destruct (config_choose_slot balancerhandler node nodeinfo st) as [st1 r] eqn:H.
  revert H. unfold config_choose_slot, config_worker_exists, config_reuse_slot, step.
  intros H. simpl.
  repeat (case_match; simpl in *; simplify_eq); try done;
    by apply registry_invariant_modify.
Qed.

Lemma config_upsert_node_invariant c st :
  registry_invariant st -> registry_invariant (config_upsert_node now c st).1.
Proof.
  intros Hinv. unfold config_upsert_node.
  destruct (insert_update_node now (nodestatsmem st) (sc_nodeinfo c) (sc_id c) (sc_clean c))
    as [[s id]|] eqn:Hins.
  - apply insert_update_node_wf in Hins as [Hwf Hm]; [| apply Hinv].
    pose proof (registry_invariant_nodes st s Hwf Hm Hinv) as Hinv1.
    unfold step. repeat (case_match; simpl in *; simplify_eq); try done;
      by apply registry_invariant_version.
  - simpl. repeat case_match; try done. by apply registry_invariant_modify.
Qed.

Lemma andthen_invariant {A : Type} (x : registry * res A) f :
  registry_invariant x.1 ->
  (forall st a, registry_invariant st -> registry_invariant (f st a).1) ->
  registry_invariant (andthen x f).1.
Proof. intros Hx Hf. destruct x as [st [a|o]]; simpl in *; [by apply Hf | done]. Qed.

Lemma config_transaction_invariant nodeinfo balancerinfo vhost st :
  registry_invariant st ->
  registry_invariant
    (config_transaction sz balancerhandler now nodeinfo balancerinfo vhost st).1.
Proof.
  intros Hinv. unfold config_transaction.
  destruct (insert_update_balancer _ _) as [bs|]; [|done].
  apply andthen_invariant.
  { by apply config_conflict_invariant, registry_invariant_balancer. }
  intros st1 _ Hinv1. case_match; [done|].
  apply andthen_invariant; [by apply config_choose_slot_invariant|].
  intros st2 c Hinv2.
  apply andthen_invariant; [by apply config_upsert_node_invariant|].
  intros st3 id Hinv3. by apply config_vhosts_invariant.
Qed.

Lemma process_config_invariant ptr st :
  registry_invariant st ->
  registry_invariant (process_config sz mconf balancerhandler now ptr st).1.
Proof.
  intros Hinv. unfold process_config. case_match; [|done].
  by apply config_transaction_invariant.
Qed.

(** *** The *-APP commands *)

Lemma registry_invariant_intro st st' :
  registry_invariant st ->
  wf_mem (fun n => mess_id (mess n)) (nodestatsmem st') ->
  wf_mem host_id (hoststatsmem st') ->
  wf_mem ctx_id (contextstatsmem st') ->
  max_size (nodestatsmem st') = max_size (nodestatsmem st) ->
  max_size (hoststatsmem st') = max_size (hoststatsmem st) ->
  max_size (contextstatsmem st') = max_size (contextstatsmem st) ->
  keys_within (has_vhost (hoststatsmem st')) (contextstatsmem st') ->
  registry_invariant st'.
Proof.
  intros [(Hn & Hh & Hc & Hnh & Hhc) Hcov] ? ? ? Hmn Hmh Hmc ?.
  split; [| by apply hosts_cover_contexts_keys].
  split_and!; try done; congruence.
Qed.

Lemma node_cmd_contexts_inv P status ou ids s :
  wf_mem ctx_id s -> keys_within P s ->
  wf_mem ctx_id (node_cmd_contexts status ou ids s)
  /\ max_size (node_cmd_contexts status ou ids s) = max_size s
  /\ keys_within P (node_cmd_contexts status ou ids s).
Proof.
  revert s. induction ids as [|j ids IH]; intros s Hwf Hkeys; simpl; [done|].
  unfold get_context. destruct (slots s !! j) as [context|] eqn:Hj; [| by apply IH].
  destruct ((ctx_vhost context =? host_vhost ou) && (ctx_node context =? host_node ou));
    [| by apply IH].
  destruct (negb (status =? REMOVE)).
  - pose proof (wf_mem_modify ctx_id (set_ctx_status status) s j Hwf (fun x => eq_refl))
      as Hwf1.
    pose proof (keys_within_status P status j s Hkeys) as Hkeys1.
    destruct (insert_update_context _ _) as [s2|] eqn:Hi.
    + apply (insert_update_context_inv P) in Hi as (Hwf2 & Hm2 & Hkeys2);
        [| done | done | by apply (Hkeys j context)].
      destruct (IH s2 Hwf2 Hkeys2) as (? & Hm & ?). split_and!; [done | | done].
      by rewrite Hm, Hm2.
    + destruct (IH _ Hwf1 Hkeys1) as (? & Hm & ?). by split_and!.
  - destruct (IH (remove_context s (ctx_id context))) as (? & Hm & ?);
      [by apply wf_mem_release | by apply keys_within_release |]. by split_and!.
Qed.

Lemma node_cmd_hosts_invariant status nid ids st :
  registry_invariant st -> registry_invariant (node_cmd_hosts status nid ids st).
Proof.
  revert st. induction ids as [|i ids IH]; intros st Hinv; simpl; [done|].
  unfold get_host. destruct (slots (hoststatsmem st) !! i) as [ou|] eqn:Hi; [| by apply IH].
  destruct (negb (host_node ou =? nid)); [by apply IH|].
  apply IH.
  pose proof Hinv as [(Hn & Hh & Hc & Hnh & Hhc) Hcov].
  apply hosts_cover_contexts_keys in Hcov.
  destruct (node_cmd_contexts_inv (has_vhost (hoststatsmem st)) status ou
              (ids_used (contextstatsmem st)) (contextstatsmem st) Hc Hcov)
    as (Hwc & Hmc & Hkeys).
  destruct (Z.eqb_spec status REMOVE) as [-> | Hst].
  - apply (registry_invariant_intro st); simpl; try done; [by apply wf_mem_release |].
    intros j c Hjc. destruct (Hkeys j c Hjc) as (i' & h & Hh' & Hhn & Hhv).
    exists i', h. split_and!; try done.
    unfold remove_host, release. simpl. rewrite lookup_delete_ne; [done|].
    destruct (wf_mem_lookup host_id _ _ _ Hh Hi) as [-> _]. intros <-.
    assert (h = ou) as -> by congruence.
    rewrite node_cmd_contexts_remove in Hjc.
    apply remove_matching_all in Hjc; [| done]. simpl in Hjc. lia.
  - by apply (registry_invariant_intro st).
Qed.

Lemma node_cmd_mark_removed_wf k s :
  wf_mem (fun n => mess_id (mess n)) s ->
  wf_mem (fun n => mess_id (mess n)) (node_cmd_mark_removed now uninit_id k s)
  /\ max_size (node_cmd_mark_removed now uninit_id k s) = max_size s.
Proof.
  intros Hwf. unfold node_cmd_mark_removed.
  pose proof (wf_mem_modify (fun n => mess_id (mess n)) (on_mess (set_mess_remove 1)) s k
                Hwf (fun x => eq_refl)) as Hwf1.
  destruct (slots (modify _ k s) !! k) as [node|]; [| done].
  destruct (insert_update_node _ _ _ _ _) as [[s' id]|] eqn:Hins; [| done].
  by apply insert_update_node_wf in Hins.
Qed.

Lemma process_node_cmd_invariant status k st :
  registry_invariant st -> registry_invariant (process_node_cmd now uninit_id status k st).
Proof.
  intros Hinv. unfold process_node_cmd.
  destruct (loc_get_max_size_host st =? 0); [done|].
  destruct (slots (nodestatsmem st) !! k) as [n|]; [| done].
  pose proof (node_cmd_hosts_invariant status (mess_id (mess n))
                (ids_used (hoststatsmem st)) st Hinv) as Hinv1.
  destruct (status =? REMOVE); [| done].
  destruct (node_cmd_mark_removed_wf k (nodestatsmem (node_cmd_hosts status (mess_id (mess n))
              (ids_used (hoststatsmem st)) st))) as [Hwf Hm]; [apply Hinv1 |].
  by apply registry_invariant_nodes.
Qed.

Lemma context_remains_false vhost node s ids j c :
  context_remains vhost node s ids = false ->
  j ∈ ids -> slots s !! j = Some c ->
  ~ (ctx_vhost c = vhost /\ ctx_node c = node).
Proof.
  induction ids as [|i ids IH]; simpl; [by intros _ ?%elem_of_nil|].
  unfold get_context. intros H Hin Hc.
  apply elem_of_cons in Hin as [<- | Hin].
  - rewrite Hc in H. case_match; [done|]. lia.
  - apply IH; [| done..]. by repeat case_match.
Qed.

Lemma appl_remove_host_invariant vhost node st :
  registry_invariant st -> registry_invariant (appl_remove_host vhost node st).
Proof.
  intros Hinv. unfold appl_remove_host.
  destruct (context_remains _ _ _ _) eqn:Hrem; [done|].
  pose proof Hinv as [(Hn & Hh & Hc & Hnh & Hhc) Hcov].
  apply hosts_cover_contexts_keys in Hcov.
  apply (registry_invariant_intro st); simpl; try done.
  - by apply wf_mem_remove_matching.
  - apply remove_matching_max_size.
  - intros j c Hjc. destruct (Hcov j c Hjc) as (i & h & Hi & Hhn & Hhv).
    exists i, h. split_and!; try done.
    apply remove_matching_kept; [done..|]. simpl.
    pose proof (context_remains_false _ _ _ _ j c Hrem
                  (wf_mem_ids_used ctx_id _ _ _ Hc Hjc) Hjc). lia.
Qed.

Lemma appl_find_host_invariant status route node vhost st :
  registry_invariant st ->
  registry_invariant (appl_find_host sz status route node vhost st).1.
Proof.
  intros Hinv. unfold appl_find_host.
  destruct (read_host _ _); [done|]. destruct (status =? REMOVE); [done|].
  destruct (insert_update_hosts _ _ _ _ _) as [hs ok] eqn:Hhs.
  pose proof Hinv as [(Hn & Hh & Hc & Hnh & Hhc) Hcov].
  apply hosts_cover_contexts_keys in Hcov.
  apply insert_update_hosts_inv in Hhs as (Hwh & Hmh & Hmono & Hnew); [|done].
  assert (registry_invariant (set_hoststatsmem hs st)) as Hinv1.
  { apply (registry_invariant_intro st); simpl; try done.
    by apply (keys_within_mono (has_vhost (hoststatsmem st))). }
  destruct ok; simpl; [| done]. by case_match.
Qed.

Lemma appl_find_host_row status route node vhost st st1 hk :
  wf_mem host_id (hoststatsmem st) ->
  appl_find_host sz status route node vhost st = (st1, Go (Some hk)) ->
  exists h, slots (hoststatsmem st1) !! hk = Some h /\ host_node h = mess_id (mess node).
Proof.
  intros Hwf. unfold appl_find_host.
  assert (forall s key hk',
            read_host s (host_info key (mess_id (mess node)) 0) = Some hk' ->
            exists h, slots s !! hk' = Some h /\ host_node h = mess_id (mess node)) as Hread.
  { intros s key hk' H. apply find_slot_Some in H as (_ & x & Hx & Hp).
    exists x. split; [done|]. simpl in Hp. lia. }
  destruct (read_host _ _) as [hk0|] eqn:Hr.
  { intros [= <- <-]. by eapply Hread. }
  destruct (status =? REMOVE); [done|].
  destruct (insert_update_hosts _ _ _ _ _) as [hs ok]. destruct ok; simpl; [| done].
  destruct (read_host hs _) as [hk1|] eqn:Hr1; [| done].
  intros [= <- <-]. by eapply Hread.
Qed.

Lemma appl_context_scope_invariant status route node vhost st :
  registry_invariant st ->
  registry_invariant (appl_context_scope sz status route node vhost st).1.
Proof.
  intros Hinv. unfold appl_context_scope.
  pose proof (appl_find_host_invariant status route node vhost st Hinv) as Hinv1.
  destruct (appl_find_host sz status route node vhost st) as [st1 [host|o]] eqn:Hfind;
    simpl in *; [| done].
  destruct host as [hk|]; simpl; [| done].
  apply appl_find_host_row in Hfind as (h & Hh & Hhn); [| apply Hinv].
  unfold get_host. rewrite Hh.
  destruct (appl_enable_check status vhost st1); simpl; [| done].
  pose proof Hinv1 as [(Hn & Hwh & Hc & Hnh & Hhc) Hcov].
  apply hosts_cover_contexts_keys in Hcov.
  destruct (insert_update_contexts _ _ _ _ _ _) as [cs ok] eqn:Hcs.
  apply (insert_update_contexts_inv (has_vhost (hoststatsmem st1))) in Hcs
    as (Hwc & Hmc & Hkeys); [| done | done | by exists hk, h].
  assert (registry_invariant (set_contextstatsmem cs st1)) as Hinv2
    by by apply (registry_invariant_intro st1).
  destruct ok; simpl; [| done].
  destruct (status =? REMOVE); simpl; [by apply appl_remove_host_invariant|].
  by repeat case_match.
Qed.

Lemma process_appl_cmd_invariant ptr status global st :
  registry_invariant st ->
  registry_invariant (process_appl_cmd sz now uninit_id ptr status global st).1.
Proof.
  intros Hinv. unfold process_appl_cmd.
  destruct (appl_parse sz ptr) as [acc|]; [| done].
  destruct (read_node _ _ ≫= row_at _) as [[k node]|]; [| by case_match].
  destruct (negb (mess_remove (mess node) =? 0)); [by case_match|].
  apply registry_invariant_version in Hinv.
  destruct (negb (global =? 0)); simpl.
  - by apply process_node_cmd_invariant.
  - by apply appl_context_scope_invariant.
Qed.

(** every command keeps the invariant, whatever it returns *)
Lemma manager_handler_invariant method filename buff st :
  registry_invariant st ->
  registry_invariant
    (manager_handler sz mconf balancerhandler now uninit_id method filename buff st).1.
Proof.
  intros Hinv. unfold manager_handler.
  destruct (process_buff buff) as [ptr|]; [| done].
  destruct method; try done;
    first [by apply process_config_invariant | by apply process_appl_cmd_invariant].
Qed.

Lemma manager_init_invariant maxnode maxhost maxcontext :
  registry_invariant (manager_init maxnode maxhost maxcontext).
Proof.
  unfold manager_init. split; [| done].
  split_and!; try done; simpl; repeat case_match; lia.
Qed.

End CoverFacts.

(** ** Histories of requests *)

Section Histories.
Context (sz : clustersize) (mconf : mod_manager_config).
Context (balancerhandler : option balancer_method).

Lemma run_invariant init history :
  registry_invariant init ->
  registry_invariant (run sz mconf balancerhandler init history).
Proof.
  revert init. induction history as [|r history IH]; intros init Hinv; simpl; [done|].
  by apply IH, manager_handler_invariant.
Qed.

(** C4. In the registry left by any history of requests since
    [manager_init]: a REMOVE-APP whose path is [*] or ends in [/*], for a
    node that is found and is not marked removed, returns success; after it
    no host row and no context row carries the node's id, and the node's
    row is marked removed. *)
Theorem C4_remove_app_node_scope_cascades maxnode maxhost maxcontext history
    now uninit_id uri buff ptr acc k node :
  let st := run sz mconf balancerhandler (manager_init maxnode maxhost maxcontext) history in
  uri = "*"%string \/ ends_slash_star uri = true ->
  process_buff buff = Some ptr ->
  appl_parse sz ptr = Go acc ->
  read_node (nodestatsmem st) (af_nodeinfo acc) = Some k ->
  slots (nodestatsmem st) !! k = Some node ->
  mess_remove (mess node) = 0 ->
  exists st',
    manager_handler sz mconf balancerhandler now uninit_id REMOVE_APP
      (manager_trans_filename uri) buff st = (st', Returned None 0)
    /\ (forall i h,
          slots (hoststatsmem st') !! i = Some h -> host_node h <> mess_id (mess node))
    /\ (forall j c,
          slots (contextstatsmem st') !! j = Some c -> ctx_node c <> mess_id (mess node))
    /\ (exists row, slots (nodestatsmem st') !! k = Some row /\ mess_remove (mess row) = 1).
Proof.
  intros st Huri Hbuff Hparse Hread Hnode Hlive.
  destruct (run_invariant (manager_init maxnode maxhost maxcontext) history
              (manager_init_invariant _ _ _)) as [Hwf Hcov].
  apply (remove_app_node_scope sz mconf balancerhandler now uninit_id uri buff ptr st acc k node);
    try done.
  by apply hosts_cover_contexts_node.
Qed.

End Histories.

(** ** One row per Host and Port *)

Section AddressFacts.
Context (sz : clustersize) (mconf : mod_manager_config) (now : Z).

Lemma hostport_unique_worker_unique s : hostport_unique s -> worker_unique s.
Proof.
  intros H i a Ha j b Hb (_ & Hhost & Hport & _). by apply (H i a Ha j b Hb).
Qed.

Lemma hostport_unique_modify f k s :
  (forall x, mess_Host (mess (f x)) = mess_Host (mess x)
             /\ mess_Port (mess (f x)) = mess_Port (mess x)) ->
  hostport_unique s -> hostport_unique (modify f k s).
Proof.
  intros Hf H i a Ha j b Hb. unfold modify in Ha, Hb. simpl in Ha, Hb.
  assert (forall i a, alter f k (slots s) !! i = Some a ->
            exists a0, slots s !! i = Some a0
                       /\ mess_Host (mess a) = mess_Host (mess a0)
                       /\ mess_Port (mess a) = mess_Port (mess a0)) as Hback.
  { clear -Hf. intros i a. destruct (decide (i = k)) as [->|Hne].
    - rewrite lookup_alter_eq. destruct (slots s !! k) as [x|]; simpl; [|done].
      intros [= <-]. exists x. by destruct (Hf x).
    - rewrite lookup_alter_ne by done. by eauto. }
  apply Hback in Ha as (a0 & Ha0 & -> & ->). apply Hback in Hb as (b0 & Hb0 & -> & ->).
  by apply (H i a0 Ha0 j b0 Hb0).
Qed.

Lemma hostport_unique_put k x s :
  hostport_unique s ->
  (forall j b, slots s !! j = Some b ->
     mess_Host (mess b) = mess_Host (mess x) -> mess_Port (mess b) = mess_Port (mess x) ->
     j = k) ->
  hostport_unique (put k x s).
Proof.
  intros H Hk i a Ha j b Hb Hhost Hport. unfold put in Ha, Hb. simpl in Ha, Hb.
  destruct (decide (i = k)) as [->|Hi], (decide (j = k)) as [->|Hj]; [done | | |].
  - rewrite lookup_insert_eq in Ha. rewrite lookup_insert_ne in Hb by done.
    simplify_eq. symmetry. by apply (Hk j b).
  - rewrite lookup_insert_eq in Hb. rewrite lookup_insert_ne in Ha by done.
    simplify_eq. by apply (Hk i a).
  - rewrite lookup_insert_ne in Ha, Hb by done. by apply (H i a Ha j b Hb).
Qed.

Lemma config_choose_slot_unreconciled node nodeinfo st st1 r :
  wf_mem (fun n => mess_id (mess n)) (nodestatsmem st) ->
  hostport_unique (nodestatsmem st) ->
  config_choose_slot None node nodeinfo st = (st1, r) ->
  exists c,
    r = Go c /\ sc_removed c = 0
    /\ hostport_unique (nodestatsmem st1)
    /\ forall j b,
         slots (nodestatsmem st1) !! j = Some b ->
         mess_Host (mess b) = mess_Host (mess (sc_nodeinfo c)) ->
         mess_Port (mess b) = mess_Port (mess (sc_nodeinfo c)) ->
         j = sc_id c /\ 0 <= sc_id c < max_size (nodestatsmem st1).
Proof.
  intros Hwf Huniq. unfold config_choose_slot. simpl. unfold config_reuse_slot.
  destruct (find_node_byhostport _ _ _ ≫= row_at _) as [[wk workernode]|] eqn:Hfind.
  - apply row_at_Some in Hfind as [Hf Hwk].
    apply find_slot_Some in Hf as (Hrange & x & Hx & Hp).
    assert (x = workernode) as -> by congruence.
    apply andb_prop in Hp as [Hhost Hport].
    apply streq_true in Hhost, Hport.
    destruct (Hwf wk workernode Hwk) as [Hid _]. simpl in Hid.
    assert ((mess_id (mess workernode) =? -1) = false) as Hne by lia.
    destruct (streq _ REMOVED); simpl; rewrite Hne; intros [= <- <-];
      eexists; (split; [done|]); simpl; (split; [done|]).
    + split; [by apply hostport_unique_modify|].
      intros j b Hb Hbh Hbp. split; [| lia]. rewrite Hid.
      destruct (decide (j = wk)) as [->|Hj]; [done|].
      rewrite lookup_alter_ne in Hb by done.
      apply (Huniq j b Hb wk workernode Hwk); congruence.
    + split; [done|]. intros j b Hb Hbh Hbp. split; [| lia]. rewrite Hid.
      apply (Huniq j b Hb wk workernode Hwk); congruence.
  - simpl. intros [= <- <-]. eexists. split; [done|]. simpl. split; [done|].
    split; [done|]. intros j b Hb Hbh Hbp. exfalso.
    destruct (find_node_byhostport _ _ _) as [wk|] eqn:Hf.
    + simpl in Hfind. apply find_slot_Some in Hf as (_ & x & Hx & _).
      unfold row_at in Hfind. by rewrite Hx in Hfind.
    + apply (find_slot_None (fun n => mess_id (mess n)) _ _ j b Hwf) in Hf; [| done].
      apply andb_false_iff in Hf as [Hf | Hf]; apply streq_false in Hf; congruence.
Qed.

Lemma config_upsert_node_unreconciled c st :
  sc_removed c = 0 ->
  hostport_unique (nodestatsmem st) ->
  (forall j b,
     slots (nodestatsmem st) !! j = Some b ->
     mess_Host (mess b) = mess_Host (mess (sc_nodeinfo c)) ->
     mess_Port (mess b) = mess_Port (mess (sc_nodeinfo c)) ->
     j = sc_id c /\ 0 <= sc_id c < max_size (nodestatsmem st)) ->
  hostport_unique (nodestatsmem (config_upsert_node now c st).1).
Proof.
  intros Hrem Huniq Hslot. unfold config_upsert_node.
  destruct (insert_update_node now (nodestatsmem st) (sc_nodeinfo c) (sc_id c) (sc_clean c))
    as [[s id]|] eqn:Hins.
  - assert (hostport_unique s) as Hs.
    { revert Hins. unfold insert_update_node.
      destruct (sc_id c =? -1) eqn:Hid.
      - destruct (grab (nodestatsmem st)) as [g|]; [| done]. intros [= <- <-].
        apply hostport_unique_put; [done|]. intros j b Hb Hbh Hbp.
        destruct (Hslot j b Hb) as [_ ?]; [by destruct (sc_clean c =? 0)..|]. lia.
      - destruct ((0 <=? sc_id c) && (sc_id c <? _)); [| done]. intros [= <- <-].
        apply hostport_unique_put; [done|]. intros j b Hb Hbh Hbp.
        destruct (Hslot j b Hb) as [? _]; by destruct (sc_clean c =? 0). }
    unfold step. by repeat (case_match; simpl in *; simplify_eq).
  - simpl. rewrite Hrem. by simpl.
Qed.

Lemma config_conflict_nodes node nodeinfo st :
  nodestatsmem (config_conflict now node nodeinfo st).1 = nodestatsmem st
  \/ exists k,
       nodestatsmem (config_conflict now node nodeinfo st).1
       = modify (mark_node_removed now) k (nodestatsmem st).
Proof.
  unfold config_conflict. repeat case_match; simplify_eq; simpl; try by left.
  right. eexists. unfold loc_remove_host_context. by case_match.
Qed.

(** without a reconciler, a CONFIG keeps one row per Host and Port: the
    node goes into the slot of the row that [find_node_byhostport] finds,
    or into a free slot when there is none *)
Lemma process_config_hostport_unique ptr st :
  wf_registry st -> hostport_unique (nodestatsmem st) ->
  hostport_unique (nodestatsmem (process_config sz mconf None now ptr st).1).
Proof.
  intros Hwf Huniq. unfold process_config.
  destruct (config_parse sz mconf ptr) as [rq|]; [| done].
  unfold config_transaction.
  destruct (insert_update_balancer _ _) as [bs|]; [| done].
  set (nodeinfo := cr_nodeinfo rq).
  set (st0 := set_balancerstatsmem bs st).
  assert (forall st1,
            wf_mem (fun n => mess_id (mess n)) (nodestatsmem st1) ->
            hostport_unique (nodestatsmem st1) ->
            forall node,
            hostport_unique
              (nodestatsmem
                 (if negb (is_same_worker_existing st1 nodeinfo =? 0)
                  then (st1, Returned (Some MNODEET) TYPEMEM)
                  else
                    andthen (config_choose_slot None node nodeinfo st1) (fun st c =>
                    andthen (config_upsert_node now c st) (fun st id =>
                    config_vhosts sz (cr_vhost rq) (mess_JVMRoute (mess nodeinfo)) id st))).1))
    as Hrest.
  { intros st1 Hwf1 Huniq1 node. case_match; [done|].
    destruct (config_choose_slot None node nodeinfo st1) as [st2 r] eqn:Hch.
    apply config_choose_slot_unreconciled in Hch as (c & -> & Hrem & Huniq2 & Hslot);
      [| done..]. simpl.
    pose proof (config_upsert_node_unreconciled c st2 Hrem Huniq2 Hslot) as Huniq3.
    destruct (config_upsert_node now c st2) as [st3 [id|o]]; simpl in *; [| done].
    by rewrite (proj1 (config_vhosts_frame sz _ _ _ _)). }
  assert (wf_mem (fun n => mess_id (mess n)) (nodestatsmem st0)) as Hwf0 by apply Hwf.
  remember (read_node (nodestatsmem st0) nodeinfo ≫= row_at (nodestatsmem st0)) as node.
  clear Heqnode.
  pose proof (config_conflict_nodes node nodeinfo st0) as Hnodes.
  destruct (config_conflict now node nodeinfo st0) as [st1 [[]|o]]; simpl in *.
  - destruct Hnodes as [Hn | [k Hn]].
    + apply Hrest; by rewrite Hn.
    + apply Hrest; rewrite Hn; [by apply wf_mem_modify | by apply hostport_unique_modify].
  - destruct Hnodes as [Hn | [k Hn]]; rewrite Hn; [done | by apply hostport_unique_modify].
Qed.

Lemma appl_context_scope_nodes status route node vhost st :
  nodestatsmem (appl_context_scope sz status route node vhost st).1 = nodestatsmem st.
Proof.
  unfold appl_context_scope, appl_find_host, appl_remove_host, andthen.
  by repeat (case_match; simpl in *; simplify_eq).
Qed.

(** the indeterminate id that [process_node_cmd] hands to
    [insert_update_node] does no harm when it names no slot of the table *)
Lemma process_node_cmd_hostport_unique uninit_id status k st :
  uninit_id <> -1 -> ~ 0 <= uninit_id < max_size (nodestatsmem st) ->
  hostport_unique (nodestatsmem st) ->
  hostport_unique (nodestatsmem (process_node_cmd now uninit_id status k st)).
Proof.
  intros Hne Hout Huniq. unfold process_node_cmd.
  destruct (loc_get_max_size_host st =? 0); [done|].
  destruct (slots (nodestatsmem st) !! k) as [n|]; [| done].
  destruct (node_cmd_hosts_frame status (mess_id (mess n)) (ids_used (hoststatsmem st)) st)
    as (_ & Hn & _).
  destruct (status =? REMOVE); [| by rewrite Hn]. simpl. rewrite Hn.
  unfold node_cmd_mark_removed.
  assert (hostport_unique (modify (on_mess (set_mess_remove 1)) k (nodestatsmem st)))
    as Hmod by by apply hostport_unique_modify.
  destruct (slots (modify _ k _) !! k) as [node|]; [| done].
  unfold insert_update_node. simpl.
  assert ((uninit_id =? -1) = false) as -> by lia.
  assert ((0 <=? uninit_id) && (uninit_id <? max_size (nodestatsmem st)) = false) as ->
    by lia.
  done.
Qed.

Lemma manager_handler_hostport_unique uninit_id method filename buff st :
  wf_registry st ->
  uninit_id <> -1 -> ~ 0 <= uninit_id < max_size (nodestatsmem st) ->
  hostport_unique (nodestatsmem st) ->
  hostport_unique
    (nodestatsmem (manager_handler sz mconf None now uninit_id method filename buff st).1).
Proof.
  intros Hwf Hne Hout Huniq. unfold manager_handler.
  destruct (process_buff buff) as [ptr|]; [| done].
  assert (forall status global,
            hostport_unique
              (nodestatsmem (process_appl_cmd sz now uninit_id ptr status global st).1))
    as Happl.
  { intros status global. unfold process_appl_cmd.
    destruct (appl_parse sz ptr) as [acc|]; [| done].
    destruct (read_node _ _ ≫= row_at _) as [[k node]|]; [| by case_match].
    destruct (negb (mess_remove (mess node) =? 0)); [by case_match|].
    destruct (negb (global =? 0)); simpl.
    - by apply process_node_cmd_hostport_unique.
    - by rewrite appl_context_scope_nodes. }
  destruct method; try done; try apply Happl.
  by apply process_config_hostport_unique.
Qed.
End AddressFacts.


(** ** Facts about the parser *)

Section ParserFacts.


(** [decode_token] is the decoding of the specification followed by its
    check for forbidden characters *)
Lemma decode_token_spec s :
  decode_token s
  = if has_forbidden (percent_decode s) then None else Some (percent_decode s).
Proof.
  remember (String.length s) as n eqn:Hn. revert s Hn.
  induction (lt_wf n) as [n _ IH]. intros s ->.
  destruct s as [|c rest]; [done |].
  assert (forall r, (String.length r < String.length (String c rest))%nat ->
                    decode_token r
                    = if has_forbidden (percent_decode r) then None
                      else Some (percent_decode r)) as IH'.
  { intros r Hr. by eapply IH. }
  assert ((if forbidden c then None else String c <$> decode_token rest)
          = if has_forbidden (String c (percent_decode rest)) then None
            else Some (String c (percent_decode rest))) as Hplain.
  { rewrite IH' by (simpl; lia). simpl.
    destruct (forbidden c); [done |]. simpl.
    by destruct (has_forbidden (percent_decode rest)). }
  simpl. destruct (Ascii.eqb c "%"); [| exact Hplain].
  destruct rest as [|h1 [|h2 rest2]]; try exact Hplain.
  destruct (apr_isxdigit h1 && apr_isxdigit h2); [| exact Hplain].
  rewrite IH' by (simpl; lia). simpl.
  destruct (forbidden (chr (mod_manager_hex2c h1 h2))); [done |]. simpl.
  by destruct (has_forbidden (percent_decode rest2)).
Qed.



(** a forbidden character in a token is caught when no empty token comes
    before it *)
Lemma decodeenc_rejects pre tok rest :
  Forall (fun t => t <> EmptyString) pre ->
  has_forbidden (percent_decode tok) = true ->
  decodeenc (pre ++ tok :: rest) = None.
Proof.
  intros Hpre Hf. induction Hpre as [|t pre Ht Hpre IH]; simpl.
  - destruct tok as [|c tok]; [done |].
    by rewrite decode_token_spec, Hf.
  - destruct t as [|c t]; [done |].
    destruct (decode_token (String c t)); [| done]. by rewrite IH.
Qed.


End ParserFacts.

(** ** Further properties of the commands *)

Section Failures.
Context (sz : clustersize) (mconf : mod_manager_config).

Lemma bind_Stop {A B : Type} (m : res A) (f : A -> res B) o :
  m ≫= f = Stop o -> m = Stop o \/ exists a, m = Go a /\ f a = Stop o.
Proof. destruct m as [a|o']; [by right; eauto | intros [= ->]; by left]. Qed.

Lemma on_key_Stop {S : Type} key name val (f : string -> S -> res S) (s : S) o :
  on_key key name val f s = Stop o ->
  (forall v, f v s = Stop o -> failure o) -> failure o.
Proof.
  unfold on_key. destruct (strcaseeq key name); [| done].
  destruct val as [v|]; simpl; [by eauto | by intros [= <-]].
Qed.

Ltac stop_side :=
  let Hf := fresh "Hf" in
  intros ? Hf; unfold error in Hf; simpl in Hf; repeat case_match; by simplify_eq.

Ltac stop_steps H :=
  repeat match type of H with
  | _ ≫= _ = Stop _ =>
      let x := fresh "x" in let Hx := fresh "Hx" in
      apply bind_Stop in H as [H | (x & Hx & H)];
      [ by (apply on_key_Stop in H; [done | stop_side]) | clear Hx ]
  end;
  by (apply on_key_Stop in H; [done | stop_side]).

Lemma process_config_balancer_Stop key val bn o :
  process_config_balancer sz key val bn = Stop o -> failure o.
Proof. unfold process_config_balancer. intros H. stop_steps H. Qed.

Lemma process_config_node_Stop key val n o :
  process_config_node sz key val n = Stop o -> failure o.
Proof. unfold process_config_node. intros H. stop_steps H. Qed.

Lemma config_pair_Stop key val acc o :
  config_pair sz key val acc = Stop o -> failure o.
Proof.
  unfold config_pair. intros H.
  apply bind_Stop in H as [H | (bn & _ & H)]; [by eapply process_config_balancer_Stop|].
  apply bind_Stop in H as [H | (n & _ & H)]; [by eapply process_config_node_Stop|].
  apply bind_Stop in H as [H | (vh & _ & H)].
  { unfold config_alias in H. unfold error in H; by repeat (case_match; simplify_eq). }
  apply bind_Stop in H as [H | (vh' & _ & H)]; [| done].
  unfold config_context in H. unfold error in H; by repeat (case_match; simplify_eq).
Qed.

Lemma config_loop_Stop ptr acc o :
  config_loop sz ptr acc = Stop o -> failure o.
Proof.
  revert acc. remember (length ptr) as n eqn:Hn.
  revert ptr Hn. induction (lt_wf n) as [n _ IH]. intros ptr -> acc.
  destruct ptr as [|key rest]; simpl; [done|].
  intros H. apply bind_Stop in H as [H | (acc1 & _ & H)]; [by eapply config_pair_Stop|].
  destruct rest as [|val rest']; [by injection H as <-|].
  eapply (IH (length rest')); [simpl; lia | done | done].
Qed.

Lemma config_parse_Stop ptr o : config_parse sz mconf ptr = Stop o -> failure o.
Proof.
  unfold config_parse. intros H.
  apply bind_Stop in H as [H | (acc & _ & H)]; [by eapply config_loop_Stop|].
  unfold error in H; by repeat (case_match; simplify_eq).
Qed.

Lemma appl_pair_Stop key val acc o : appl_pair sz key val acc = Stop o -> failure o.
Proof.
  unfold appl_pair. intros H.
  apply bind_Stop in H as [H | (n & _ & H)].
  { apply on_key_Stop in H; [done | stop_side]. }
  apply bind_Stop in H as [H | (vh & _ & H)].
  { unfold deref, mbind, res_bind, bind in H. unfold error in H; by repeat (case_match; simplify_eq). }
  apply bind_Stop in H as [H | (vh' & _ & H)]; [| done].
  unfold error in H; by repeat (case_match; simplify_eq).
Qed.

Lemma appl_loop_Stop ptr acc o : appl_loop sz ptr acc = Stop o -> failure o.
Proof.
  revert acc. remember (length ptr) as n eqn:Hn.
  revert ptr Hn. induction (lt_wf n) as [n _ IH]. intros ptr -> acc.
  destruct ptr as [|key rest]; simpl; [done|].
  intros H. apply bind_Stop in H as [H | (acc1 & _ & H)]; [by eapply appl_pair_Stop|].
  destruct rest as [|val rest']; [by injection H as <-|].
  eapply (IH (length rest')); [simpl; lia | done | done].
Qed.

Lemma appl_parse_Stop ptr o : appl_parse sz ptr = Stop o -> failure o.
Proof.
  unfold appl_parse. intros H.
  apply bind_Stop in H as [H | (acc & _ & H)]; [by eapply appl_loop_Stop|].
  unfold appl_check in H. unfold error in H; by repeat (case_match; simplify_eq).
Qed.
End Failures.

Section VersionFacts.
Context (sz : clustersize) (mconf : mod_manager_config).
Context (balancerhandler : option balancer_method) (now uninit_id : Z).

Lemma config_choose_slot_version node nodeinfo st :
  version (config_choose_slot balancerhandler node nodeinfo st).1 = version st.
Proof.
  destruct (config_choose_slot balancerhandler node nodeinfo st) as [st1 r] eqn:H.
  revert H. unfold config_choose_slot, config_worker_exists, config_reuse_slot, step.
  intros H. simpl.
  by repeat (case_match; simpl in *; simplify_eq).
Qed.

Lemma config_upsert_node_Go c st st2 id :
  config_upsert_node now c st = (st2, Go id) ->
  version st2 = (version st + 1) mod 2 ^ 64.
Proof.
  unfold config_upsert_node, step. intros H.
  by repeat (case_match; simpl in *; simplify_eq).
Qed.

Lemma config_transaction_untyped nodeinfo balancerinfo vhost st st' e :
  config_transaction sz balancerhandler now nodeinfo balancerinfo vhost st
  = (st', Returned e 0) ->
  version st' = (version st + 1) mod 2 ^ 64.
Proof.
  unfold config_transaction.
  destruct (insert_update_balancer _ _) as [bs|]; [| done].
  set (st0 := set_balancerstatsmem bs st).
  destruct (config_conflict now _ nodeinfo st0) as [st1 [[]|o]] eqn:Hc; simpl.
  2:{ apply config_conflict_cases in Hc as [[? _] | (e' & [= ->] & _)]; done. }
  apply config_conflict_cases in Hc as [[_ ->] | (e' & ? & _)]; [| done].
  case_match; [done|].
  pose proof (config_choose_slot_version (read_node (nodestatsmem st0) nodeinfo
     ≫= row_at (nodestatsmem st0)) nodeinfo st0) as Hv.
  destruct (config_choose_slot _ _ _ _) as [st2 [c|o]] eqn:Hch; simpl in *.
  2:{ intros [= <- ->]. by apply config_choose_slot_errtype in Hch. }
  destruct (config_upsert_node now c st2) as [st3 [id|o]] eqn:Hup; simpl.
  2:{ intros [= <- ->]. by apply config_upsert_node_errtype in Hup. }
  apply config_upsert_node_Go in Hup. intros Hvh.
  destruct (config_vhosts_frame sz vhost (mess_JVMRoute (mess nodeinfo)) id st3) as (_ & _ & Hvv).
  rewrite Hvh in Hvv. simpl in Hvv. rewrite Hvv, Hup, Hv. done.
Qed.
End VersionFacts.

Section RowFacts.
Context (sz : clustersize).





End RowFacts.

Section ConfigStores.
Context (sz : clustersize) (mconf : mod_manager_config).
Context (balancerhandler : option balancer_method) (now : Z).


Lemma config_upsert_node_row c st st2 id :
  config_upsert_node now c st = (st2, Go id) ->
  exists row,
    slots (nodestatsmem st2) !! id = Some row
    /\ mess row = set_mess_id id (mess (sc_nodeinfo c))
    /\ updatetime row = now.
Proof.
  unfold config_upsert_node.
  destruct (insert_update_node now (nodestatsmem st) (sc_nodeinfo c) (sc_id c) (sc_clean c))
    as [[s k]|] eqn:Hins; [| done].
  assert (exists row, slots s !! k = Some row
            /\ mess row = set_mess_id k (mess (sc_nodeinfo c)) /\ updatetime row = now)
    as Hrow.
  { revert Hins. unfold insert_update_node.
    destruct (sc_id c =? -1).
    - destruct (grab _) as [g|]; [| done]. intros [= <- <-].
      eexists. unfold put. simpl. rewrite lookup_insert_eq. split; [done|].
      by destruct (sc_clean c =? 0).
    - destruct (_ && _); [| done]. intros [= <- <-].
      eexists. unfold put. simpl. rewrite lookup_insert_eq. split; [done|].
      by destruct (sc_clean c =? 0). }
  unfold step. intros H. by repeat (case_match; simpl in *; simplify_eq).
Qed.

End ConfigStores.

Section ConfigSuccess.
Context (sz : clustersize) (mconf : mod_manager_config).
Context (balancerhandler : option balancer_method) (now : Z).



End ConfigSuccess.

Section ApplStatus.
Context (sz : clustersize) (now uninit_id : Z).


End ApplStatus.

Section NodeScope.
Context (sz : clustersize) (now uninit_id : Z).

Lemma status_set_within_refl P status s : status_set_within P status s s.
Proof. split; [done|]. by left. Qed.

Lemma status_set_within_trans P status s1 s2 s3 :
  (forall c, P c -> P (set_ctx_status status c)) ->
  status_set_within P status s1 s2 -> status_set_within P status s2 s3 ->
  status_set_within P status s1 s3.
Proof.
  intros HP [Hm12 H12] [Hm23 H23]. split; [congruence|]. intros j.
  destruct (H23 j) as [Heq | (c & Hc & Hpc & Hc')].
  - rewrite Heq. apply H12.
  - destruct (H12 j) as [Heq | (c0 & Hc0 & Hpc0 & Hc0')].
    + right. exists c. by rewrite <- Heq.
    + right. exists c0. split_and!; try done. rewrite Hc'. f_equal.
      assert (c = set_ctx_status status c0) as -> by congruence. done.
Qed.

Lemma status_set_within_modify P status s j c :
  slots s !! j = Some c -> P c ->
  status_set_within P status s (modify (set_ctx_status status) j s).
Proof.
  intros Hj Hp. split; [done|]. intros i. unfold modify. simpl.
  destruct (decide (i = j)) as [->|Hne].
  - right. exists c. by rewrite lookup_alter_eq, Hj.
  - left. by rewrite lookup_alter_ne.
Qed.

Lemma status_set_within_wf P status s s' :
  wf_mem ctx_id s -> status_set_within P status s s' -> wf_mem ctx_id s'.
Proof.
  intros Hwf [Hm H] j c' Hc'. rewrite Hm.
  destruct (H j) as [Heq | (c & Hc & _ & Hc2)].
  - rewrite Heq in Hc'. by apply (Hwf j c').
  - assert (c' = set_ctx_status status c) as -> by congruence. by apply (Hwf j c).
Qed.

(** the upsert of a row that is in the table only sets a status *)
Lemma insert_update_context_present status s j c :
  wf_mem ctx_id s -> slots s !! j = Some c ->
  exists s',
    insert_update_context s (set_ctx_status status c) = Some s'
    /\ status_set_within
         (fun c' => ctx_node c' = ctx_node c /\ ctx_vhost c' = ctx_vhost c) status s s'.
Proof.
  intros Hwf Hj. unfold insert_update_context, read_context.
  destruct (find_slot _ s) as [k|] eqn:Hf.
  - eexists. split; [done|]. simpl.
    apply find_slot_Some in Hf as (_ & x & Hx & Hp). unfold same_context_key in Hp. simpl in Hp.
    eapply status_set_within_modify; [done|]. lia.
  - apply (find_slot_None ctx_id _ _ j c Hwf) in Hf; [| done].
    unfold same_context_key in Hf. simpl in Hf.
    rewrite !Z.eqb_refl in Hf. simpl in Hf. unfold streq in Hf. by rewrite String.eqb_refl in Hf.
Qed.


Lemma node_cmd_contexts_status status ou ids s :
  status <> REMOVE -> wf_mem ctx_id s ->
  status_set_within (under_host ou) status s (node_cmd_contexts status ou ids s)
  /\ forall j c,
       j ∈ ids -> slots s !! j = Some c -> under_host ou c ->
       exists c', slots (node_cmd_contexts status ou ids s) !! j = Some c'
                  /\ ctx_status c' = status.
Proof.
  intros Hst. apply Z.eqb_neq in Hst.
  assert (forall c, under_host ou c -> under_host ou (set_ctx_status status c)) as Hclosed
    by done.
  revert s. induction ids as [|i ids IH]; intros s Hwf; simpl.
  { split; [apply status_set_within_refl | by intros ? ? ?%elem_of_nil]. }
  unfold get_context. destruct (slots s !! i) as [context|] eqn:Hi.
  2:{ destruct (IH s Hwf) as [HR Hall]. split; [done|].
      intros j c Hin Hj Hu. apply elem_of_cons in Hin as [-> | Hin]; [congruence|].
      by apply (Hall j c). }
  destruct ((ctx_vhost context =? host_vhost ou) && (ctx_node context =? host_node ou)) eqn:Hm.
  2:{ destruct (IH s Hwf) as [HR Hall]. split; [done|].
      intros j c Hin Hj [Hv Hn]. apply elem_of_cons in Hin as [-> | Hin];
        [| by apply (Hall j c)].
      simplify_eq. lia. }
  rewrite Hst. simpl.
  assert (under_host ou context) as Hu by (split; lia).
  pose proof (status_set_within_modify (under_host ou) status s i context Hi Hu) as HR1.
  pose proof (status_set_within_wf _ _ _ _ Hwf HR1) as Hwf1.
  set (s1 := modify (set_ctx_status status) i s) in *.
  assert (slots s1 !! i = Some (set_ctx_status status context)) as Hi1.
  { unfold s1, modify. simpl. by rewrite lookup_alter_eq, Hi. }
  destruct (insert_update_context_present status s1 i _ Hwf1 Hi1) as (s2 & Hins & HR2).
  change (set_ctx_status status (set_ctx_status status context))
    with (set_ctx_status status context) in Hins.
  rewrite Hins.
  assert (status_set_within (under_host ou) status s1 s2) as HR2'.
  { destruct HR2 as [Hm2 HR2]. split; [done|]. intros j.
    destruct (HR2 j) as [? | (c & Hc & [Hcn Hcv] & Hc')]; [by left|]. right.
    exists c. split_and!; try done. destruct Hu. split; simpl in *; congruence. }
  pose proof (status_set_within_trans _ _ _ _ _ Hclosed HR1 HR2') as HR12.
  pose proof (status_set_within_wf _ _ _ _ Hwf HR12) as Hwf2.
  destruct (IH s2 Hwf2) as [HR3 Hall].
  split; [by eapply status_set_within_trans|].
  assert (forall j c, slots s !! j = Some c ->
            exists c2, slots s2 !! j = Some c2
                       /\ (under_host ou c -> under_host ou c2)
                       /\ (c2 = c \/ ctx_status c2 = status)) as Hstep.
  { intros j c Hj. destruct HR12 as [_ HR12].
    destruct (HR12 j) as [Heq | (c0 & Hc0 & _ & Hc2)].
    - exists c. rewrite Heq. split_and!; try done. by left.
    - assert (c0 = c) as -> by congruence. eexists. split_and!; try done. by right. }
  intros j c Hin Hj Huc.
  apply elem_of_cons in Hin as [-> | Hin].
  - assert (c = context) as -> by congruence.
    destruct HR2' as [_ HR2'].
    assert (exists c2, slots s2 !! i = Some c2 /\ ctx_status c2 = status) as (c2 & Hc2 & Hs2).
    { destruct (HR2' i) as [Heq | (c0 & Hc0 & _ & Hc2)].
      - exists (set_ctx_status status context). by rewrite Heq.
      - eexists. by split. }
    destruct HR3 as [_ HR3].
    destruct (HR3 i) as [Heq | (c0 & Hc0 & _ & Hc3)].
    + exists c2. by rewrite Heq.
    + eexists. by split.
  - destruct (Hstep j c Hj) as (c2 & Hc2 & Hu2 & Hcase).
    apply (Hall j c2 Hin Hc2). by apply Hu2.
Qed.

Lemma status_set_within_keeps P status s s' j c :
  status_set_within P status s s' -> slots s !! j = Some c ->
  exists c',
    slots s' !! j = Some c' /\ ctx_node c' = ctx_node c /\ ctx_vhost c' = ctx_vhost c
    /\ (ctx_status c = status -> ctx_status c' = status).
Proof.
  intros [_ H] Hj. destruct (H j) as [Heq | (c0 & Hc0 & _ & Hc')].
  - exists c. by rewrite Heq.
  - assert (c0 = c) as -> by congruence. eexists. by split_and!.
Qed.

Lemma status_set_within_weaken (P Q : contextinfo -> Prop) status s s' :
  (forall c, P c -> Q c) -> status_set_within P status s s' ->
  status_set_within Q status s s'.
Proof.
  intros HPQ [Hm H]. split; [done|]. intros j.
  destruct (H j) as [? | (c & ? & ? & ?)]; [by left|]. right. exists c. by split_and!; auto.
Qed.

Lemma node_cmd_hosts_status status nid ids st :
  status <> REMOVE -> wf_mem ctx_id (contextstatsmem st) ->
  let st' := node_cmd_hosts status nid ids st in
  hoststatsmem st' = hoststatsmem st
  /\ status_set_within (fun c => ctx_node c = nid) status
       (contextstatsmem st) (contextstatsmem st')
  /\ forall i h j c,
       i ∈ ids -> slots (hoststatsmem st) !! i = Some h -> host_node h = nid ->
       slots (contextstatsmem st) !! j = Some c ->
       ctx_node c = nid -> ctx_vhost c = host_vhost h ->
       exists c', slots (contextstatsmem st') !! j = Some c' /\ ctx_status c' = status.
Proof.
  intros Hst. pose proof (proj2 (Z.eqb_neq _ _) Hst) as Hstb.
  assert (forall c, ctx_node c = nid -> ctx_node (set_ctx_status status c) = nid) as Hclosed
    by done.
  revert st. induction ids as [|i ids IH]; intros st Hwf; simpl.
  { split_and!; [done | apply status_set_within_refl |].
    intros ? ? ? ? Hin. by apply elem_of_nil in Hin. }
  unfold get_host. destruct (slots (hoststatsmem st) !! i) as [ou|] eqn:Hi.
  2:{ destruct (IH st Hwf) as (Hh & HR & Hall). split_and!; try done.
      intros i' h j c Hin Hh' Hn Hj Hcn Hcv.
      apply elem_of_cons in Hin as [-> | Hin]; [congruence|].
      by apply (Hall i' h j c). }
  destruct (Z.eqb_spec (host_node ou) nid) as [Hou | Hou]; simpl.
  2:{ destruct (IH st Hwf) as (Hh & HR & Hall). split_and!; try done.
      intros i' h j c Hin Hh' Hn Hj Hcn Hcv.
      apply elem_of_cons in Hin as [-> | Hin]; [congruence|].
      by apply (Hall i' h j c). }
  rewrite Hstb.
  destruct (node_cmd_contexts_status status ou (ids_used (contextstatsmem st))
              (contextstatsmem st) Hst Hwf) as [HR1 Hdone].
  set (cs1 := node_cmd_contexts status ou _ _) in *.
  assert (status_set_within (fun c => ctx_node c = nid) status (contextstatsmem st) cs1)
    as HR1'.
  { eapply status_set_within_weaken; [| exact HR1]. intros c [_ Hc]. congruence. }
  pose proof (status_set_within_wf _ _ _ _ Hwf HR1') as Hwf1.
  destruct (IH (set_contextstatsmem cs1 st) Hwf1) as (Hh & HR & Hall). simpl in *.
  split_and!; [done | by eapply status_set_within_trans |].
  intros i' h j c Hin Hh' Hn Hj Hcn Hcv.
  destruct (status_set_within_keeps _ _ _ _ j c HR1' Hj) as (c1 & Hc1 & Hn1 & Hv1 & _).
  apply elem_of_cons in Hin as [-> | Hin].
  - assert (h = ou) as -> by congruence.
    destruct (Hdone j c) as (c1' & Hc1' & Hs1);
      [by eapply wf_mem_ids_used | done | split; congruence |].
    assert (c1' = c1) as -> by congruence.
    destruct (status_set_within_keeps _ _ _ _ j c1 HR Hc1) as (c2 & Hc2 & _ & _ & Hs2).
    exists c2. by auto.
  - apply (Hall i' h j c1); try done; congruence.
Qed.

(** X10. An ENABLE-APP, DISABLE-APP or STOP-APP in node scope for a node
    that is not marked removed, on a registry that satisfies the invariant
    of X1: the command returns success, the node and host tables stay as
    they are, and the context table is the old one with the status of every
    context of the node replaced by the status of the command. *)
Theorem X10_node_scope_sets_status ptr status st acc k node :
  appl_parse sz ptr = Go acc ->
  read_node (nodestatsmem st) (af_nodeinfo acc) = Some k ->
  slots (nodestatsmem st) !! k = Some node ->
  mess_remove (mess node) = 0 ->
  status <> REMOVE ->
  registry_invariant st ->
  exists st',
    process_appl_cmd sz now uninit_id ptr status 1 st = (st', Returned None 0)
    /\ nodestatsmem st' = nodestatsmem st
    /\ hoststatsmem st' = hoststatsmem st
    /\ forall j,
         slots (contextstatsmem st') !! j
         = (fun c => if ctx_node c =? mess_id (mess node)
                     then set_ctx_status status c else c)
           <$> slots (contextstatsmem st) !! j.
Proof.
  intros Hparse Hread Hnode Hlive Hst [Hwf Hcov].
  unfold process_appl_cmd. rewrite Hparse, Hread. simpl.
  unfold row_at. rewrite Hnode. simpl. rewrite Hlive. simpl.
  eexists. split; [done|].
  unfold process_node_cmd, loc_get_max_size_host. simpl.
  destruct (Z.eqb_spec (max_size (hoststatsmem st)) 0) as [Hz | _].
  { by apply (wf_registry_host_room st k node Hwf) in Hz. }
  rewrite Hnode. simpl. rewrite (proj2 (Z.eqb_neq _ _) Hst).
  set (nid := mess_id (mess node)).
  destruct Hwf as (Hwn & Hwh & Hwc & _).
  destruct (node_cmd_hosts_frame status nid (ids_used (hoststatsmem st)) (inc_version_node st))
    as (_ & Hn & _).
  destruct (node_cmd_hosts_status status nid (ids_used (hoststatsmem st))
              (inc_version_node st) Hst Hwc) as (Hh & [_ HR] & Hall). simpl in *.
  split_and!; [done | done |].
  intros j. destruct (slots (contextstatsmem st) !! j) as [c|] eqn:Hj; simpl.
  - destruct (Z.eqb_spec (ctx_node c) nid) as [Hcn | Hcn].
    + apply hosts_cover_contexts_keys in Hcov.
      destruct (Hcov j c Hj) as (i & h & Hi & Hhn & Hhv).
      destruct (Hall i h j c) as (c' & Hc' & Hs');
        [by eapply wf_mem_ids_used | done | congruence | done | done | done |].
      rewrite Hc'. f_equal.
      destruct (HR j) as [Heq | (c0 & Hc0 & _ & Hc2)].
      * rewrite Heq, Hj in Hc'. simplify_eq. by destruct c'.
      * congruence.
    + destruct (HR j) as [Heq | (c0 & Hc0 & Hn0 & _)]; [by rewrite Heq|]. congruence.
  - destruct (HR j) as [Heq | (c0 & Hc0 & _)]; [by rewrite Heq | congruence].
Qed.
End NodeScope.

Section Bounds.
Context (sz : clustersize) (mconf : mod_manager_config).

Lemma strlen_strncpy n s : strlen (strncpy n s) <= Z.of_nat n.
Proof.
  unfold strlen. revert s. induction n as [|n IH]; intros [|c s]; simpl; try lia.
  specialize (IH s). lia.
Qed.

Lemma strlen_strncpy_le n s : strlen (strncpy n s) <= strlen s.
Proof.
  unfold strlen. revert s. induction n as [|n IH]; intros [|c s]; simpl; try lia.
  specialize (IH s). lia.
Qed.

Lemma strlen_str_tolower s : strlen (str_tolower s) = strlen s.
Proof. unfold strlen. induction s as [|c s IH]; simpl; [done | lia]. Qed.

Lemma strlen_strip_zone flag s : strlen (strip_zone flag s) <= strlen s.
Proof.
  unfold strlen. revert flag. induction s as [|c s IH]; intros flag; simpl; [done|].
  case_match; simpl; [specialize (IH true) | specialize (IH flag)]; lia.
Qed.

Lemma strlen_host_value s : strlen (host_value s) <= strlen s.
Proof.
  unfold host_value. destruct s as [|c s]; [done|].
  repeat case_match; try done; apply strlen_strip_zone.
Qed.

Lemma too_big_false v size : too_big v size = false -> strlen v < size.
Proof. unfold too_big. lia. Qed.

Lemma config_loop_inv (P : balancerinfo -> nodeinfo -> Prop) ptr acc acc' :
  (forall key val bn bn',
     process_config_balancer sz key val bn = Go bn' -> P bn.1 bn.2 -> P bn'.1 bn'.2) ->
  (forall key val b n n',
     process_config_node sz key val n = Go n' -> P b n -> P b n') ->
  config_loop sz ptr acc = Go acc' ->
  P (cf_balancerinfo acc) (cf_nodeinfo acc) ->
  P (cf_balancerinfo acc') (cf_nodeinfo acc').
Proof.
  intros Hb Hn. revert acc. remember (length ptr) as n eqn:Hlen.
  revert ptr Hlen. induction (lt_wf n) as [n _ IH]. intros ptr -> acc.
  destruct ptr as [|key rest]; simpl; [by intros [= <-] |].
  intros H HP. apply bind_Go in H as (acc1 & H1 & H).
  destruct rest as [|val rest']; [done |].
  eapply (IH (length rest')); [simpl; lia | done | done |].
  revert H1. unfold config_pair. intros H1.
  apply bind_Go in H1 as (bn & Hbn & H1). apply Hb in Hbn; [| done].
  apply bind_Go in H1 as (n' & Hn' & H1). apply (Hn _ _ bn.1) in Hn'; [| done].
  apply bind_Go in H1 as (vh & _ & H1).
  apply bind_Go in H1 as (vh' & _ & H1).
  by injection H1 as <-.
Qed.


Ltac fit_side :=
  let Hf := fresh "Hf" in let Hp := fresh "Hp" in
  intros ? ? ? Hf Hp; simpl in Hf;
  repeat match type of Hf with
  | (if too_big ?v ?s then _ else _) = _ =>
      let E := fresh "E" in
      destruct (too_big v s) eqn:E; [done | apply too_big_false in E]
  | (Go _) = Go _ => injection Hf as <-
  end;
  unfold fields_fit, balancer_fields_fit, node_fields_fit in *; simpl in *;
  repeat case_match; simpl;
  repeat match goal with
  | |- context [strlen (strncpy ?n ?s)] =>
      lazymatch goal with
      | _ : strlen (strncpy n s) <= Z.of_nat n |- _ => fail
      | _ => pose proof (strlen_strncpy n s)
      end
  | |- context [strlen (host_value ?s)] =>
      lazymatch goal with
      | _ : strlen (host_value s) <= strlen s |- _ => fail
      | _ => pose proof (strlen_host_value s)
      end
  end;
  unfold strlen in *; lia.

Ltac fit_steps H H0 :=
  repeat match type of H with
  | _ ≫= _ = Go _ =>
      let x := fresh "x" in let Hx := fresh "Hx" in
      apply bind_Go in H as (x & Hx & H);
      apply (on_key_inv (fun y => fields_fit sz y.1 y.2)) in Hx;
      [ clear H0; rename Hx into H0 | fit_side | assumption ]
  end;
  apply (on_key_inv (fun y => fields_fit sz y.1 y.2)) in H; [ | fit_side | assumption ].

Lemma process_config_balancer_fit key val bn bn' :
  process_config_balancer sz key val bn = Go bn' -> fields_fit sz bn.1 bn.2 -> fields_fit sz bn'.1 bn'.2.
Proof.
  unfold process_config_balancer. intros H H0.
  fit_steps H H0. done.
Qed.

Lemma process_config_node_fit key val b n n' :
  process_config_node sz key val n = Go n' -> fields_fit sz b n -> fields_fit sz b n'.
Proof.
  unfold process_config_node. intros H H0.
  change (fields_fit sz b n) with ((fun y : balancerinfo * nodeinfo => fields_fit sz y.1 y.2) (b, n)) in H0.
  assert (forall m m' : nodeinfo, True) as _ by done.
  set (P := fun x : nodeinfo => fields_fit sz b x).
  assert (P n) as HP by done. clear H0.
  repeat match type of H with
  | _ ≫= _ = Go _ =>
      let x := fresh "x" in let Hx := fresh "Hx" in
      apply bind_Go in H as (x & Hx & H);
      apply (on_key_inv P) in Hx;
      [ clear HP; rename Hx into HP | unfold P; fit_side | assumption ]
  end.
  apply (on_key_inv P) in H; [ done | unfold P; fit_side | assumption ].
Qed.

Lemma config_defaults_fit :
  defaults_fit sz ->
  fields_fit sz (cf_balancerinfo (config_defaults sz mconf)) (cf_nodeinfo (config_defaults sz mconf)).
Proof.
  intros (? & ? & ? & ? & ? & ? & ? & ? & ?).
  unfold fields_fit, balancer_fields_fit, node_fields_fit, config_defaults,
    process_config_balancer_defaults, process_config_node_defaults, default_balancer_name.
  simpl. destruct (balancername mconf) as [name|]; simpl;
    try pose proof (strlen_strncpy (Z.to_nat (BALANCERSZ sz - 1)) (str_tolower name));
    unfold strlen in *; simpl; lia.
Qed.

Lemma config_rewrites_fit n :
  defaults_fit sz -> node_fields_fit sz n -> node_fields_fit sz (config_rewrites sz mconf n).
Proof.
  intros (? & ? & ? & ? & ? & ? & ? & ? & ?).
  unfold config_rewrites, config_response_field_size, config_ajp_secret, config_ws_tunnel,
    node_fields_fit.
  intros Hn.
  repeat case_match; simpl in *;
    repeat match goal with
    | |- context [strlen (strncpy ?n ?s)] =>
        lazymatch goal with
        | _ : strlen (strncpy n s) <= Z.of_nat n |- _ => fail
        | _ => pose proof (strlen_strncpy n s)
        end
    end;
    unfold strlen in *; simpl in *; lia.
Qed.

(** X5. Every [strcpy] of the CONFIG field loop stays inside its field:
    after a CONFIG has passed the field checks, each string of the node and
    of the balancer is shorter than the array it is copied to. *)
Theorem X5_config_parse_fields_fit ptr rq :
  defaults_fit sz ->
  config_parse sz mconf ptr = Go rq ->
  node_fields_fit sz (cr_nodeinfo rq) /\ balancer_fields_fit sz (cr_balancerinfo rq).
Proof.
  intros Hsz. unfold config_parse. intros H.
  apply bind_Go in H as (acc & Hloop & H).
  apply (config_loop_inv (fields_fit sz)) in Hloop as [Hb Hn].
  - case_match; [done|]. injection H as <-. simpl. split; [| done].
    by apply config_rewrites_fit.
  - apply process_config_balancer_fit.
  - apply process_config_node_fit.
  - by apply config_defaults_fit.
Qed.
End Bounds.

Section UnknownKeys.
Context (sz : clustersize) (mconf : mod_manager_config).
Context (balancerhandler : option balancer_method) (now : Z).

Lemma config_pair_unknown key val acc :
  unknown_key config_keys key -> config_pair sz key val acc = Go acc.
Proof.
  intros H. unfold unknown_key, config_keys in H.
  repeat (apply Forall_cons in H as [? H]).
  unfold config_pair, process_config_balancer, process_config_node, config_alias,
    config_context, on_key.
  repeat match goal with Hk : strcaseeq key _ = false |- _ => rewrite Hk; clear Hk end.
  simpl. by destruct acc.
Qed.

Lemma config_loop_skips pre key v post acc :
  Nat.Even (length pre) -> unknown_key config_keys key ->
  config_loop sz (pre ++ key :: v :: post) acc = config_loop sz (pre ++ post) acc.
Proof.
  intros Hev Hkey. revert acc. remember (length pre) as n eqn:Hn.
  revert pre Hn Hev. induction (lt_wf n) as [n _ IH]. intros pre -> Hev acc.
  destruct pre as [|k1 [|v1 pre]].
  - simpl. by rewrite config_pair_unknown.
  - destruct Hev as [m Hm]. simpl in Hm. lia.
  - simpl. destruct (config_pair sz k1 (Some v1) acc) as [acc1|]; simpl; [| done].
    eapply (IH (length pre)); [simpl; lia | done |].
    destruct Hev as [m Hm]. simpl in Hm. exists (m - 1)%nat. lia.
Qed.

(** X6. CONFIG skips a field whose key it does not know: the command does
    the same, to the registry and in its answer, with and without the
    pair. *)
Theorem X6_process_config_skips_unknown_key pre key v post st :
  Nat.Even (length pre) -> unknown_key config_keys key ->
  process_config sz mconf balancerhandler now (pre ++ key :: v :: post) st
  = process_config sz mconf balancerhandler now (pre ++ post) st.
Proof.
  intros Hev Hkey. unfold process_config, config_parse.
  by rewrite config_loop_skips.
Qed.
End UnknownKeys.

Section DecodeFacts.

Lemma has_forbidden_c_str s : has_forbidden s = false -> has_forbidden (c_str s) = false.
Proof.
  induction s as [|c s IH]; simpl; [done|]. intros H.
  apply orb_false_iff in H as [Hc Hs]. case_match; simpl; [done|].
  rewrite Hc. by apply IH.
Qed.

Lemma strlen_c_str s : (String.length (c_str s) <= String.length s)%nat.
Proof. induction s as [|c s IH]; simpl; [done|]. case_match; simpl; lia. Qed.

Lemma percent_decode_length s : (String.length (percent_decode s) <= String.length s)%nat.
Proof.
  remember (String.length s) as n eqn:Hn. revert s Hn.
  induction (lt_wf n) as [n _ IH]. intros s ->.
  destruct s as [|c s]; simpl; [done|].
  assert (forall t, (String.length t <= String.length s)%nat ->
            (String.length (percent_decode t) <= String.length t)%nat) as IH'.
  { intros t Ht. eapply IH; [| done]. simpl. lia. }
  destruct (Ascii.eqb c "%"); [| specialize (IH' s); simpl; lia].
  destruct s as [|h1 [|h2 s2]]; simpl; try lia.
  - specialize (IH' (String h1 EmptyString)). simpl in *. lia.
  - destruct (apr_isxdigit h1 && apr_isxdigit h2); simpl.
    + specialize (IH' s2). simpl in *. lia.
    + specialize (IH' (String h1 (String h2 s2))). simpl in *. lia.
Qed.

Lemma c_str_idem s : c_str (c_str s) = c_str s.
Proof.
  induction s as [|a s IH]; simpl; [done|].
  destruct (Ascii.eqb a NUL) eqn:E; simpl; [done|]. by rewrite E, IH.
Qed.

Lemma decodeenc_full ptr :
  Forall (fun t => t <> EmptyString) ptr ->
  decodeenc ptr
  = if existsb (fun t => has_forbidden (percent_decode t)) ptr then None
    else Some ((fun t => c_str (percent_decode t)) <$> ptr).
Proof.
  induction ptr as [|tok rest IH]; intros Hne; [done|].
  apply Forall_cons in Hne as [Htok Hrest]. simpl.
  destruct tok as [|c tok]; [done|].
  rewrite decode_token_spec.
  destruct (has_forbidden (percent_decode (String c tok))); [done|]. simpl.
  rewrite (IH Hrest). by destruct (existsb _ rest).
Qed.

(** X7. For a body none of whose tokens is empty, [process_buff] fails
    exactly when a token holds a forbidden character once its [%HH] pairs
    are decoded; otherwise it hands on every token decoded and cut at its
    first NUL, so that no token handed on holds a forbidden character or a
    NUL. *)
Theorem X7_process_buff_without_empty_tokens buff :
  Forall (fun t => t <> EmptyString) (tokenize buff) ->
  match process_buff buff with
  | None => Exists (fun t => has_forbidden (percent_decode t) = true) (tokenize buff)
  | Some ptr =>
      ptr = (fun t => c_str (percent_decode t)) <$> tokenize buff
      /\ Forall (fun t => has_forbidden (percent_decode t) = false) (tokenize buff)
      /\ Forall (fun t => has_forbidden t = false /\ c_str t = t) ptr
  end.
Proof.
  intros Hne. unfold process_buff. rewrite (decodeenc_full _ Hne).
  destruct (existsb _ _) eqn:Hex.
  - apply existsb_exists in Hex as (t & Hin & Ht). apply List.Exists_exists.
    by exists t.
  - assert (Forall (fun t => has_forbidden (percent_decode t) = false) (tokenize buff))
      as Hall.
    { apply List.Forall_forall. intros t Hin.
      destruct (has_forbidden (percent_decode t)) eqn:Ht; [| done].
      assert (existsb (fun t => has_forbidden (percent_decode t)) (tokenize buff) = true)
        as Hc; [| congruence].
      apply existsb_exists. by exists t. }
    split_and!; [done | done |].
    apply Forall_fmap. eapply Forall_impl; [exact Hall|]. simpl.
    intros t Ht. split; [by apply has_forbidden_c_str | apply c_str_idem].
Qed.

(** X8. The decoding is done in place and never needs more room than the
    token has: every token [process_buff] hands on is at most as long as the
    token of the body it comes from. *)
Theorem X8_process_buff_tokens_shrink buff ptr :
  process_buff buff = Some ptr ->
  Forall2 (fun raw tok => strlen tok <= strlen raw) (tokenize buff) ptr.
Proof.
  unfold process_buff. generalize (tokenize buff). intros raw. revert ptr.
  induction raw as [|t raw IH]; intros ptr; simpl.
  - intros [= <-]. constructor.
  - destruct t as [|c t].
    + intros [= <-]. apply Forall_Forall2_diag, Forall_true. intros x. lia.
    + rewrite decode_token_spec.
      pose proof (strlen_c_str (percent_decode (String c t))) as H1.
      pose proof (percent_decode_length (String c t)) as H2.
      generalize dependent (String c t). intros tok H1 H2.
      destruct (has_forbidden _); [done|].
      destruct (decodeenc raw) as [rest|]; [| done]. simpl. intros [= <-].
      constructor; [| by apply IH].
      unfold strlen. lia.
Qed.
End DecodeFacts.

Section SplitFacts.

Lemma tokenize_cons s : exists t ts, tokenize s = t :: ts.
Proof. induction s as [|c s IH]; simpl; [by eauto|]. repeat case_match; eauto. Qed.

(** X22. The tokens [process_buff] cuts a body into hold no ['&'] and no
    ['=']; put end to end they are the body without these separators, so
    nothing but the separators is lost. *)
Theorem X22_tokenize_keeps_the_body s :
  Forall (fun t => count_separators t = O) (tokenize s)
  /\ String.concat EmptyString (tokenize s) = without_separators s.
Proof.
  induction s as [|c s [IHf IHc]]; simpl.
  { split; [repeat constructor | done]. }
  destruct (is_separator c) eqn:Hc.
  - split; [by constructor|]. simpl.
    destruct (tokenize_cons s) as (t & ts & Hts). rewrite Hts in *. done.
  - destruct (tokenize s) as [|t ts] eqn:Hts;
      [destruct (tokenize_cons s) as (? & ? & ?); congruence|].
    apply Forall_cons in IHf as [Ht Hrest]. split.
    + constructor; [| done]. simpl. by rewrite Hc.
    + simpl in *. destruct ts; simpl in *; by rewrite <- IHc.
Qed.

(** X23. The pieces [insert_update_hosts] and [insert_update_contexts] walk
    through hold no comma, and joined by commas they are the string that
    was given: every alias and every context of the list gets its turn,
    the empty ones too. *)
Theorem X23_split_commas_round_trip s :
  Forall (fun p => holds ","%char p = false) (split_commas s)
  /\ String.concat ","%string (split_commas s) = s.
Proof.
  induction s as [|c s [IHf IHc]]; simpl.
  { split; [repeat constructor | done]. }
  destruct (Ascii.eqb c ","%char) eqn:Hc.
  - apply Ascii.eqb_eq in Hc as ->. split; [by constructor|]. simpl.
    destruct (split_commas_cons s) as (t & ts & Hts). rewrite Hts in *.
    by rewrite IHc.
  - destruct (split_commas s) as [|t ts] eqn:Hts;
      [destruct (split_commas_cons s) as (? & ? & ?); congruence|].
    apply Forall_cons in IHf as [Ht Hrest]. split.
    + constructor; [| done]. simpl. by rewrite Hc.
    + simpl in *. destruct ts; simpl in *; by rewrite <- IHc.
Qed.
End SplitFacts.

Section FirstMatch.
Context {A : Type}.

Lemma first_match_seqZ_least (p : A -> bool) (s : mem A) a n k :
  first_match p s (List.filter (used s) (seqZ a n)) = Some k ->
  forall j x, a <= j < k -> slots s !! j = Some x -> p x = false.
Proof.
  remember (Z.to_nat n) as m eqn:Hm. revert a n Hm.
  induction m as [|m IH]; intros a n Hm.
  - rewrite seqZ_nil by lia. done.
  - rewrite seqZ_cons by lia. simpl. unfold used at 1.
    destruct (slots s !! a) as [y|] eqn:Ha; simpl.
    + rewrite Ha. destruct (p y) eqn:Hp.
      * intros [= <-] j x Hj. lia.
      * intros H j x Hj Hx. destruct (decide (j = a)) as [-> | Hne]; [congruence|].
        apply (IH (Z.succ a) (Z.pred n) ltac:(lia) H j x); [lia | done].
    + intros H j x Hj Hx. destruct (decide (j = a)) as [-> | Hne]; [congruence|].
      apply (IH (Z.succ a) (Z.pred n) ltac:(lia) H j x); [lia | done].
Qed.

Lemma find_slot_least (p : A -> bool) (s : mem A) k :
  find_slot p s = Some k ->
  forall j x, 0 <= j < k -> slots s !! j = Some x -> p x = false.
Proof. apply first_match_seqZ_least. Qed.

Lemma first_match_exists (p : A -> bool) (s : mem A) ids k x :
  k ∈ ids -> slots s !! k = Some x -> p x = true ->
  exists j, first_match p s ids = Some j.
Proof.
  induction ids as [|i ids IH]; [by intros ?%elem_of_nil|].
  intros Hin Hk Hp. simpl. destruct (slots s !! i) as [y|] eqn:Hi.
  - destruct (p y) eqn:Hy; [by eauto|].
    apply elem_of_cons in Hin as [-> | Hin]; [congruence | by apply IH].
  - apply elem_of_cons in Hin as [-> | Hin]; [congruence | by apply IH].
Qed.
End FirstMatch.

Section RemoveTwice.
Context (sz : clustersize).

Lemma appl_pair_lookup key val acc acc' :
  appl_pair sz key val acc = Go acc' ->
  mess_JVMRoute (mess (af_nodeinfo acc)) = EmptyString
  \/ mess_id (mess (af_nodeinfo acc)) = -1 ->
  mess_JVMRoute (mess (af_nodeinfo acc')) = EmptyString
  \/ mess_id (mess (af_nodeinfo acc')) = -1.
Proof.
  unfold appl_pair, on_key. intros H Hinv.
  unfold mbind, res_bind, bind, deref, error in H.
  repeat (case_match; simpl in *; simplify_eq); auto.
Qed.

Lemma appl_loop_lookup ptr acc acc' :
  appl_loop sz ptr acc = Go acc' ->
  mess_JVMRoute (mess (af_nodeinfo acc)) = EmptyString
  \/ mess_id (mess (af_nodeinfo acc)) = -1 ->
  mess_JVMRoute (mess (af_nodeinfo acc')) = EmptyString
  \/ mess_id (mess (af_nodeinfo acc')) = -1.
Proof.
  revert acc. remember (length ptr) as n eqn:Hn.
  revert ptr Hn. induction (lt_wf n) as [n _ IH]. intros ptr -> acc.
  destruct ptr as [|key rest]; simpl; [by intros [= <-] |].
  intros H Hinv. apply bind_Go in H as (acc1 & H1 & H).
  apply appl_pair_lookup in H1; [| done].
  destruct rest as [|val rest']; [done |].
  eapply (IH (length rest')); [simpl; lia | done | done | done].
Qed.

(** a *-APP command that passed the checks looks its node up by JVMRoute *)
Lemma appl_parse_by_route ptr acc :
  appl_parse sz ptr = Go acc -> mess_id (mess (af_nodeinfo acc)) = -1.
Proof.
  unfold appl_parse. intros H. apply bind_Go in H as (acc1 & Hloop & H).
  apply appl_loop_lookup in Hloop; [| by left].
  unfold appl_check in H. destruct (streq _ EmptyString) eqn:E; [done|].
  apply streq_false in E.
  assert (acc = acc1) as -> by (by repeat (case_match; simplify_eq)).
  by destruct Hloop.
Qed.

Context (now uninit_id : Z).

Lemma node_cmd_mark_removed_rows k s node :
  slots s !! k = Some node ->
  let s2 := node_cmd_mark_removed now uninit_id k s in
  max_size s2 = max_size s
  /\ (exists r, slots s2 !! k = Some r
        /\ mess_JVMRoute (mess r) = mess_JVMRoute (mess node) /\ mess_remove (mess r) = 1)
  /\ forall j r, slots s2 !! j = Some r ->
       slots s !! j = Some r
       \/ mess_JVMRoute (mess r) = mess_JVMRoute (mess node) /\ mess_remove (mess r) = 1.
Proof.
  intros Hk. unfold node_cmd_mark_removed. simpl.
  rewrite lookup_alter_eq, Hk. simpl.
  unfold insert_update_node.
  remember (modify (on_mess (set_mess_remove 1)) k s) as s1 eqn:Es1.
  assert (Hm1 : max_size s1 = max_size s) by (by subst s1).
  assert (Hs1 : forall j r, slots s1 !! j = Some r ->
            slots s !! j = Some r
            \/ mess_JVMRoute (mess r) = mess_JVMRoute (mess node) /\ mess_remove (mess r) = 1).
  { intros j r. subst s1. simpl. destruct (decide (j = k)) as [-> | Hne].
    - rewrite lookup_alter_eq, Hk. simpl. intros [= <-]. by right.
    - rewrite lookup_alter_ne by done. by left. }
  assert (Hk1 : slots s1 !! k = Some (on_mess (set_mess_remove 1) node)).
  { subst s1. simpl. by rewrite lookup_alter_eq, Hk. }
  match goal with |- context [match ?i with Some _ => _ | None => None end] =>
    destruct i as [g|] end; simpl.
  - split; [done|]. split.
    + destruct (decide (k = g)) as [-> | Hne].
      * rewrite lookup_insert_eq. eexists. split; [done|]. done.
      * rewrite lookup_insert_ne by done. rewrite Hk1. eexists. split; [done|]. done.
    + intros j r. destruct (decide (j = g)) as [-> | Hne].
      * rewrite lookup_insert_eq. intros [= <-]. by right.
      * rewrite lookup_insert_ne by done. apply Hs1.
  - split; [done|]. split; [| apply Hs1].
    rewrite Hk1. eexists. split; [done|]. done.
Qed.




(** a REMOVE-APP in node scope leaves the JVMRoute of the message on a row
    that is marked removed, and this is the row a lookup by JVMRoute finds *)
Lemma remove_app_marks_route ptr acc k node st :
  appl_parse sz ptr = Go acc ->
  read_node (nodestatsmem st) (af_nodeinfo acc) = Some k ->
  slots (nodestatsmem st) !! k = Some node -> mess_remove (mess node) = 0 ->
  max_size (nodestatsmem st) <= max_size (hoststatsmem st) ->
  exists st1 j y,
    process_appl_cmd sz now uninit_id ptr REMOVE 1 st = (st1, Returned None 0)
    /\ find_node (nodestatsmem st1) (mess_JVMRoute (mess (af_nodeinfo acc))) = Some j
    /\ slots (nodestatsmem st1) !! j = Some y
    /\ mess_remove (mess y) = 1
    /\ mess_JVMRoute (mess y) = mess_JVMRoute (mess (af_nodeinfo acc)).
Proof.
  intros Hparse Hread Hk Hlive Hsz.
  pose proof (appl_parse_by_route _ _ Hparse) as Hid.
  unfold read_node in Hread. rewrite Hid in Hread. simpl in Hread.
  unfold find_node in *.
  set (p := fun ou : nodeinfo => streq (mess_JVMRoute (mess ou)) (mess_JVMRoute (mess (af_nodeinfo acc)))) in *.
  pose proof (find_slot_Some _ _ _ Hread) as (Hrange & x & Hx & Hpx).
  rewrite Hk in Hx. injection Hx as <-.
  pose proof (find_slot_least _ _ _ Hread) as Hleast.
  unfold process_appl_cmd at 1. rewrite Hparse.
  unfold read_node. rewrite Hid. simpl. fold p. unfold find_node. fold p. rewrite Hread.
  simpl. unfold row_at. rewrite Hk. simpl. rewrite Hlive. simpl.
  unfold process_node_cmd. simpl.
  unfold loc_get_max_size_host. simpl.
  destruct (max_size (hoststatsmem st) =? 0) eqn:E; [lia|].
  rewrite Hk.
  match goal with |- context [node_cmd_hosts ?a ?b ?c ?d] =>
    pose proof (node_cmd_hosts_frame a b c d) as (_ & Hn & _);
    set (sth := node_cmd_hosts a b c d) in * end.
  simpl in Hn. rewrite Hn.
  pose proof (node_cmd_mark_removed_rows k _ _ Hk) as (Hmax & (r & Hr & Hroute & Hrem) & Hrows).
  set (s2 := node_cmd_mark_removed now uninit_id k (nodestatsmem st)) in *.
  assert (Hpr : p r = true) by (unfold p in *; by rewrite Hroute).
  assert (Hin : k ∈ ids_used s2).
  { apply elem_of_ids_used. split; [by eexists | lia]. }
  destruct (first_match_exists p s2 (ids_used s2) k r Hin Hr Hpr) as [j Hj].
  pose proof (find_slot_Some _ _ _ Hj) as (Hjr & y & Hy & Hpy).
  assert (Hy1 : mess_remove (mess y) = 1).
  { destruct (Hrows j y Hy) as [Hold | [_ ?]]; [| done].
    destruct (Z.lt_trichotomy j k) as [Hlt | [-> | Hgt]].
    - rewrite (Hleast j y) in Hpy; [done | lia | done].
    - rewrite Hr in Hy. by injection Hy as <-.
    - pose proof (find_slot_least _ _ _ Hj k r) as Hc. rewrite Hc in Hpr; [done | lia | done]. }
  eexists _, j, y. split; [reflexivity|]. simpl.
  split_and!; [exact Hj | done | done | by apply streq_true in Hpy].
Qed.

(** X11. After a REMOVE-APP in node scope has marked a node removed, every
    further *-APP command with the same fields, in either scope, leaves the
    registry (version included) as it is: REMOVE-APP answers success again,
    the other three answer MNODERD, a MEM error. *)
Theorem X11_removed_node_refuses_commands ptr acc k node st :
  appl_parse sz ptr = Go acc ->
  read_node (nodestatsmem st) (af_nodeinfo acc) = Some k ->
  slots (nodestatsmem st) !! k = Some node -> mess_remove (mess node) = 0 ->
  max_size (nodestatsmem st) <= max_size (hoststatsmem st) ->
  exists st1, process_appl_cmd sz now uninit_id ptr REMOVE 1 st = (st1, Returned None 0)
    /\ forall status global,
         process_appl_cmd sz now uninit_id ptr status global st1
         = (st1, if status =? REMOVE then Returned None 0
                 else Returned (Some (MNODERD (mess_JVMRoute (mess (af_nodeinfo acc))))) TYPEMEM).
Proof.
  intros Hparse Hread Hk Hlive Hsz.
  destruct (remove_app_marks_route ptr acc k node st Hparse Hread Hk Hlive Hsz)
    as (st1 & j & y & Hrun & Hj & Hy & Hrem & Hroute).
  exists st1. split; [done|]. intros status global.
  unfold process_appl_cmd. rewrite Hparse.
  unfold read_node. rewrite (appl_parse_by_route _ _ Hparse). simpl.
  rewrite Hj. simpl. unfold row_at. rewrite Hy. simpl. rewrite Hrem, Hroute. simpl.
  by destruct (status =? REMOVE).
Qed.
End RemoveTwice.

Section StatusFacts.
Context (sz : clustersize) (uninit_nodeinfo : nodeinfo) (now uninit_id : Z).

End StatusFacts.

Section Notification.
Context (sz : clustersize) (mconf : mod_manager_config).
Context (balancerhandler : option balancer_method) (now : Z).

Lemma process_config_success_row ptr st st' :
  process_config sz mconf balancerhandler now ptr st = (st', Returned None 0) ->
  version st' = (version st + 1) mod 2 ^ 64
  /\ exists id row, slots (nodestatsmem st') !! id = Some row.
Proof.
  unfold process_config. destruct (config_parse sz mconf ptr) as [rq|o] eqn:Hp.
  2:{ intros [= <- ->]. by apply config_parse_Stop in Hp. }
  intros Hrun. split; [by eapply config_transaction_untyped|].
  revert Hrun. unfold config_transaction.
  destruct (insert_update_balancer _ _) as [bs|]; [| done].
  set (nodeinfo := cr_nodeinfo rq). set (st0 := set_balancerstatsmem bs st).
  destruct (config_conflict now _ nodeinfo st0) as [st1 [[]|o]] eqn:Hc; simpl.
  2:{ apply config_conflict_cases in Hc as [[? _] | (e' & [= ->] & _)]; done. }
  apply config_conflict_cases in Hc as [[_ ->] | (e' & ? & _)]; [| done].
  case_match; [done|].
  destruct (config_choose_slot _ _ _ _) as [st2 [c|o]] eqn:Hch; simpl in *.
  2:{ intros [= <- ->]. by apply config_choose_slot_errtype in Hch. }
  destruct (config_upsert_node now c st2) as [st3 [id|o]] eqn:Hup; simpl in *.
  2:{ intros [= <- ->]. by apply config_upsert_node_errtype in Hup. }
  apply config_upsert_node_row in Hup as (row & Hrow & _).
  intros Hvh.
  destruct (config_vhosts_frame sz (cr_vhost rq) (mess_JVMRoute (mess nodeinfo)) id st3)
    as (Hn & _ & _).
  rewrite Hvh in Hn. simpl in Hn. exists id, row. by rewrite Hn.
Qed.

(** X12. A CONFIG that succeeds is announced to every process that was up
    to date: [loc_worker_nodes_need_update] gives it the low 32 bits of the
    new version (so the change goes unnoticed when these are 0), and once
    the process has stored that with [loc_worker_nodes_are_updated] it is
    told nothing more. *)
Theorem X12_config_success_is_announced ptr st st' tableversion :
  registry_invariant st ->
  process_config sz mconf balancerhandler now ptr st = (st', Returned None 0) ->
  tableversion = to_unsigned (version st) ->
  let last := loc_worker_nodes_need_update tableversion st' in
  last = to_unsigned (version st + 1)
  /\ loc_worker_nodes_need_update (loc_worker_nodes_are_updated last) st' = 0.
Proof.
  intros Hinv Hrun -> last.
  pose proof (process_config_invariant sz mconf balancerhandler now ptr st Hinv) as [Hwf _].
  rewrite Hrun in Hwf. simpl in Hwf.
  apply process_config_success_row in Hrun as (Hv & id & row & Hrow).
  destruct Hwf as (Hn & _).
  destruct (Hn id row Hrow) as [_ Hrange].
  assert (to_unsigned (get_version_node st') = to_unsigned (version st + 1)) as Hu.
  { unfold get_version_node, to_unsigned. rewrite Hv.
    apply Z.mod_mod_divide. by exists (2 ^ 32). }
  assert (last = to_unsigned (version st + 1)) as Hlast.
  { subst last. unfold loc_worker_nodes_need_update, loc_get_max_size_node.
    destruct (max_size (nodestatsmem st') =? 0) eqn:E; [lia|].
    rewrite Hu. unfold to_unsigned.
    destruct (_ mod _ =? _) eqn:E2; cbn [negb]; [exfalso | reflexivity].
    apply Z.eqb_eq in E2.
    assert (2 ^ 32 = 4294967296) as H32 by done. rewrite H32 in *.
    pose proof (Z.mod_pos_bound (version st) 4294967296 ltac:(lia)).
    pose proof (Z.mod_pos_bound (version st + 1) 4294967296 ltac:(lia)).
    pose proof (Z.div_mod (version st) 4294967296 ltac:(lia)).
    pose proof (Z.div_mod (version st + 1) 4294967296 ltac:(lia)).
    lia. }
  split; [done|]. rewrite Hlast.
  unfold loc_worker_nodes_need_update, loc_worker_nodes_are_updated.
  destruct (loc_get_max_size_node st' =? 0); [done|].
  by rewrite Hu, Z.eqb_refl.
Qed.
End Notification.

Section MergeFacts.

Lemma merge_int_assoc def a b c :
  merge_int def def (merge_int def def a b) c = merge_int def def a (merge_int def def b c).
Proof. unfold merge_int. repeat case_match; lia. Qed.

Lemma merge_str_assoc a b c : merge_str (merge_str a b) c = merge_str a (merge_str b c).
Proof. by destruct a, b, c. Qed.

Lemma merge_int_default_l def a : merge_int def def def a = a.
Proof. unfold merge_int. repeat case_match; lia. Qed.

Lemma merge_int_default_r def a : merge_int def def a def = a.
Proof. unfold merge_int. repeat case_match; lia. Qed.

Lemma merge_str_None_l a : merge_str None a = a.
Proof. by destruct a. Qed.

Lemma merge_str_None_r a : merge_str a None = a.
Proof. by destruct a. Qed.

(** X13. [merge_manager_server_config] is associative: a chain of server
    configurations merges to the same result however it is grouped. *)
Theorem X13_merge_manager_server_config_assoc a b c :
  merge_manager_server_config (merge_manager_server_config a b) c
  = merge_manager_server_config a (merge_manager_server_config b c).
Proof.
  unfold merge_manager_server_config. simpl.
  f_equal; first [apply merge_int_assoc | apply merge_str_assoc].
Qed.

(** X14. Merging with a fresh configuration, on either side, gives the
    other configuration back except for [maxmesssize] and [tableversion]:
    a merge never carries these two over, whatever it merges. *)
Theorem X14_merge_manager_server_config_fresh c :
  merge_manager_server_config create_manager_config c = unmerged_cleared c
  /\ merge_manager_server_config c create_manager_config = unmerged_cleared c
  /\ forall a, sc_maxmesssize (merge_manager_server_config a c) = 0.
Proof.
  unfold merge_manager_server_config, unmerged_cleared. simpl.
  split_and!; [| | done];
    f_equal; first [apply merge_int_default_l | apply merge_int_default_r
                   | apply merge_str_None_l | apply merge_str_None_r].
Qed.
End MergeFacts.

Section MethodFacts.

Lemma strcaseeq_true a b : strcaseeq a b = true <-> str_tolower a = str_tolower b.
Proof. unfold strcaseeq. apply String.eqb_eq. Qed.

(** X15. The methods that [check_method] lets in but [manager_handler]
    answers with "command not supported" are exactly ERROR, ADDID, REMOVEID
    and QUERY, in any letter case. *)
Theorem X15_accepted_but_unsupported method :
  check_method method = true /\ manager_handler_branch method = Write UNSUPPORTED
  <-> Exists (fun name => str_tolower method = name)
        ["error"; "addid"; "removeid"; "query"]%string.
Proof.
  unfold check_method, manager_handler_branch.
  repeat match goal with
  | |- context [strcaseeq method ?n] =>
      let E := fresh "E" in
      destruct (strcaseeq method n) eqn:E;
      [apply strcaseeq_true in E;
       let r := eval vm_compute in (str_tolower n) in change (str_tolower n) with r in E |]
  end;
  rewrite ?Exists_cons, Exists_nil;
  repeat match goal with
  | H : str_tolower method = _ |- _ => rewrite H; clear H
  end;
  (split; [intros [Hc Hb]; try done; tauto | intros Hb]);
  try (by destruct Hb as [Hb | [Hb | [Hb | [Hb | []]]]]); try done.
  unfold strcaseeq in *.
  destruct Hb as [Hb | [Hb | [Hb | [Hb | []]]]]; rewrite Hb in *; done.
Qed.
End MethodFacts.

Section DirectiveFacts.

Lemma strcaseeq_on_not_off arg : strcaseeq arg "On" = true -> strcaseeq arg "Off" = false.
Proof.
  unfold strcaseeq. intros H. apply String.eqb_eq in H. by rewrite H.
Qed.

(** X21. A directive that sets a switch to the value a fresh configuration
    has is lost in a merge: CheckNonce On and AllowCmd On in the second
    configuration leave the merged configuration with the value of the
    first, so they cannot switch back on what the first switched off, and
    AllowDisplay Off and ReduceDisplay Off cannot switch off what the first
    switched on. *)
Theorem X21_default_valued_directive_is_lost on off mconf1 mconf2 :
  strcaseeq on "On" = true -> strcaseeq off "Off" = true ->
  sc_nonce (merge_manager_server_config mconf1 (cmd_manager_nonce on mconf2).1)
  = sc_nonce mconf1
  /\ sc_allow_cmd (merge_manager_server_config mconf1 (cmd_manager_allow_cmd on mconf2).1)
     = sc_allow_cmd mconf1
  /\ sc_allow_display
       (merge_manager_server_config mconf1 (cmd_manager_allow_display off mconf2).1)
     = sc_allow_display mconf1
  /\ sc_reduce_display
       (merge_manager_server_config mconf1 (cmd_manager_reduce_display off mconf2).1)
     = sc_reduce_display mconf1.
Proof.
  intros Hon Hoff.
  unfold cmd_manager_nonce, cmd_manager_allow_cmd, cmd_manager_allow_display,
    cmd_manager_reduce_display, directive.
  rewrite Hon, Hoff, (strcaseeq_on_not_off on Hon). simpl.
  unfold merge_int. simpl. split_and!; repeat case_match; lia.
Qed.
End DirectiveFacts.

Section PingFacts.
Context (sz : clustersize) (uninit_nodeinfo : nodeinfo).

Lemma strcaseeq_lower key name : strcaseeq key name = true -> str_tolower key = str_tolower name.
Proof. unfold strcaseeq. apply String.eqb_eq. Qed.

Lemma ping_pair_address key v acc :
  address_field key ->
  exists acc',
    ping_pair sz key (Some v) acc = inl acc'
    /\ streq key EmptyString = false
    /\ pf_nodeinfo acc' = pf_nodeinfo acc
    /\ (is_Some (pf_scheme acc') <-> is_Some (pf_scheme acc) \/ strcaseeq key "Scheme" = true)
    /\ (is_Some (pf_host acc') <-> is_Some (pf_host acc) \/ strcaseeq key "Host" = true)
    /\ (is_Some (pf_port acc') <-> is_Some (pf_port acc) \/ strcaseeq key "Port" = true).
Proof.
  intros Haddr.
  assert (streq key EmptyString = false) as Hne.
  { destruct key; [| done]. by destruct Haddr as [? | [? | ?]]. }
  unfold ping_pair, address_field, strcaseeq in *.
  destruct Haddr as [H | [H | H]]; apply String.eqb_eq in H; rewrite !H; simpl;
    (eexists; split; [done|]; simpl; split_and!; try done;
     first [ split; [intros _; by right | intros _; by eexists]
           | split; [by auto | by intros [? | ?]] ]).
Qed.

Lemma ping_loop_address fields rest acc :
  Forall (fun kv => address_field kv.1) fields ->
  (rest = [] \/ exists tail, rest = EmptyString :: tail) ->
  exists acc',
    ping_loop sz (field_tokens fields ++ rest) acc = inl acc'
    /\ pf_nodeinfo acc' = pf_nodeinfo acc
    /\ (is_Some (pf_scheme acc') <-> is_Some (pf_scheme acc) \/ has_field "Scheme" fields = true)
    /\ (is_Some (pf_host acc') <-> is_Some (pf_host acc) \/ has_field "Host" fields = true)
    /\ (is_Some (pf_port acc') <-> is_Some (pf_port acc) \/ has_field "Port" fields = true).
Proof.
  intros Hall Hrest. revert acc. induction Hall as [|[key v] fields Hkey _ IH]; intros acc.
  - simpl. exists acc. split.
    + by destruct Hrest as [-> | [tail ->]].
    + split_and!; try done; split; auto; by intros [? | ?].
  - simpl in Hkey. destruct (ping_pair_address key v acc Hkey)
      as (acc1 & Hpair & Hne & Hn & Hs & Hh & Hp).
    destruct (IH acc1) as (acc' & Hloop & Hn' & Hs' & Hh' & Hp').
    exists acc'. simpl. rewrite Hne, Hpair. split; [done|].
    split; [congruence|].
    rewrite Hs', Hh', Hp', Hs, Hh, Hp. rewrite !orb_true_iff. tauto.
Qed.

(** X16. A PING that names only Scheme, Host and Port fields succeeds when
    it names all three or none of them, and is the syntax error SMISFLD when
    it names some but not all; tokens after an empty field name are not
    read. *)
Theorem X16_process_ping_all_or_none fields rest s :
  Forall (fun kv => address_field kv.1) fields ->
  rest = [] \/ (exists tail, rest = EmptyString :: tail) ->
  process_ping sz uninit_nodeinfo (field_tokens fields ++ rest) s
  = if bool_decide (has_field "Scheme" fields = has_field "Host" fields
                    /\ has_field "Host" fields = has_field "Port" fields)
    then Pong else PingError PING_SMISFLD TYPESYNTAX.
Proof.
  intros Hall Hrest. unfold process_ping.
  match goal with |- context [ping_loop _ _ ?a] =>
    destruct (ping_loop_address fields rest a Hall Hrest)
      as (acc' & -> & Hn & Hs & Hh & Hp) end.
  rewrite Hn. simpl in *.
  destruct (has_field "Scheme" fields), (has_field "Host" fields), (has_field "Port" fields),
    (pf_scheme acc') as [x|], (pf_host acc') as [y|], (pf_port acc') as [z|];
    try done;
    repeat match goal with
    | H : is_Some None <-> _ |- _ => destruct H as [_ H]; destruct H as [? ?]; [by auto | done]
    | H : is_Some (Some _) <-> _ |- _ =>
        destruct H as [H _]; destruct H as [[? ?] | ?]; [by eauto | done | done]
    end.
Qed.
End PingFacts.

Section SortFacts.

Lemma code_range c : 0 <= code c < 256.
Proof.
  unfold code. pose proof (N_ascii_bounded c). lia.
Qed.

Lemma strcmp_antisym a b : strcmp b a = - strcmp a b.
Proof.
  revert b. induction a as [|c a IH]; intros [|d b]; simpl; try lia.
  destruct (code c =? code d) eqn:E.
  - apply Z.eqb_eq in E. rewrite E, Z.eqb_refl.
    destruct (code d =? 0); [done | apply IH].
  - rewrite Z.eqb_sym, E. lia.
Qed.

Lemma strcmp_le_trans a b c : strcmp a b <= 0 -> strcmp b c <= 0 -> strcmp a c <= 0.
Proof.
  revert b c. induction a as [|x a IH]; intros [|y b] [|z c]; simpl;
    repeat match goal with
    | c : ascii |- _ =>
        lazymatch goal with
        | _ : 0 <= code c < 256 |- _ => fail
        | _ => pose proof (code_range c)
        end
    end; intros Hab Hbc; repeat (case_match; try lia); try lia;
    eapply IH; eassumption.
Qed.

Lemma after_count_perm x l l' : l ≡ₚ l' -> after_count x l = after_count x l'.
Proof. induction 1; simpl; lia. Qed.

Lemma sort_pass_spec x rest :
  let '(r, changed) := sort_pass x rest in
  x :: rest ≡ₚ r
  /\ (inversions r <= inversions (x :: rest))%nat
  /\ (if changed then (inversions r < inversions (x :: rest))%nat
      else r = x :: rest /\ Sorted domain_le r).
Proof.
  revert x. induction rest as [|y rest IH]; intros x; simpl.
  - split; [done | split; [lia | split; [done | by repeat constructor]]].
  - destruct (domain_after x y) eqn:Hxy.
    + specialize (IH x). destruct (sort_pass x rest) as [r ch].
      destruct IH as (Hperm & Hle & _).
      assert (domain_after y x = false) as Hyx.
      { unfold domain_after in *.
        rewrite (strcmp_antisym (mess_Domain (mess x)) (mess_Domain (mess y))). lia. }
      assert (inversions (y :: r) < inversions (x :: y :: rest))%nat.
      { simpl. rewrite <- (after_count_perm y _ _ Hperm). simpl. rewrite Hxy, Hyx.
        simpl in Hle. lia. }
      split; [| split; [simpl in *; rewrite ?Hxy in *; lia | simpl in *; rewrite ?Hxy in *; lia]].
      rewrite <- Hperm. apply Permutation_swap.
    + specialize (IH y). destruct (sort_pass y rest) as [r ch].
      destruct IH as (Hperm & Hle & Hch).
      assert (inversions (x :: r) + (inversions (y :: rest) - inversions r)
              = inversions (x :: y :: rest))%nat as Heq.
      { simpl. rewrite <- (after_count_perm x _ _ Hperm). simpl. simpl in Hle. lia. }
      split; [by rewrite Hperm | split; [simpl in *; rewrite ?Hxy in *; lia |]].
      destruct ch; [simpl in *; rewrite ?Hxy in *; lia|].
      destruct Hch as [-> Hs]. split; [done|].
      constructor; [done|]. constructor. unfold domain_le, domain_after in *. lia.
Qed.

Lemma sort_loop_spec passes nodes :
  (inversions nodes < passes)%nat ->
  exists r, sort_loop passes nodes = Some r /\ nodes ≡ₚ r /\ Sorted domain_le r.
Proof.
  revert nodes. induction passes as [|passes IH]; intros nodes Hlt; [lia|].
  destruct nodes as [|x rest]; simpl; [by exists []|].
  pose proof (sort_pass_spec x rest) as H.
  destruct (sort_pass x rest) as [r ch]. destruct H as (Hperm & Hle & Hch).
  destruct ch.
  - destruct (IH r) as (r' & -> & Hp' & Hs'); [simpl in *; lia|].
    exists r'. split_and!; [done | by rewrite Hperm | done].
  - destruct Hch as [-> Hs]. by exists (x :: rest).
Qed.

(** X17. [sort_nodes] ends, after at most one pass more than there are
    pairs of rows out of order, with the same rows ordered by Domain. *)
Theorem X17_sort_nodes_sorts nodes :
  exists r,
    sort_nodes (S (inversions nodes)) nodes = Some r
    /\ nodes ≡ₚ r
    /\ StronglySorted domain_le r.
Proof.
  unfold sort_nodes.
  destruct (sort_loop_spec (S (inversions nodes)) nodes) as (r & Hr & Hp & Hs); [lia|].
  assert (Transitive domain_le) as Htrans.
  { intros a b c. unfold domain_le. apply strcmp_le_trans. }
  destruct (Z.of_nat (length nodes) <=? 1) eqn:E.
  - exists nodes. split_and!; [done | done |].
    destruct nodes as [|a [|b l]].
    + apply SSorted_nil.
    + apply SSorted_cons; [apply SSorted_nil | constructor].
    + apply Z.leb_le in E. rewrite !length_cons in E. lia.
  - exists r. split_and!; [done | done |]. by apply Sorted_StronglySorted.
Qed.
End SortFacts.

Section InfoFacts.
Context (sz : clustersize) (conf : server_config) (balancer_nonce : string).
Context (now uninit_id : Z).

Lemma domain_command_invariant cmd ptr st st' o :
  domain_command sz now uninit_id cmd ptr st = Some (st', o) ->
  registry_invariant st -> registry_invariant st'.
Proof.
  unfold domain_command, process_enable, process_disable, process_stop, process_remove.
  intros H Hinv.
  repeat case_match; simplify_eq;
    match goal with
    | H : process_appl_cmd _ _ _ ?p ?s ?g ?st = _ |- _ =>
        pose proof (process_appl_cmd_invariant sz now uninit_id p s g st Hinv) as Hi;
        by rewrite H in Hi
    end.
Qed.

Lemma domain_loop_invariant cmd domain ptr ids errstring errtype st :
  registry_invariant st ->
  registry_invariant (domain_loop sz now uninit_id cmd domain ptr ids errstring errtype st).1.
Proof.
  revert errstring errtype st. induction ids as [|i ids IH]; intros errstring errtype st Hinv;
    simpl; [done|].
  destruct (get_node _ _) as [ou|]; [| by apply IH].
  destruct domain as [d|]; [| done].
  destruct (negb _); [by apply IH|].
  destruct (domain_command _ _ _ _ _ _) as [[st' o]|] eqn:Hc; [| by apply IH].
  apply domain_command_invariant in Hc; [| done].
  destruct o as [e t| |]; [| done..].
  destruct e; simpl; by apply IH.
Qed.

(** X18. Whatever the parameters of the status page ask for, at context,
    node or domain range, the registry it leaves is well formed and every
    context row still has its host row. *)
Theorem X18_manager_info_command_invariant params st :
  registry_invariant st ->
  registry_invariant
    (manager_info_command sz conf balancer_nonce now uninit_id params st).1.
Proof.
  intros Hinv. unfold manager_info_command, process_domain,
    process_enable, process_disable, process_stop, process_remove.
  repeat case_match; try done;
    first [by apply domain_loop_invariant | by apply process_appl_cmd_invariant].
Qed.

(** X19. With the nonce check on, parameters that do not carry this
    server's nonce run no command: nothing is reported and the registry
    stays as it is.  The same holds when commands are not allowed. *)
Theorem X19_manager_info_command_guard params st :
  (sc_nonce conf <> 0 /\ apr_table_get params "nonce" <> Some balancer_nonce)
  \/ sc_allow_cmd conf = 0 ->
  manager_info_command sz conf balancer_nonce now uninit_id params st = (st, Returned None 0).
Proof.
  intros [[Hnonce Hname] | Hcmd]; unfold manager_info_command.
  - assert (checked_params conf balancer_nonce params = []) as ->; [| done].
    unfold checked_params.
    destruct (sc_nonce conf =? 0) eqn:E; [lia|]. simpl.
    destruct (apr_table_get params "nonce") as [name|]; [| done].
    destruct (streq balancer_nonce name) eqn:Es; [| done].
    apply streq_true in Es. congruence.
  - rewrite Hcmd. simpl. by repeat case_match.
Qed.


End InfoFacts.

Section Capacity.
Context (sz : clustersize) (mconf : mod_manager_config).
Context (balancerhandler : option balancer_method).

Lemma insert_update_host_size s host s' :
  insert_update_host s host = Some s' -> max_size s' = max_size s.
Proof. unfold insert_update_host. intros H. by repeat (case_match; simplify_eq). Qed.

Lemma insert_update_context_size s c s' :
  insert_update_context s c = Some s' -> max_size s' = max_size s.
Proof. unfold insert_update_context. intros H. by repeat (case_match; simplify_eq). Qed.

Lemma insert_update_balancer_size s b s' :
  insert_update_balancer s b = Some s' -> max_size s' = max_size s.
Proof. unfold insert_update_balancer. intros H. by repeat (case_match; simplify_eq). Qed.

Lemma insert_update_node_size now s node id clean s' k :
  insert_update_node now s node id clean = Some (s', k) -> max_size s' = max_size s.
Proof. unfold insert_update_node. intros H. by repeat (case_match; simplify_eq). Qed.

Lemma insert_hosts_loop_size pieces node vhost s :
  max_size (insert_hosts_loop sz pieces node vhost s).1 = max_size s.
Proof.
  revert s. induction pieces as [|p rest IH]; intros s; [done|].
  destruct rest as [|q rest'].
  - simpl. destruct (insert_update_host _ _) as [s'|] eqn:E; [| done].
    by apply insert_update_host_size in E.
  - change (insert_hosts_loop sz (p :: q :: rest') node vhost s)
      with (match insert_update_host s
                    (host_info (strncpy (Z.to_nat (HOSTALIASZ sz)) p) node vhost) with
            | Some s' => insert_hosts_loop sz (q :: rest') node vhost s'
            | None => (s, false)
            end).
    destruct (insert_update_host _ _) as [s'|] eqn:E; [| done].
    rewrite IH. by apply insert_update_host_size in E.
Qed.

Lemma read_remove_context_size s c : max_size (read_remove_context s c) = max_size s.
Proof. unfold read_remove_context. by repeat case_match. Qed.

Lemma insert_contexts_loop_size pieces node vhost status s :
  max_size (insert_contexts_loop sz pieces node vhost status s).1 = max_size s.
Proof.
  revert s. induction pieces as [|p rest IH]; intros s; [done|].
  simpl. destruct (status =? REMOVE).
  - destruct rest; [apply read_remove_context_size|].
    rewrite IH. apply read_remove_context_size.
  - destruct (insert_update_context _ _) as [s'|] eqn:E; [| done].
    apply insert_update_context_size in E.
    destruct rest; [done|]. by rewrite IH.
Qed.

Lemma loc_remove_host_context_capacity node st :
  capacity (loc_remove_host_context node st) = capacity st.
Proof.
  unfold loc_remove_host_context, capacity, remove_hosts_of, remove_contexts_of.
  case_match; [done|]. simpl. by rewrite !remove_matching_max_size.
Qed.

Lemma config_conflict_capacity now node nodeinfo st :
  capacity (config_conflict now node nodeinfo st).1 = capacity st.
Proof.
  unfold config_conflict. repeat case_match; try done. simpl.
  unfold inc_version_node.
  match goal with |- capacity (set_version _ ?x) = _ =>
    change (capacity (set_version _ x)) with (capacity x) end.
  by rewrite loc_remove_host_context_capacity.
Qed.

Lemma config_choose_slot_capacity node nodeinfo st :
  capacity (config_choose_slot balancerhandler node nodeinfo st).1 = capacity st.
Proof.
  destruct (config_choose_slot balancerhandler node nodeinfo st) as [st1 r] eqn:H.
  revert H. unfold config_choose_slot, config_worker_exists, config_reuse_slot, step.
  intros H. simpl.
  by repeat (case_match; simpl in *; simplify_eq).
Qed.

Lemma config_upsert_node_capacity now c st :
  capacity (config_upsert_node now c st).1 = capacity st.
Proof.
  unfold config_upsert_node.
  destruct (insert_update_node _ _ _ _ _) as [[s k]|] eqn:E.
  - apply insert_update_node_size in E. unfold step, capacity. simpl.
    repeat case_match; simpl in *; simplify_eq; simpl; by rewrite E.
  - simpl. by repeat case_match.
Qed.

Lemma config_insert_vhosts_capacity vhost route id vid st :
  capacity (config_insert_vhosts sz vhost route id vid st).1 = capacity st.
Proof.
  revert vid st. induction vhost as [|phost rest IH]; intros vid st; simpl; [done|].
  unfold insert_update_hosts, insert_update_contexts.
  pose proof (insert_hosts_loop_size (split_commas (default EmptyString (ch_host phost)))
                id vid (hoststatsmem st)) as Hh.
  destruct (insert_hosts_loop _ _ _ _ _) as [hs ok]. simpl in Hh.
  destruct ok; simpl; [| by unfold capacity; simpl; rewrite Hh].
  pose proof (insert_contexts_loop_size (split_commas (default "/"%string (ch_context phost)))
                id vid STOPPED (contextstatsmem st)) as Hc.
  destruct (insert_contexts_loop _ _ _ _ _ _) as [cs ok]. simpl in Hc.
  destruct ok; simpl; [| by unfold capacity; simpl; rewrite Hh, Hc].
  rewrite IH. unfold capacity. simpl. by rewrite Hh, Hc.
Qed.

Lemma config_transaction_capacity now nodeinfo balancerinfo vhost st :
  capacity (config_transaction sz balancerhandler now nodeinfo balancerinfo vhost st).1
  = capacity st.
Proof.
  unfold config_transaction.
  destruct (insert_update_balancer _ _) as [bs|] eqn:Eb; [| done].
  apply insert_update_balancer_size in Eb.
  set (st0 := set_balancerstatsmem bs st).
  assert (capacity st0 = capacity st) as <- by (unfold capacity; simpl; by rewrite Eb).
  pose proof (config_conflict_capacity now
    (read_node (nodestatsmem st0) nodeinfo ≫= row_at (nodestatsmem st0)) nodeinfo st0) as H1.
  destruct (config_conflict _ _ _ _) as [st1 [[]|o]]; simpl in *; [| done].
  case_match; [done|].
  pose proof (config_choose_slot_capacity
    (read_node (nodestatsmem st0) nodeinfo ≫= row_at (nodestatsmem st0)) nodeinfo st1) as H2.
  destruct (config_choose_slot _ _ _ _) as [st2 [c|o]]; simpl in *; [| congruence].
  pose proof (config_upsert_node_capacity now c st2) as H3.
  destruct (config_upsert_node _ _ _) as [st3 [id|o]]; simpl in *; [| congruence].
  match goal with |- capacity ?x.1 = _ =>
    assert (capacity x.1 = capacity st3) as ->; [| congruence] end.
  unfold config_vhosts. repeat case_match; first [done | apply config_insert_vhosts_capacity].
Qed.

Lemma process_config_capacity now ptr st :
  capacity (process_config sz mconf balancerhandler now ptr st).1 = capacity st.
Proof.
  unfold process_config. case_match; [| done]. apply config_transaction_capacity.
Qed.

Lemma node_cmd_contexts_size status ou ids s :
  max_size (node_cmd_contexts status ou ids s) = max_size s.
Proof.
  revert s. induction ids as [|j ids IH]; intros s; simpl; [done|].
  destruct (get_context s j) as [c|]; [| apply IH].
  rewrite IH. repeat case_match; try done.
  match goal with H : insert_update_context _ _ = Some _ |- _ =>
    by apply insert_update_context_size in H end.
Qed.

Lemma node_cmd_hosts_capacity status nid ids st :
  capacity (node_cmd_hosts status nid ids st) = capacity st.
Proof.
  revert st. induction ids as [|i ids IH]; intros st; simpl; [done|].
  destruct (get_host _ _) as [ou|]; [| apply IH].
  destruct (negb _); [apply IH|].
  rewrite IH. unfold capacity.
  destruct (status =? REMOVE); simpl; by rewrite node_cmd_contexts_size.
Qed.

Lemma node_cmd_mark_removed_size now uninit_id k s :
  max_size (node_cmd_mark_removed now uninit_id k s) = max_size s.
Proof.
  unfold node_cmd_mark_removed.
  destruct (slots _ !! k) as [node|]; [| done].
  destruct (insert_update_node _ _ _ _ _) as [[s' j]|] eqn:E; [| done].
  by apply insert_update_node_size in E.
Qed.

Lemma process_node_cmd_capacity now uninit_id status k st :
  capacity (process_node_cmd now uninit_id status k st) = capacity st.
Proof.
  unfold process_node_cmd. repeat case_match; try done.
  - unfold capacity. simpl. rewrite node_cmd_mark_removed_size.
    apply (node_cmd_hosts_capacity status).
  - apply node_cmd_hosts_capacity.
Qed.

Lemma appl_find_host_capacity status route node vhost st :
  capacity (appl_find_host sz status route node vhost st).1 = capacity st.
Proof.
  unfold appl_find_host. destruct (read_host _ _); [done|].
  destruct (status =? REMOVE); [done|].
  unfold insert_update_hosts.
  match goal with |- context [insert_hosts_loop sz ?p ?n ?v ?s] =>
    pose proof (insert_hosts_loop_size p n v s) as Hh;
    destruct (insert_hosts_loop sz p n v s) as [hs ok] end.
  simpl in Hh.
  repeat case_match; unfold capacity; simpl; by rewrite Hh.
Qed.

Lemma appl_context_scope_capacity status route node vhost st :
  capacity (appl_context_scope sz status route node vhost st).1 = capacity st.
Proof.
  unfold appl_context_scope.
  pose proof (appl_find_host_capacity status route node vhost st) as H1.
  destruct (appl_find_host _ _ _ _ _ _) as [st1 [host|o]]; simpl in *; [| done].
  destruct (host ≫= get_host (hoststatsmem st1)) as [h|]; [| done].
  destruct (appl_enable_check status vhost st1); simpl; [| done].
  unfold insert_update_contexts.
  match goal with |- context [insert_contexts_loop sz ?p ?n ?v ?x ?s] =>
    pose proof (insert_contexts_loop_size p n v x s) as Hc;
    destruct (insert_contexts_loop sz p n v x s) as [cs ok] end.
  simpl in Hc. rewrite <- H1.
  destruct ok; simpl; [| by unfold capacity; simpl; rewrite Hc].
  unfold appl_remove_host, remove_vhost_hosts.
  repeat case_match; unfold capacity; simpl;
    rewrite ?remove_matching_max_size, ?Hc; done.
Qed.

Lemma process_appl_cmd_capacity now uninit_id ptr status global st :
  capacity (process_appl_cmd sz now uninit_id ptr status global st).1 = capacity st.
Proof.
  unfold process_appl_cmd.
  destruct (appl_parse sz ptr) as [acc|]; [| done].
  destruct (read_node _ _ ≫= row_at _) as [[k node]|]; [| by case_match].
  destruct (negb (mess_remove (mess node) =? 0)); [by case_match|].
  destruct (negb (global =? 0)); simpl.
  - by rewrite process_node_cmd_capacity.
  - by rewrite appl_context_scope_capacity.
Qed.

Lemma manager_handler_capacity now uninit_id method filename buff st :
  capacity (manager_handler sz mconf balancerhandler now uninit_id method filename buff st).1
  = capacity st.
Proof.
  unfold manager_handler. destruct (process_buff buff) as [ptr|]; [| done].
  destruct method; try done;
    first [apply process_config_capacity | apply process_appl_cmd_capacity].
Qed.



End Capacity.

Section HistoryFacts.
Context (sz : clustersize) (mconf : mod_manager_config).

Lemma run_hostport_unique init history :
  registry_invariant init -> hostport_unique (nodestatsmem init) ->
  Forall (id_names_no_slot (max_size (nodestatsmem init))) history ->
  hostport_unique (nodestatsmem (run sz mconf None init history)).
Proof.
  revert init. induction history as [|r history IH]; intros init Hinv Huniq Hall; simpl; [done|].
  apply Forall_cons in Hall as [[Hne Hout] Hall].
  pose proof (manager_handler_capacity sz mconf None (rq_now r) (rq_uninit_id r) (rq_method r)
                (rq_filename r) (rq_buff r) init) as Hcap.
  apply IH.
  - by apply manager_handler_invariant.
  - apply manager_handler_hostport_unique; [by destruct Hinv | done..].
  - unfold serve. unfold capacity in Hcap. injection Hcap as -> _ _ _. done.
Qed.

(** X1. After any history of requests since [manager_init] the registry is
    well formed (every row of the node, host and context tables sits in a
    slot of its table and carries the slot number as its id, and the tables
    are sized Maxnode <= Maxhost <= Maxcontext) and every context row has a
    host row of its node and vhost. *)
Theorem X1_history_keeps_registry_invariant balancerhandler maxnode maxhost maxcontext history :
  registry_invariant
    (run sz mconf balancerhandler (manager_init maxnode maxhost maxcontext) history).
Proof. apply run_invariant, manager_init_invariant. Qed.

(** X2. Without a reconciler, and as long as the indeterminate id that
    [process_node_cmd] hands to [insert_update_node] is not -1 and names no
    slot of the node table, the node table never holds two rows with the
    same Host and Port after any history of requests; so no two rows
    describe the same worker. *)
Theorem X2_history_keeps_one_row_per_address maxnode maxhost maxcontext history :
  Forall (id_names_no_slot maxnode) history ->
  let st := run sz mconf None (manager_init maxnode maxhost maxcontext) history in
  hostport_unique (nodestatsmem st) /\ worker_unique (nodestatsmem st).
Proof.
  intros Hall st.
  assert (hostport_unique (nodestatsmem st)) as H.
  { apply run_hostport_unique; [apply manager_init_invariant | done | done]. }
  split; [done | by apply hostport_unique_worker_unique].
Qed.
End HistoryFacts.

(** ** The properties on the concrete installation *)

Section Checks.
Import Scenario.

Ltac decided := apply (bool_decide_unpack _); vm_compute; reflexivity.
Ltac computed := vm_compute; reflexivity.


(** scenario 1 of the specification, through C2 *)
Lemma C2_witness :
  (graph registered <> graph fresh -> version fresh < version registered)
  /\ version fresh <= version registered.
Proof.
  apply (C2_mutation_bumps_version sizes conf None 1000 77 CONFIG "/" config_node1
           fresh registered None 0).
  - decided.
  - simpl. lia.
  - computed.
Defined.


(** REMOVE-APP on the whole of node1 after scenarios 1 and 4, through C4 *)
Lemma C4_witness :
  exists st',
    manager_handler sizes conf None 1000 77 REMOVE_APP (manager_trans_filename "*")
      "JVMRoute=node1" (run sizes conf None (manager_init 20 20 100) history_enabled)
    = (st', Returned None 0)
    /\ (forall i h,
          slots (hoststatsmem st') !! i = Some h ->
          host_node h <> mess_id (mess (row enabled 0)))
    /\ (forall j c,
          slots (contextstatsmem st') !! j = Some c ->
          ctx_node c <> mess_id (mess (row enabled 0)))
    /\ (exists row, slots (nodestatsmem st') !! 0 = Some row /\ mess_remove (mess row) = 1).
Proof.
  apply (C4_remove_app_node_scope_cascades sizes conf None 20 20 100 history_enabled
           1000 77 "*" "JVMRoute=node1" (tokens "JVMRoute=node1")
           (parsed_appl "JVMRoute=node1") 0 (row enabled 0)).
  - by left.
  - computed.
  - computed.
  - computed.
  - computed.
  - computed.
Defined.

(** a CONFIG without JVMRoute is a SYNTAX error that changes nothing,
    through C5 *)
Lemma C5_witness :
  (handle CONFIG "/" "Host=10.0.0.9" registered).2 = Returned (Some SROUBAD) TYPESYNTAX
  /\ (handle CONFIG "/" "Host=10.0.0.9" registered).1 = registered.
Proof.
  split; [computed |].
  apply (C5_syntax_error_leaves_registry sizes conf None 1000 77 CONFIG
           (manager_trans_filename "/") "Host=10.0.0.9" registered (Some SROUBAD)).
  computed.
Defined.

(** C5 as the specification states it fails on scenario 2: the CONFIG
    returns a MEM error, and the node is tombstoned, its host and context
    are gone and the version is bumped. *)
Lemma C5_counterexample :
  (handle CONFIG "/" config_node1_moved registered).2
  = Returned (Some (MNODERM "node1")) TYPEMEM
  /\ (handle CONFIG "/" config_node1_moved registered).1 <> registered
  /\ graph (handle CONFIG "/" config_node1_moved registered).1 <> graph registered
  /\ version (handle CONFIG "/" config_node1_moved registered).1
     = version registered + 1.
Proof.
  split_and!; [computed | | | computed].
  - intros H. apply (f_equal version) in H. vm_compute in H. done.
  - intros H. apply (f_equal (fun g => g.1.2 !! 0)) in H. vm_compute in H. done.
Qed.


(** ENABLE-APP of a context that is enabled already: the version is
    bumped, through C10, and the graph is what it was *)
Lemma C10_witness :
  version (process_appl_cmd sizes 1000 77 (tokens app_node1) ENABLED 0 enabled).1
  = (version enabled + 1) mod 2 ^ 64
  /\ graph (process_appl_cmd sizes 1000 77 (tokens app_node1) ENABLED 0 enabled).1
     = graph enabled.
Proof.
  split.
  - apply (C10_appl_cmd_bumps_version_once sizes 1000 77 (tokens app_node1) ENABLED 0
             enabled (parsed_appl app_node1) 0 (row enabled 0)).
    + computed.
    + computed.
    + computed.
    + computed.
  - computed.
Defined.

(** C7. The failing input: a CONFIG whose body has an empty value before a
    token with [<].  [decodeenc] returns at the empty token, the body is
    accepted, the CONFIG succeeds and the node is stored with Host [<].
    With the character sent as [%3C] the token is not even decoded. *)
Theorem C7_forbidden_character_after_empty_token_accepted :
  process_buff config_lt_after_empty
  = Some ["JVMRoute"; "node1"; "Domain"; EmptyString; "Host"; "<"]%string
  /\ (handle CONFIG "/" config_lt_after_empty fresh).2 = Returned None 0
  /\ mess_Host (mess (row (handle CONFIG "/" config_lt_after_empty fresh).1 0))
     = "<"%string
  /\ version (handle CONFIG "/" config_lt_after_empty fresh).1 = version fresh + 1
  /\ process_buff config_encoded_lt_after_empty
     = Some ["JVMRoute"; "node1"; "Domain"; EmptyString; "Host"; "%3C"]%string
  /\ process_buff "JVMRoute=node1&Host=%3C" = None.
Proof. split_and!; computed. Qed.


(** C9. The failing input: a CONFIG with a mixed-case alias stores the
    alias as it was sent.  ENABLE-APP lowercases the same alias, does not
    find the host row, and adds a second one under a new vhost id, with its
    own context, while the context installed by CONFIG stays STOPPED. *)
Theorem C9_config_stores_alias_as_sent :
  let configured := (handle CONFIG "/" config_mixed_case_alias fresh).1 in
  let served := (handle ENABLE_APP "/" app_mixed_case_alias configured).1 in
  (handle CONFIG "/" config_mixed_case_alias fresh).2 = Returned None 0
  /\ ch_host <$> cr_vhost (parsed_config config_mixed_case_alias)
     = [Some "Example.COM"%string]
  /\ host_host <$> slots (hoststatsmem configured) !! 0 = Some "Example.COM"%string
  /\ ch_host (af_vhost (parsed_appl app_mixed_case_alias)) = Some "example.com"%string
  /\ (handle ENABLE_APP "/" app_mixed_case_alias configured).2 = Returned None 0
  /\ (fun h => (host_host h, host_vhost h)) <$> slots (hoststatsmem served) !! 1
     = Some ("example.com"%string, 2)
  /\ (fun c => (ctx_vhost c, ctx_status c)) <$> slots (contextstatsmem served) !! 0
     = Some (1, STOPPED)
  /\ (fun c => (ctx_vhost c, ctx_status c)) <$> slots (contextstatsmem served) !! 1
     = Some (2, ENABLED).
Proof. split_and!; computed. Qed.

End Checks.

(** ** The further properties on the concrete installation *)

Section FurtherChecks.
Import Scenario Examples.

Ltac decided := apply (bool_decide_unpack _); vm_compute; reflexivity.
Ltac computed := vm_compute; reflexivity.

(** the history of scenarios 1 and 4, through X2 *)
Lemma X2_witness :
  let st := run sizes conf None (manager_init 20 20 100) history_enabled in
  hostport_unique (nodestatsmem st) /\ worker_unique (nodestatsmem st).
Proof.
  apply (X2_history_keeps_one_row_per_address sizes conf 20 20 100 history_enabled).
  decided.
Defined.


(** the CONFIG of scenario 1, through X5 *)
Lemma X5_witness :
  node_fields_fit sizes (cr_nodeinfo (parsed_config config_node1))
  /\ balancer_fields_fit sizes (cr_balancerinfo (parsed_config config_node1)).
Proof.
  apply (X5_config_parse_fields_fit sizes conf (tokens config_node1)
           (parsed_config config_node1)).
  - decided.
  - computed.
Defined.

(** a CONFIG with a Color field, through X6 *)
Lemma X6_witness :
  process_config sizes conf None 1000
    (config_before_color ++ "Color"%string :: "red"%string :: config_after_color) fresh
  = process_config sizes conf None 1000 (config_before_color ++ config_after_color) fresh.
Proof.
  apply (X6_process_config_skips_unknown_key sizes conf None 1000 config_before_color
           "Color" "red" config_after_color fresh).
  - by exists 1%nat.
  - decided.
Defined.

(** the body of scenario 1, through X7 *)
Lemma X7_witness :
  match process_buff config_node1 with
  | None => Exists (fun t => has_forbidden (percent_decode t) = true) (tokenize config_node1)
  | Some ptr =>
      ptr = (fun t => c_str (percent_decode t)) <$> tokenize config_node1
      /\ Forall (fun t => has_forbidden (percent_decode t) = false) (tokenize config_node1)
      /\ Forall (fun t => has_forbidden t = false /\ c_str t = t) ptr
  end.
Proof.
  apply (X7_process_buff_without_empty_tokens config_node1).
  decided.
Defined.

(** the body of scenario 1, through X8 *)
Lemma X8_witness :
  Forall2 (fun raw tok => strlen tok <= strlen raw)
    (tokenize config_node1) (tokens config_node1).
Proof.
  apply (X8_process_buff_tokens_shrink config_node1 (tokens config_node1)).
  computed.
Defined.


(** DISABLE-APP on the whole of node1 after scenario 4, through X10 *)
Lemma X10_witness :
  exists st',
    process_appl_cmd sizes 1000 77 (tokens "JVMRoute=node1") DISABLED 1 enabled
    = (st', Returned None 0)
    /\ nodestatsmem st' = nodestatsmem enabled
    /\ hoststatsmem st' = hoststatsmem enabled
    /\ forall j,
         slots (contextstatsmem st') !! j
         = (fun c => if ctx_node c =? mess_id (mess (row enabled 0))
                     then set_ctx_status DISABLED c else c)
           <$> slots (contextstatsmem enabled) !! j.
Proof.
  apply (X10_node_scope_sets_status sizes 1000 77 (tokens "JVMRoute=node1") DISABLED
           enabled (parsed_appl "JVMRoute=node1") 0 (row enabled 0)).
  - computed.
  - computed.
  - computed.
  - computed.
  - done.
  - decided.
Defined.

(** REMOVE-APP on the whole of node1 after scenario 4, through X11 *)
Lemma X11_witness :
  exists st1,
    process_appl_cmd sizes 1000 77 (tokens "JVMRoute=node1") REMOVE 1 enabled
    = (st1, Returned None 0)
    /\ forall status global,
         process_appl_cmd sizes 1000 77 (tokens "JVMRoute=node1") status global st1
         = (st1, if status =? REMOVE then Returned None 0
                 else Returned
                        (Some (MNODERD
                                 (mess_JVMRoute (mess (af_nodeinfo (parsed_appl "JVMRoute=node1"))))))
                        TYPEMEM).
Proof.
  apply (X11_removed_node_refuses_commands sizes 1000 77 (tokens "JVMRoute=node1")
           (parsed_appl "JVMRoute=node1") 0 (row enabled 0) enabled).
  - computed.
  - computed.
  - computed.
  - computed.
  - vm_compute. discriminate.
Defined.


(** scenario 1 of the specification, through X12 *)
Lemma X12_witness :
  let last := loc_worker_nodes_need_update 0 registered in
  last = to_unsigned (version fresh + 1)
  /\ loc_worker_nodes_need_update (loc_worker_nodes_are_updated last) registered = 0.
Proof.
  apply (X12_config_success_is_announced sizes conf None 1000 (tokens config_node1) fresh
           registered 0).
  - decided.
  - computed.
  - computed.
Defined.

(** a PING with a Scheme alone, through X16 *)
Lemma X16_witness :
  process_ping sizes (stack_nodeinfo zero_mess) (field_tokens ping_scheme_only ++ [])
    (nodestatsmem fresh)
  = if bool_decide (has_field "Scheme" ping_scheme_only = has_field "Host" ping_scheme_only
                    /\ has_field "Host" ping_scheme_only = has_field "Port" ping_scheme_only)
    then Pong else PingError PING_SMISFLD TYPESYNTAX.
Proof.
  apply (X16_process_ping_all_or_none sizes (stack_nodeinfo zero_mess) ping_scheme_only []
           (nodestatsmem fresh)).
  - decided.
  - by left.
Defined.

(** "Disable" on the node line of the status page after scenario 4, through
    X18 *)
Lemma X18_witness :
  registry_invariant
    (manager_info_command sizes open_conf server_nonce 1000 77 page_disable_node1 enabled).1.
Proof.
  apply (X18_manager_info_command_invariant sizes open_conf server_nonce 1000 77
           page_disable_node1 enabled).
  decided.
Defined.

(** the same parameters on a server that checks the nonce, through X19 *)
Lemma X19_witness :
  manager_info_command sizes create_manager_config server_nonce 1000 77
    page_disable_node1 enabled
  = (enabled, Returned None 0).
Proof.
  apply (X19_manager_info_command_guard sizes create_manager_config server_nonce 1000 77
           page_disable_node1 enabled).
  left. split; [vm_compute; discriminate | vm_compute; discriminate].
Defined.


(** a virtual host that asks for the nonce check and for commands under a
    main server that switched the check off, through X21 *)
Lemma X21_witness :
  sc_nonce (merge_manager_server_config open_conf
              (cmd_manager_nonce "on" create_manager_config).1)
  = sc_nonce open_conf
  /\ sc_allow_cmd (merge_manager_server_config open_conf
                     (cmd_manager_allow_cmd "on" create_manager_config).1)
     = sc_allow_cmd open_conf
  /\ sc_allow_display
       (merge_manager_server_config open_conf
          (cmd_manager_allow_display "OFF" create_manager_config).1)
     = sc_allow_display open_conf
  /\ sc_reduce_display
       (merge_manager_server_config open_conf
          (cmd_manager_reduce_display "OFF" create_manager_config).1)
     = sc_reduce_display open_conf.
Proof.
  apply (X21_default_valued_directive_is_lost "on" "OFF" open_conf create_manager_config).
  - computed.
  - computed.
Defined.

End FurtherChecks.
